(** * Pivot probability: timing, trajectory and combiner

    Shallow embedding of
    - [docs/data-backtesting/python/scripts/pivot-timing-analysis.py]
      ([detect_pivots], [wavelength_timing_analysis]) and
    - [docs/data-backtesting/python/scripts/pivot-trajectory-analysis.py]
      ([PivotPoint], [detect_pivots_with_prices], [fit_pivot_trendline],
      [trajectory_alignment_analysis], [combined_pivot_probability]).

    Numbers.  A Python / numpy float is modelled by [float]: an exact
    rational or one of the IEEE special values.  Finite arithmetic is exact
    (no rounding, no overflow, one zero); division by zero and operations on
    the special values follow IEEE 754 as numpy does for [float64] scalars
    (a warning, never an exception).  The only irrational operation, the
    square root, is exact on rational squares and truncated otherwise.

    Library code.  [numpy] and [scipy] are not part of the repository; the
    functions the scripts call ([np.diff], [np.mean], [np.std], [np.median],
    [scipy.signal.find_peaks], [scipy.stats.linregress]) are transcribed in
    the modules [Np] and [Scipy] from the libraries' own algorithms. *)

From Stdlib Require Import String ZArith QArith Qabs List Bool Lia Lqa.
From Stdlib Require Import Qminmax Znumtheory Sorted.
Import ListNotations.

Local Open Scope string_scope.
Local Open Scope list_scope.
Local Open Scope Z_scope.

(* ================================================================= *)
(** ** Floating-point values *)

Inductive float : Type :=
| Fin (q : Q)
| PInf
| NInf
| NaN.

Definition Qlt_bool (a b : Q) : bool := negb (Qle_bool b a).

Definition of_int (z : Z) : float := Fin (inject_Z z).
Definition of_nat (n : nat) : float := of_int (Z.of_nat n).

Definition fneg (x : float) : float :=
  match x with
  | Fin q => Fin (- q)
  | PInf => NInf
  | NInf => PInf
  | NaN => NaN
  end.

Definition fabs (x : float) : float :=
  match x with
  | Fin q => Fin (Qabs q)
  | PInf | NInf => PInf
  | NaN => NaN
  end.

Definition fadd (x y : float) : float :=
  match x, y with
  | NaN, _ | _, NaN => NaN
  | Fin a, Fin b => Fin (a + b)
  | PInf, NInf | NInf, PInf => NaN
  | PInf, _ | _, PInf => PInf
  | NInf, _ | _, NInf => NInf
  end.

Definition fsub (x y : float) : float := fadd x (fneg y).

(** [inf_times pos a]: an infinity of sign [pos] multiplied by the finite [a]. *)
Definition inf_times (pos : bool) (a : Q) : float :=
  if Qeq_bool a 0 then NaN
  else if Bool.eqb pos (Qlt_bool 0 a) then PInf else NInf.

Definition fmul (x y : float) : float :=
  match x, y with
  | NaN, _ | _, NaN => NaN
  | Fin a, Fin b => Fin (a * b)
  | Fin a, PInf | PInf, Fin a => inf_times true a
  | Fin a, NInf | NInf, Fin a => inf_times false a
  | PInf, PInf | NInf, NInf => PInf
  | PInf, NInf | NInf, PInf => NInf
  end.

Definition fdiv (x y : float) : float :=
  match x, y with
  | NaN, _ | _, NaN => NaN
  | Fin a, Fin b =>
      if Qeq_bool b 0 then
        if Qeq_bool a 0 then NaN
        else if Qlt_bool 0 a then PInf else NInf
      else Fin (a / b)
  | Fin _, PInf | Fin _, NInf => Fin 0
  | PInf, Fin b => if Qlt_bool b 0 then NInf else PInf
  | NInf, Fin b => if Qlt_bool b 0 then PInf else NInf
  | _, _ => NaN
  end.

(** Comparisons: every comparison with [NaN] is false. *)
Definition fltb (x y : float) : bool :=
  match x, y with
  | NaN, _ | _, NaN => false
  | Fin a, Fin b => Qlt_bool a b
  | NInf, NInf | PInf, _ | _, NInf => false
  | NInf, _ | _, PInf => true
  end.

Definition fleb (x y : float) : bool :=
  match x, y with
  | NaN, _ | _, NaN => false
  | Fin a, Fin b => Qle_bool a b
  | NInf, _ | _, PInf => true
  | PInf, _ | _, NInf => false
  end.

Definition feqb (x y : float) : bool :=
  match x, y with
  | Fin a, Fin b => Qeq_bool a b
  | PInf, PInf | NInf, NInf => true
  | _, _ => false
  end.

(** Square root of a rational: [sqrt (n/d) = sqrt (n*d) / d], computed on
    the reduced fraction with [sqrt_scale] extra binary digits.  Exact when
    the argument is the square of a rational. *)
Definition sqrt_scale : positive := Pos.pow 2 53.

Definition Qsqrt (q : Q) : Q :=
  let r := Qred q in
  Z.sqrt (Qnum r * Zpos (Qden r) * (Zpos sqrt_scale * Zpos sqrt_scale))
    # (Qden r * sqrt_scale).

Definition fsqrt (x : float) : float :=
  match x with
  | Fin q => if Qlt_bool q 0 then NaN else Fin (Qsqrt q)
  | PInf => PInf
  | NInf | NaN => NaN
  end.

(** The same value, up to the representation of the rational. *)
Definition feq (x y : float) : Prop :=
  match x, y with
  | Fin a, Fin b => (a == b)%Q
  | PInf, PInf | NInf, NInf | NaN, NaN => True
  | _, _ => False
  end.

Definition is_finite (x : float) : bool :=
  match x with Fin _ => true | _ => false end.

Definition is_nan (x : float) : bool :=
  match x with NaN => true | _ => false end.

(** Python's builtin [max(a, b)] and [min(a, b)]: the first argument is
    kept unless the second one compares strictly better. *)
Definition pymax (a b : float) : float := if fltb a b then b else a.
Definition pymin (a b : float) : float := if fltb b a then b else a.

(* ================================================================= *)
(** ** Python values, slices and exceptions *)

Inductive exn : Type :=
| ValueError (msg : string).

Inductive outcome (A : Type) : Type :=
| Ok (a : A)
| Raise (e : exn).
Arguments Ok {A} a.
Arguments Raise {A} e.

Definition bind {A B : Type} (m : outcome A) (k : A -> outcome B) : outcome B :=
  match m with
  | Ok a => k a
  | Raise e => Raise e
  end.

Notation "x <- m ;; k" := (bind m (fun x => k))
  (at level 61, m at next level, right associativity).

Inductive pyval : Type :=
| VNum (x : float)
| VStr (s : string)
| VBool (b : bool).

(** A dict with string keys, in insertion order. *)
Definition dict (V : Type) : Type := list (string * V).

Fixpoint dict_get {V : Type} (key : string) (d : dict V) : option V :=
  match d with
  | [] => None
  | (k, v) :: rest => if String.eqb key k then Some v else dict_get key rest
  end.

Definition dict_keys {V : Type} (d : dict V) : list string := map fst d.

(** [l[start:]] with Python's treatment of negative and oversized bounds. *)
Definition slice_from {A : Type} (start : Z) (l : list A) : list A :=
  let n := Z.of_nat (length l) in
  let s := if start <? 0 then Z.max 0 (n + start) else Z.min start n in
  skipn (Z.to_nat s) l.

Fixpoint list_set {A : Type} (k : nat) (v : A) (l : list A) : list A :=
  match l, k with
  | [], _ => []
  | _ :: t, O => v :: t
  | h :: t, S k' => h :: list_set k' v t
  end.

(** [arr[mask]] for a boolean mask. *)
Fixpoint mask_select {A : Type} (l : list A) (keep : list bool) : list A :=
  match l, keep with
  | a :: l', b :: keep' =>
      if b then a :: mask_select l' keep' else mask_select l' keep'
  | _, _ => []
  end.

(* ================================================================= *)
(** ** numpy *)

Module Np.

Fixpoint diff (l : list Z) : list Z :=
  match l with
  | a :: (b :: _) as t => (b - a) :: diff t
  | _ => []
  end.

Definition sum (l : list float) : float := fold_left fadd l (Fin 0).

(** [np.mean]: the sum divided by the number of elements ([nan] on an
    empty array). *)
Definition mean (l : list float) : float := fdiv (sum l) (of_nat (length l)).

(** [np.std], population form ([ddof = 0]). *)
Definition std (l : list float) : float :=
  let m := mean l in
  fsqrt (mean (map (fun x => fmul (fsub x m) (fsub x m)) l)).

Fixpoint insert_sorted (a : Z) (l : list Z) : list Z :=
  match l with
  | [] => [a]
  | h :: t => if a <=? h then a :: h :: t else h :: insert_sorted a t
  end.

Definition sort (l : list Z) : list Z := fold_right insert_sorted [] l.

(** [np.median] of an integer array. *)
Definition median (l : list Z) : float :=
  let s := sort l in
  let n := length s in
  match n with
  | O => NaN
  | _ =>
      if Nat.even n
      then mean [of_int (nth (n / 2 - 1) s 0); of_int (nth (n / 2) s 0)]
      else of_int (nth (n / 2) s 0)
  end.

(** [np.mean(arr <= bound)]: the booleans are averaged as 0.0 / 1.0. *)
Definition mean_le (l : list Z) (bound : Z) : float :=
  mean (map (fun w => if w <=? bound then Fin 1 else Fin 0) l).

(** Order used by [np.argsort] on floats: ascending, [nan] last. *)
Definition key_le (a b : float) : bool :=
  match a, b with
  | _, NaN => true
  | NaN, _ => false
  | _, _ => fleb a b
  end.

Fixpoint insert_index (key : nat -> float) (i : nat) (l : list nat) : list nat :=
  match l with
  | [] => [i]
  | h :: t =>
      if key_le (key i) (key h) then i :: h :: t
      else h :: insert_index key i t
  end.

(** [np.argsort]: the indices of [a] in ascending order of value.  Equal
    values keep their relative order here; numpy leaves that order
    unspecified. *)
Definition argsort (a : list float) : list nat :=
  fold_right (insert_index (fun i => nth i a NaN)) [] (seq 0 (length a)).

End Np.

(* ================================================================= *)
(** ** scipy *)

Module Scipy.

(** *** [scipy.signal.find_peaks]

    The samples are read with [nth _ x NaN]; every index the loops read is
    inside the array. *)

(** Inner loop of [_local_maxima_1d]:
    [while i_ahead < i_max and x[i_ahead] == x[i]: i_ahead += 1]. *)
Fixpoint plateau_end (x : list float) (xi : float) (i_ahead i_max fuel : nat) : nat :=
  match fuel with
  | O => i_ahead
  | S f =>
      if (i_ahead <? i_max)%nat && feqb (nth i_ahead x NaN) xi
      then plateau_end x xi (S i_ahead) i_max f
      else i_ahead
  end.

(** Outer loop of [_local_maxima_1d], from sample [i] on; only the
    midpoints of the plateaus are returned, the edges are used for nothing
    else by [find_peaks] here. *)
Fixpoint local_maxima_from (x : list float) (i i_max fuel : nat) : list nat :=
  match fuel with
  | O => []
  | S f =>
      if (i <? i_max)%nat then
        if fltb (nth (i - 1) x NaN) (nth i x NaN) then
          let i_ahead := plateau_end x (nth i x NaN) (i + 1) i_max i_max in
          if fltb (nth i_ahead x NaN) (nth i x NaN) then
            ((i + (i_ahead - 1)) / 2)%nat
              :: local_maxima_from x (i_ahead + 1) i_max f
          else local_maxima_from x (i + 1) i_max f
        else local_maxima_from x (i + 1) i_max f
      else []
  end.

(** The first and the last sample cannot be maxima: [i] starts at 1 and
    [i_max = len(x) - 1]. *)
Definition local_maxima_1d (x : list float) : list nat :=
  local_maxima_from x 1 (length x - 1) (length x).

(** [_select_by_peak_distance], loop [k = j - 1; while 0 <= k and
    peaks[j] - peaks[k] < distance: keep[k] = 0; k -= 1].  [k1] is [k + 1]. *)
Fixpoint flag_earlier (peaks : list Z) (pj d : Z) (k1 : nat) (keep : list bool)
  : list bool :=
  match k1 with
  | O => keep
  | S k =>
      if pj - nth k peaks 0 <? d
      then flag_earlier peaks pj d k (list_set k false keep)
      else keep
  end.

(** Loop [k = j + 1; while k < peaks_size and peaks[k] - peaks[j] < distance:
    keep[k] = 0; k += 1]. *)
Fixpoint flag_later (peaks : list Z) (pj d : Z) (k fuel : nat) (keep : list bool)
  : list bool :=
  match fuel with
  | O => keep
  | S f =>
      if (k <? length peaks)%nat && (nth k peaks 0 - pj <? d)
      then flag_later peaks pj d (S k) f (list_set k false keep)
      else keep
  end.

(** Body of the priority loop for the peak at position [j]. *)
Definition distance_step (peaks : list Z) (d : Z) (keep : list bool) (j : nat)
  : list bool :=
  if nth j keep false then
    flag_later peaks (nth j peaks 0) d (S j) (length peaks)
      (flag_earlier peaks (nth j peaks 0) d j keep)
  else keep.

(** The priority loop over a given processing order. *)
Definition select_in_order (peaks : list Z) (d : Z) (order : list nat) : list bool :=
  fold_left (distance_step peaks d) order (repeat true (length peaks)).

(** [_select_by_peak_distance]: highest priority first. *)
Definition select_by_peak_distance (peaks : list Z) (priority : list float) (d : Z)
  : list bool :=
  select_in_order peaks d (rev (Np.argsort priority)).

(** [_peak_prominences] with [wlen = None]: lowest sample on the left of
    the peak before a higher one.  [i1] is [i + 1]. *)
Fixpoint left_min (x : list float) (xp : float) (i1 : nat) (m : float) : float :=
  match i1 with
  | O => m
  | S i =>
      let xi := nth i x NaN in
      if fleb xi xp then left_min x xp i (if fltb xi m then xi else m) else m
  end.

Fixpoint right_min (x : list float) (xp : float) (i fuel : nat) (m : float) : float :=
  match fuel with
  | O => m
  | S f =>
      let xi := nth i x NaN in
      if (i <? length x)%nat && fleb xi xp
      then right_min x xp (S i) f (if fltb xi m then xi else m)
      else m
  end.

Definition peak_prominence (x : list float) (peak : nat) : float :=
  let xp := nth peak x NaN in
  fsub xp (pymax (left_min x xp (S peak) xp) (right_min x xp peak (length x) xp)).

(** [find_peaks(x, prominence=prominence, distance=distance)] with an
    integer [distance]: local maxima, then the distance condition, then
    the prominence condition [prominence <= prominences]. *)
Definition find_peaks (x : list float) (prominence : option float) (distance : Z)
  : outcome (list Z) :=
  if distance <? 1 then
    Raise (ValueError "`distance` must be greater or equal to 1")
  else
    let peaks := local_maxima_1d x in
    let keep :=
      select_by_peak_distance (map Z.of_nat peaks)
        (map (fun p => nth p x NaN) peaks) distance in
    let peaks := mask_select peaks keep in
    let peaks :=
      match prominence with
      | None => peaks
      | Some pmin => filter (fun p => fleb pmin (peak_prominence x p)) peaks
      end in
    Ok (map Z.of_nat peaks).

(** *** [scipy.stats.linregress] *)

Definition all_equal (l : list Z) : bool :=
  match l with
  | [] => true
  | a :: t => forallb (Z.eqb a) t
  end.

(** Mean of the products of the deviations: one entry of
    [np.cov(x, y, bias=1)]. *)
Definition cov1 (a b : list float) : float :=
  let ma := Np.mean a in
  let mb := Np.mean b in
  Np.mean (map (fun p => fmul (fsub (fst p) ma) (fsub (snd p) mb)) (combine a b)).

(** Returns [(slope, intercept, rvalue)].  When one of the two variances
    is zero the correlation is not computed from the quotient: it is NaN
    when the covariance is zero as well (a constant [y]), and 0 otherwise. *)
Definition linregress (x : list Z) (y : list float) : outcome (float * float * float) :=
  match x, y with
  | [], _ | _, [] => Raise (ValueError "Inputs must not be empty.")
  | _, _ =>
      if all_equal x && (1 <? length x)%nat then
        Raise (ValueError
          "Cannot calculate a linear regression if all x values are identical")
      else
        let fx := map of_int x in
        let xmean := Np.mean fx in
        let ymean := Np.mean y in
        let ssxm := cov1 fx fx in
        let ssxym := cov1 fx y in
        let ssym := cov1 y y in
        let r :=
          if feqb ssxm (Fin 0) || feqb ssym (Fin 0) then
            if feqb ssxym (Fin 0) then NaN else Fin 0
          else
            let r := fdiv ssxym (fsqrt (fmul ssxm ssym)) in
            if fltb (Fin 1) r then Fin 1
            else if fltb r (Fin (-1)) then Fin (-1)
            else r in
        let slope := fdiv ssxym ssxm in
        let intercept := fsub ymean (fmul slope xmean) in
        Ok (slope, intercept, r)
  end.

End Scipy.

(* ================================================================= *)
(** ** pivot-timing-analysis.py *)

(** [detect_pivots(highs, lows, prominence=None, distance=5)]. *)
Definition detect_pivots (highs lows : list float) (prominence : option float)
  (distance : Z) : outcome (list Z * list Z) :=
  peak_indices <- Scipy.find_peaks highs prominence distance ;;
  valley_indices <- Scipy.find_peaks (map fneg lows) prominence distance ;;
  Ok (peak_indices, valley_indices).

(** The dict returned by [wavelength_timing_analysis]. *)
Record WavelengthStats : Type := {
  historical_avg_wavelength : float;
  historical_std : float;
  historical_median : float;
  current_distance : Z;
  z_score : float;
  percentile : float;
  timing_probability : float;
  bars_until_avg : float;
  recent_wavelengths : list Z
}.

(** [wavelength_timing_analysis(pivot_indices, current_bar)]; [None] is
    Python's [None]. *)
Definition wavelength_timing_analysis (pivot_indices : list Z) (current_bar : Z)
  : option WavelengthStats :=
  if (length pivot_indices <? 3)%nat then None
  else
    let wavelengths := Np.diff pivot_indices in
    let avg_wavelength := Np.mean (map of_int wavelengths) in
    let std_wavelength := Np.std (map of_int wavelengths) in
    let median_wavelength := Np.median wavelengths in
    let current_distance := current_bar - last pivot_indices 0 in
    let z_score :=
      if fltb (Fin 0) std_wavelength
      then fdiv (fsub (of_int current_distance) avg_wavelength) std_wavelength
      else Fin 0 in
    let percentile := fmul (Np.mean_le wavelengths current_distance) (Fin 100) in
    let timing_probability := pymin (fdiv percentile (Fin 100)) (Fin 1) in
    Some {|
      historical_avg_wavelength := avg_wavelength;
      historical_std := std_wavelength;
      historical_median := median_wavelength;
      current_distance := current_distance;
      z_score := z_score;
      percentile := percentile;
      timing_probability := timing_probability;
      bars_until_avg := pymax (Fin 0) (fsub avg_wavelength (of_int current_distance));
      recent_wavelengths := slice_from (-5) wavelengths
    |}.

(* ================================================================= *)
(** ** pivot-trajectory-analysis.py *)

Record PivotPoint : Type := {
  index : Z;
  price : float;
  is_high : bool
}.

Fixpoint insert_pivot (p : PivotPoint) (l : list PivotPoint) : list PivotPoint :=
  match l with
  | [] => [p]
  | h :: t => if index p <=? index h then p :: h :: t else h :: insert_pivot p t
  end.

(** [sorted(pivots, key=lambda p: p.index)]; Python's sort is stable. *)
Definition sorted_by_index (l : list PivotPoint) : list PivotPoint :=
  fold_right insert_pivot [] l.

(** [detect_pivots_with_prices(highs, lows, distance=5)]. *)
Definition detect_pivots_with_prices (highs lows : list float) (distance : Z)
  : outcome (list PivotPoint) :=
  peak_idx <- Scipy.find_peaks highs None distance ;;
  valley_idx <- Scipy.find_peaks (map fneg lows) None distance ;;
  let pivots :=
    map (fun idx => {| index := idx; price := nth (Z.to_nat idx) highs NaN;
                       is_high := true |}) peak_idx
    ++ map (fun idx => {| index := idx; price := nth (Z.to_nat idx) lows NaN;
                          is_high := false |}) valley_idx in
  Ok (sorted_by_index pivots).

(** [fit_pivot_trendline(pivots, is_high, lookback=5)]: [Ok None] is the
    returned [None], [Ok (Some (slope, intercept, r_squared))] the tuple. *)
Definition fit_pivot_trendline (pivots : list PivotPoint) (high : bool) (lookback : Z)
  : outcome (option (float * float * float)) :=
  let filtered :=
    slice_from (- lookback) (filter (fun p => Bool.eqb (is_high p) high) pivots) in
  if (length filtered <? 2)%nat then Ok None
  else
    let x := map index filtered in
    let y := map price filtered in
    fit <- Scipy.linregress x y ;;
    let '(slope, intercept, r_value) := fit in
    Ok (Some (slope, intercept, fmul r_value r_value)).

(** One entry of the dict returned by [trajectory_alignment_analysis]. *)
Record AlignmentResult : Type := {
  slope : float;
  r_squared : float;
  projected_price : float;
  current_price : float;
  deviation_pct : float;
  aligned : bool;
  trend_direction : string;
  alignment_score : float
}.

(** [r_squared * max(0, 1 - deviation_pct / tolerance_pct)]. *)
Definition alignment_score_of (r_squared deviation_pct tolerance_pct : float) : float :=
  fmul r_squared (pymax (Fin 0) (fsub (Fin 1) (fdiv deviation_pct tolerance_pct))).

(** The body shared by the swing-high and the swing-low branch of
    [trajectory_alignment_analysis]; the source writes it out twice, with
    [current_high] and [current_low] as [observed]. *)
Definition analyze_trend (trend : float * float * float) (current_bar : Z)
  (observed tolerance_pct : float) : AlignmentResult :=
  let '(slope, intercept, r_squared) := trend in
  let projected := fadd (fmul slope (of_int current_bar)) intercept in
  let deviation_pct :=
    fmul (fdiv (fabs (fsub observed projected)) projected) (Fin 100) in
  {| slope := slope;
     r_squared := r_squared;
     projected_price := projected;
     current_price := observed;
     deviation_pct := deviation_pct;
     aligned := fleb deviation_pct tolerance_pct;
     trend_direction := if fltb (Fin 0) slope then "ascending" else "descending";
     alignment_score := alignment_score_of r_squared deviation_pct tolerance_pct |}.

(** [trajectory_alignment_analysis(pivots, current_bar, current_high,
    current_low, tolerance_pct=0.5)]; both fits use the default lookback. *)
Definition trajectory_alignment_analysis (pivots : list PivotPoint)
  (current_bar : Z) (current_high current_low tolerance_pct : float)
  : outcome (dict AlignmentResult) :=
  let results := [] in
  high_trend <- fit_pivot_trendline pivots true 5 ;;
  let results :=
    match high_trend with
    | Some trend =>
        results ++ [("swing_high", analyze_trend trend current_bar current_high tolerance_pct)]
    | None => results
    end in
  low_trend <- fit_pivot_trendline pivots false 5 ;;
  let results :=
    match low_trend with
    | Some trend =>
        results ++ [("swing_low", analyze_trend trend current_bar current_low tolerance_pct)]
    | None => results
    end in
  Ok results.

(** [combined_pivot_probability(timing_analysis, trajectory_analysis,
    check_high=True)]. *)
Definition combined_pivot_probability (timing_analysis : option WavelengthStats)
  (trajectory_analysis : dict AlignmentResult) (check_high : bool) : dict pyval :=
  let key := if check_high then "swing_high" else "swing_low" in
  match dict_get key trajectory_analysis, timing_analysis with
  | Some entry, Some timing =>
      let timing_prob := timing_probability timing in
      let alignment_score := alignment_score entry in
      let combined_prob :=
        fadd (fmul timing_prob (Fin 0.4)) (fmul alignment_score (Fin 0.6)) in
      let r_squared := r_squared entry in
      let confidence :=
        if fltb (Fin 0.8) r_squared && fltb (Fin 0.6) timing_prob then "high"
        else if fltb (Fin 0.5) r_squared && fltb (Fin 0.4) timing_prob then "medium"
        else "low" in
      [ ("probability", VNum combined_prob);
        ("confidence", VStr confidence);
        ("timing_contribution", VNum timing_prob);
        ("trajectory_contribution", VNum alignment_score);
        ("trajectory_r_squared", VNum r_squared);
        ("is_aligned", VBool (aligned entry));
        ("projected_price", VNum (projected_price entry)) ]
  | _, _ =>
      [ ("probability", VNum (Fin 0));
        ("confidence", VStr "low");
        ("reason", VStr "insufficient data") ]
  end.

(* ================================================================= *)
(** ** Sample inputs *)

(** An integer price. *)
Definition F (z : Z) : float := of_int z.

(** The scenario of the script's [__main__]. *)
Definition example_pivots : list PivotPoint :=
  [ {| index := 10; price := F 105; is_high := true |};
    {| index := 20; price := F 100; is_high := false |};
    {| index := 30; price := F 108; is_high := true |};
    {| index := 40; price := F 102; is_high := false |};
    {| index := 50; price := F 110; is_high := true |} ].

(** A timing result and a swing-low entry as in the script's [__main__]
    (timing probability 0.75, alignment score 1). *)
Definition mock_timing : WavelengthStats :=
  {| historical_avg_wavelength := F 10; historical_std := F 0;
     historical_median := F 10; current_distance := 10; z_score := F 0;
     percentile := F 75; timing_probability := Fin 0.75;
     bars_until_avg := F 0; recent_wavelengths := [10; 10] |}.

Definition mock_entry : AlignmentResult :=
  {| slope := Fin 0.1; r_squared := F 1; projected_price := F 104;
     current_price := F 104; deviation_pct := F 0; aligned := true;
     trend_direction := "ascending"; alignment_score := F 1 |}.

(** Two descending swing highs, 5 at bar 10 and 3 at bar 20: the line
    through them is at -5 on bar 60 and at 0 on bar 35. *)
Definition descending_highs : list PivotPoint :=
  [ {| index := 10; price := F 5; is_high := true |};
    {| index := 20; price := F 3; is_high := true |} ].

(** Two swing lows with the same price. *)
Definition level_lows : list PivotPoint :=
  [ {| index := 20; price := F 100; is_high := false |};
    {| index := 40; price := F 100; is_high := false |} ].

(** A series with a plateau (bars 5 and 6) and several narrow swings. *)
Definition zigzag : list float := map F [1; 3; 1; 4; 1; 5; 5; 1; 2; 1; 9; 1].

(* ================================================================= *)
(** ** Vocabulary of the statements *)

(** The key of the requested polarity, as [combined_pivot_probability]
    computes it. *)
Definition polarity_key (check_high : bool) : string :=
  if check_high then "swing_high" else "swing_low".

(** The price a polarity is compared with: [current_high] for swing highs,
    [current_low] for swing lows. *)
Definition observed_price (high : bool) (current_high current_low : float) : float :=
  if high then current_high else current_low.

(** The verdict of the combiner's early return. *)
Definition insufficient_data : dict pyval :=
  [ ("probability", VNum (Fin 0));
    ("confidence", VStr "low");
    ("reason", VStr "insufficient data") ].

(** The keys of the combiner's full verdict, in insertion order. *)
Definition defined_keys : list string :=
  [ "probability"; "confidence"; "timing_contribution";
    "trajectory_contribution"; "trajectory_r_squared"; "is_aligned";
    "projected_price" ].

(** [w <= bound] as 0 / 1. *)
Definition indicator (bound w : Z) : Q := if w <=? bound then 1%Q else 0%Q.

(** [keep'] is [keep] with some more flags cleared. *)
Definition cleared_only (keep' keep : list bool) : Prop :=
  forall k, nth k keep' false = true -> nth k keep false = true.

(** If the peak at [j] is kept, every other peak closer than [d] is not. *)
Definition settled (peaks : list Z) (d : Z) (keep : list bool) (j : nat) : Prop :=
  nth j keep false = true ->
  forall k, (k < length peaks)%nat -> k <> j ->
            Z.abs (nth k peaks 0 - nth j peaks 0) < d ->
            nth k keep false = false.

(** Any two positions of [l], the earlier one first, ascend. *)
Definition strictly_increasing (l : list Z) : Prop := StronglySorted Z.lt l.

(** Any two positions of [l], the earlier one first, are at least [d] apart. *)
Definition min_spaced (d : Z) (l : list Z) : Prop :=
  StronglySorted (fun a b => d <= b - a) l.

(** The series has a NaN (or missing, which numpy reads as NaN) value. *)
Definition contains_nan (l : list float) : bool := existsb is_nan l.

(** No sample is lower than an earlier one. *)
Definition never_falls (x : list float) : Prop :=
  forall i j, (i <= j < length x)%nat -> fltb (nth j x NaN) (nth i x NaN) = false.

(** No sample is higher than an earlier one. *)
Definition never_rises (x : list float) : Prop :=
  forall i j, (i <= j < length x)%nat -> fltb (nth i x NaN) (nth j x NaN) = false.

(** The pivots are in ascending order of bar index (ties allowed). *)
Definition sorted_by_bar (l : list PivotPoint) : Prop :=
  StronglySorted (fun a b => index a <= index b) l.

(* ================================================================= *)
(** ** Facts about the number model *)

Lemma Qlt_bool_iff (a b : Q) : Qlt_bool a b = true <-> (a < b)%Q.
Proof.
  unfold Qlt_bool. rewrite negb_true_iff. split; intro H.
  - apply Qnot_le_lt. intro Hle. apply Qle_bool_iff in Hle. congruence.
  - destruct (Qle_bool b a) eqn:E; [|reflexivity].
    apply Qle_bool_iff in E. exfalso. apply (Qlt_not_le _ _ H E).
Qed.

Lemma Qlt_bool_false (a b : Q) : Qlt_bool a b = false <-> (b <= a)%Q.
Proof.
  unfold Qlt_bool. rewrite negb_false_iff. apply Qle_bool_iff.
Qed.

Lemma Qeq_bool_false (a b : Q) : Qeq_bool a b = false <-> ~ (a == b)%Q.
Proof.
  split; intro H.
  - intro E. apply Qeq_bool_iff in E. congruence.
  - destruct (Qeq_bool a b) eqn:E; [|reflexivity].
    apply Qeq_bool_iff in E. contradiction.
Qed.

Lemma feq_refl (x : float) : feq x x.
Proof. destruct x; simpl; auto. reflexivity. Qed.

Lemma feq_sym (x y : float) : feq x y -> feq y x.
Proof. destruct x, y; simpl; auto. intro H. symmetry. exact H. Qed.

Lemma feq_trans (x y z : float) : feq x y -> feq y z -> feq x z.
Proof.
  destruct x, y, z; simpl; auto; try contradiction.
  intros H1 H2. rewrite H1. exact H2.
Qed.

Lemma fmul_comm (x y : float) : feq (fmul x y) (fmul y x).
Proof.
  destruct x, y; simpl; auto using feq_refl.
  apply Qmult_comm.
Qed.

Lemma fadd_feq (x x' y y' : float) :
  feq x x' -> feq y y' -> feq (fadd x y) (fadd x' y').
Proof.
  destruct x, x', y, y'; simpl; auto; try contradiction.
  intros H1 H2. rewrite H1, H2. reflexivity.
Qed.

(** Ltac: turn the boolean tests on rationals in the context and the goal
    into propositions. *)
Ltac qbool :=
  repeat match goal with
  | H : Qlt_bool _ _ = true |- _ => apply Qlt_bool_iff in H
  | H : Qlt_bool _ _ = false |- _ => apply Qlt_bool_false in H
  | H : Qle_bool _ _ = true |- _ => apply Qle_bool_iff in H
  | H : Qeq_bool _ _ = true |- _ => apply Qeq_bool_iff in H
  | H : Qeq_bool _ _ = false |- _ => apply Qeq_bool_false in H
  end.

(* ================================================================= *)
(** ** The combiner *)

(** C1: with a timing result and a trajectory entry for the requested
    polarity, the combiner's probability is 0.4 * timing_probability +
    0.6 * alignment_score; when the timing result is [None] or the entry is
    absent, the verdict is probability 0, confidence "low", reason
    "insufficient data". *)
Theorem C1_combined_probability :
  forall (timing : option WavelengthStats) (traj : dict AlignmentResult)
         (check_high : bool),
    (forall t e,
        timing = Some t ->
        dict_get (polarity_key check_high) traj = Some e ->
        exists p,
          dict_get "probability" (combined_pivot_probability timing traj check_high)
            = Some (VNum p)
          /\ feq p (fadd (fmul (Fin 0.4) (timing_probability t))
                         (fmul (Fin 0.6) (alignment_score e)))
          /\ (forall tp a,
                timing_probability t = Fin tp -> alignment_score e = Fin a ->
                feq p (Fin (0.4 * tp + 0.6 * a))))
    /\ (timing = None \/ dict_get (polarity_key check_high) traj = None ->
        combined_pivot_probability timing traj check_high = insufficient_data
        /\ dict_get "probability" insufficient_data = Some (VNum (Fin 0))
        /\ dict_get "confidence" insufficient_data = Some (VStr "low")
        /\ dict_get "reason" insufficient_data = Some (VStr "insufficient data")).
Proof.
  intros timing traj check_high. split.
  - intros t e Ht He. unfold combined_pivot_probability, polarity_key in *.
    rewrite He, Ht. eexists. split; [reflexivity|]. split.
    + apply fadd_feq; apply fmul_comm.
    + intros tp a Htp Ha. rewrite Htp, Ha. simpl. lra.
  - intros H. split; [|repeat split].
    unfold combined_pivot_probability, polarity_key in *.
    destruct H as [H | H]; rewrite H; [|reflexivity].
    destruct (dict_get _ traj); reflexivity.
Qed.

Lemma C1_combined_probability_witness :
  exists p,
    dict_get "probability"
      (combined_pivot_probability (Some mock_timing) [("swing_low", mock_entry)] false)
      = Some (VNum p)
    /\ feq p (Fin 0.9).
Proof.
  destruct (C1_combined_probability (Some mock_timing) [("swing_low", mock_entry)] false)
    as [H _].
  destruct (H mock_timing mock_entry eq_refl eq_refl) as [p [Hp [_ Hq]]].
  exists p. split; [exact Hp|].
  eapply feq_trans; [apply (Hq 0.75%Q 1%Q); reflexivity|].
  simpl. lra.
Defined.

(** C10: the insufficient-data verdict has exactly the fields probability,
    confidence and reason; every other verdict has the fields probability,
    confidence, timing_contribution, trajectory_contribution,
    trajectory_r_squared, is_aligned and projected_price, and no reason. *)
Theorem C10_verdict_fields :
  forall (timing : option WavelengthStats) (traj : dict AlignmentResult)
         (check_high : bool),
    let verdict := combined_pivot_probability timing traj check_high in
    (timing = None \/ dict_get (polarity_key check_high) traj = None ->
       dict_keys verdict = ["probability"; "confidence"; "reason"]
       /\ dict_get "reason" verdict = Some (VStr "insufficient data"))
    /\ (timing <> None /\ dict_get (polarity_key check_high) traj <> None ->
       dict_keys verdict = defined_keys
       /\ dict_get "reason" verdict = None).
Proof.
  intros timing traj check_high verdict. subst verdict.
  unfold combined_pivot_probability, polarity_key.
  split.
  - intros [H | H]; rewrite H; [destruct (dict_get _ traj)|]; split; reflexivity.
  - intros [Ht He].
    destruct timing as [t|]; [|congruence].
    destruct (dict_get _ traj) as [e|]; [|congruence].
    split; reflexivity.
Qed.

Lemma C10_verdict_fields_witness :
  dict_keys (combined_pivot_probability None [("swing_low", mock_entry)] false)
    = ["probability"; "confidence"; "reason"]
  /\ dict_keys (combined_pivot_probability (Some mock_timing)
                  [("swing_low", mock_entry)] false) = defined_keys.
Proof.
  split.
  - apply (C10_verdict_fields None [("swing_low", mock_entry)] false).
    left. reflexivity.
  - apply (C10_verdict_fields (Some mock_timing) [("swing_low", mock_entry)] false).
    split; discriminate.
Defined.

(* ================================================================= *)
(** ** The timing analyzer *)

Lemma diff_length (l : list Z) : length (Np.diff l) = (length l - 1)%nat.
Proof.
  induction l as [|a [|b t] IH]; simpl in *; try reflexivity.
  rewrite IH. lia.
Qed.

Lemma fold_fadd_Fin (l : list Q) (a : Q) :
  fold_left fadd (map Fin l) (Fin a) = Fin (fold_left Qplus l a).
Proof.
  revert a. induction l as [|q l IH]; intro a; simpl; [reflexivity|].
  apply IH.
Qed.

Lemma of_nat_nonzero (n : nat) :
  (0 < n)%nat -> Qeq_bool (inject_Z (Z.of_nat n)) 0 = false.
Proof.
  intro H. apply Qeq_bool_false. intro E.
  unfold Qeq in E. simpl in E. lia.
Qed.

(** The mean of a non-empty array of finite values is finite. *)
Lemma mean_Fin (l : list Q) :
  (0 < length l)%nat ->
  Np.mean (map Fin l)
  = Fin (fold_left Qplus l 0 / inject_Z (Z.of_nat (length l)))%Q.
Proof.
  intro H. unfold Np.mean, Np.sum. rewrite fold_fadd_Fin, length_map.
  unfold of_nat, of_int, fdiv. rewrite (of_nat_nonzero _ H). reflexivity.
Qed.

Lemma indicator_sum_bounds (bound : Z) (l : list Z) (a : Q) :
  (a <= fold_left Qplus (map (indicator bound) l) a
   /\ fold_left Qplus (map (indicator bound) l) a
      <= a + inject_Z (Z.of_nat (length l)))%Q.
Proof.
  revert a. induction l as [|w l IH]; intro a.
  - cbn [map fold_left length]. change (inject_Z (Z.of_nat 0)) with 0%Q.
    split; lra.
  - cbn [map fold_left length]. destruct (IH (a + indicator bound w)%Q) as [H1 H2].
    assert (Hi : (0 <= indicator bound w <= 1)%Q)
      by (unfold indicator; destruct (w <=? bound); split; lra).
    rewrite Nat2Z.inj_succ, <- Z.add_1_r, inject_Z_plus.
    change (inject_Z 1) with 1%Q. split; lra.
Qed.

(** [np.mean(wavelengths <= d)] is a fraction in [0, 1]. *)
Lemma mean_le_range (l : list Z) (bound : Z) :
  (0 < length l)%nat ->
  exists q, Np.mean_le l bound = Fin q /\ (0 <= q <= 1)%Q.
Proof.
  intro H. unfold Np.mean_le.
  replace (map (fun w => if w <=? bound then Fin 1 else Fin 0) l)
    with (map Fin (map (indicator bound) l)).
  2:{ rewrite map_map. apply map_ext. intro w. unfold indicator.
      destruct (w <=? bound); reflexivity. }
  rewrite mean_Fin by (rewrite length_map; exact H).
  rewrite length_map. eexists. split; [reflexivity|].
  destruct (indicator_sum_bounds bound l 0) as [H1 H2].
  assert (Hn : (0 < inject_Z (Z.of_nat (length l)))%Q).
  { unfold Qlt. simpl. lia. }
  split.
  - apply Qle_shift_div_l; [exact Hn|]. lra.
  - apply Qle_shift_div_r; [exact Hn|]. lra.
Qed.

(** C2: with fewer than 3 pivot positions the timing analyzer returns
    [None]; with at least 3 it returns a result whose percentile is a
    number in [0, 100] and whose timing_probability is a number in [0, 1]. *)
Theorem C2_timing_defined :
  forall (pivot_indices : list Z) (current_bar : Z),
    ((length pivot_indices < 3)%nat ->
       wavelength_timing_analysis pivot_indices current_bar = None)
    /\ ((3 <= length pivot_indices)%nat ->
       exists s pct prob,
         wavelength_timing_analysis pivot_indices current_bar = Some s
         /\ percentile s = Fin pct /\ (0 <= pct <= 100)%Q
         /\ timing_probability s = Fin prob /\ (0 <= prob <= 1)%Q).
Proof.
  intros pivots bar. unfold wavelength_timing_analysis. split; intro Hlen.
  - apply Nat.ltb_lt in Hlen. rewrite Hlen. reflexivity.
  - assert (Hlt : (length pivots <? 3)%nat = false) by (apply Nat.ltb_ge; exact Hlen).
    rewrite Hlt.
    destruct (mean_le_range (Np.diff pivots) (bar - last pivots 0)) as [q [Hq [Hq0 Hq1]]].
    { rewrite diff_length. lia. }
    eexists. exists (q * 100)%Q.
    exists (if Qlt_bool 1 (q * 100 / 100) then 1%Q else (q * 100 / 100)%Q).
    split; [reflexivity|]. cbn [percentile timing_probability].
    rewrite Hq. cbn [fmul fdiv]. change (Qeq_bool 100 0) with false. cbv iota.
    split; [reflexivity|]. split; [split; lra|].
    unfold pymin, fltb.
    assert (Hv : (q * 100 / 100 == q)%Q) by (field).
    destruct (Qlt_bool 1 (q * 100 / 100)) eqn:E.
    + split; [reflexivity|]. split; lra.
    + split; [reflexivity|]. rewrite Hv. split; lra.
Qed.

Lemma C2_timing_defined_witness :
  wavelength_timing_analysis [0; 10] 40 = None
  /\ exists s pct prob,
       wavelength_timing_analysis [0; 10; 25; 30] 40 = Some s
       /\ percentile s = Fin pct /\ (0 <= pct <= 100)%Q
       /\ timing_probability s = Fin prob /\ (0 <= prob <= 1)%Q.
Proof.
  split.
  - apply (C2_timing_defined [0; 10] 40). simpl. lia.
  - apply (C2_timing_defined [0; 10; 25; 30] 40). simpl. lia.
Defined.

(** C3: the z-score division is guarded.  Whenever the population
    standard deviation of the gaps is zero the z-score is the constant 0 (a
    number, not NaN); and for 4 pivots with gaps [10, 10, 10] and current
    distance 10 the result has avg 10, std 0, z-score 0, percentile 100 and
    timing_probability 1. *)
Theorem C3_zero_std_z_score :
  (forall (pivot_indices : list Z) (current_bar : Z),
      (3 <= length pivot_indices)%nat ->
      feq (Np.std (map of_int (Np.diff pivot_indices))) (Fin 0) ->
      exists s,
        wavelength_timing_analysis pivot_indices current_bar = Some s
        /\ feq (historical_std s) (Fin 0)
        /\ z_score s = Fin 0)
  /\ (forall (pivot_indices : list Z) (current_bar : Z),
      length pivot_indices = 4%nat ->
      Np.diff pivot_indices = [10; 10; 10] ->
      current_bar - last pivot_indices 0 = 10 ->
      exists s,
        wavelength_timing_analysis pivot_indices current_bar = Some s
        /\ feq (historical_avg_wavelength s) (Fin 10)
        /\ feq (historical_std s) (Fin 0)
        /\ z_score s = Fin 0
        /\ feq (percentile s) (Fin 100)
        /\ feq (timing_probability s) (Fin 1)).
Proof.
  split.
  - intros pivots bar Hlen Hstd. unfold wavelength_timing_analysis.
    assert (Hlt : (length pivots <? 3)%nat = false) by (apply Nat.ltb_ge; exact Hlen).
    rewrite Hlt. eexists. split; [reflexivity|]. cbn [historical_std z_score].
    split; [exact Hstd|].
    destruct (Np.std (map of_int (Np.diff pivots))) as [q| | |]; simpl in Hstd;
      try contradiction.
    unfold fltb. replace (Qlt_bool 0 q) with false; [reflexivity|].
    symmetry. apply Qlt_bool_false. lra.
  - intros pivots bar Hlen Hdiff Hcur. unfold wavelength_timing_analysis.
    rewrite Hlen, Hdiff, Hcur. eexists. split; [reflexivity|].
    cbn [historical_avg_wavelength historical_std z_score percentile
         timing_probability].
    repeat split; vm_compute; reflexivity.
Qed.

Lemma C3_zero_std_z_score_witness :
  (exists s,
      wavelength_timing_analysis [5; 12; 19] 30 = Some s
      /\ feq (historical_std s) (Fin 0)
      /\ z_score s = Fin 0)
  /\ exists s,
       wavelength_timing_analysis [0; 10; 20; 30] 40 = Some s
       /\ feq (historical_avg_wavelength s) (Fin 10)
       /\ feq (historical_std s) (Fin 0)
       /\ z_score s = Fin 0
       /\ feq (percentile s) (Fin 100)
       /\ feq (timing_probability s) (Fin 1).
Proof.
  split.
  - apply (proj1 C3_zero_std_z_score [5; 12; 19] 30).
    + simpl. lia.
    + vm_compute. reflexivity.
  - apply (proj2 C3_zero_std_z_score [0; 10; 20; 30] 40); reflexivity.
Defined.

(* ================================================================= *)
(** ** The trajectory analyzer *)

(** The returned dict has the swing-high entry exactly when the high fit
    returned a tuple, then the swing-low entry likewise. *)
Lemma trajectory_results pivots bar h l tol res :
  trajectory_alignment_analysis pivots bar h l tol = Ok res ->
  exists ht lt,
    fit_pivot_trendline pivots true 5 = Ok ht
    /\ fit_pivot_trendline pivots false 5 = Ok lt
    /\ res = match ht with
             | Some t => [("swing_high", analyze_trend t bar h tol)]
             | None => []
             end
             ++ match lt with
                | Some t => [("swing_low", analyze_trend t bar l tol)]
                | None => []
                end.
Proof.
  unfold trajectory_alignment_analysis.
  destruct (fit_pivot_trendline pivots true 5) as [ht|]; [|discriminate].
  destruct (fit_pivot_trendline pivots false 5) as [lt|]; [|discriminate].
  cbn [bind]. intro H. injection H as <-. exists ht, lt.
  split; [reflexivity|]. split; [reflexivity|].
  destruct ht, lt; reflexivity.
Qed.

Lemma trajectory_entry pivots bar h l tol res key e :
  trajectory_alignment_analysis pivots bar h l tol = Ok res ->
  dict_get key res = Some e ->
  exists high trend,
    key = polarity_key high
    /\ fit_pivot_trendline pivots high 5 = Ok (Some trend)
    /\ e = analyze_trend trend bar (observed_price high h l) tol.
Proof.
  intros Hres Hget.
  destruct (trajectory_results _ _ _ _ _ _ Hres) as [ht [lt [Hh [Hl ->]]]].
  destruct ht as [th|], lt as [tl|]; cbn [app dict_get] in Hget;
    repeat match type of Hget with
    | context [String.eqb key ?k] =>
        destruct (String.eqb_spec key k); [injection Hget as <-|]
    end; try discriminate.
  all: first [ exists true; eexists; split; [eassumption|]; split;
               [eassumption|reflexivity]
             | exists false; eexists; split; [eassumption|]; split;
               [eassumption|reflexivity] ].
Qed.

Lemma trajectory_present pivots bar h l tol res high trend :
  trajectory_alignment_analysis pivots bar h l tol = Ok res ->
  fit_pivot_trendline pivots high 5 = Ok (Some trend) ->
  dict_get (polarity_key high) res
  = Some (analyze_trend trend bar (observed_price high h l) tol).
Proof.
  intros Hres Hfit.
  destruct (trajectory_results _ _ _ _ _ _ Hres) as [ht [lt [Hh [Hl ->]]]].
  destruct high; cbn [polarity_key observed_price].
  - rewrite Hfit in Hh. injection Hh as <-. reflexivity.
  - rewrite Hfit in Hl. injection Hl as <-. destruct ht; reflexivity.
Qed.

Lemma analyze_trend_score trend bar obs tol :
  alignment_score (analyze_trend trend bar obs tol)
  = alignment_score_of (r_squared (analyze_trend trend bar obs tol))
      (deviation_pct (analyze_trend trend bar obs tol)) tol.
Proof. destruct trend as [[s i] r]. reflexivity. Qed.

(** The third component of a fit is a square. *)
Lemma fit_r_squared pivots high lookback s i r2 :
  fit_pivot_trendline pivots high lookback = Ok (Some (s, i, r2)) ->
  exists r, r2 = fmul r r.
Proof.
  unfold fit_pivot_trendline.
  destruct (length _ <? 2)%nat; [discriminate|].
  destruct (Scipy.linregress _ _) as [[[s' i'] r]|]; [|discriminate].
  cbn [bind]. intro H. injection H as _ _ <-. exists r. reflexivity.
Qed.

Lemma fmul_square_nonneg (r : float) (q : Q) : fmul r r = Fin q -> (0 <= q)%Q.
Proof.
  destruct r as [a| | |]; simpl; try discriminate.
  intro H. injection H as <-. nra.
Qed.

(** The score on finite arguments with a positive tolerance. *)
Lemma alignment_score_finite (r2 d t : Q) :
  (0 < t)%Q ->
  exists s,
    alignment_score_of (Fin r2) (Fin d) (Fin t) = Fin s
    /\ (s == r2 * Qmax 0 (1 - d / t))%Q.
Proof.
  intro Ht. unfold alignment_score_of, fsub, fdiv, fneg.
  assert (E : Qeq_bool t 0 = false) by (apply Qeq_bool_false; lra).
  rewrite E. cbn [fadd]. unfold pymax, fltb.
  destruct (Qlt_bool 0 (1 + - (d / t))) eqn:Hlt; qbool;
    cbn [fmul]; eexists; (split; [reflexivity|]).
  - rewrite Q.max_r; [reflexivity|]. unfold Qminus. lra.
  - rewrite Q.max_l; [reflexivity|]. unfold Qminus. lra.
Qed.

Lemma div_le_div (d1 d2 t : Q) : (0 < t -> d1 <= d2 -> d1 / t <= d2 / t)%Q.
Proof.
  intros Ht H. apply Qle_shift_div_l; [exact Ht|].
  assert (E : (d1 / t * t == d1)%Q) by (field; lra). lra.
Qed.

Lemma Qmax_zero_range (v : Q) : (0 <= Qmax 0 v /\ (v <= 1 -> Qmax 0 v <= 1))%Q.
Proof.
  split.
  - apply Q.le_max_l.
  - intro H. apply Q.max_lub; lra.
Qed.

(** C4, as stated, fails: with the projected price negative the deviation
    percentage is negative and the score exceeds r squared (here r squared
    is 1, the deviation -120 and the score 241). *)
Lemma C4_score_above_r_squared :
  exists res e,
    trajectory_alignment_analysis descending_highs 60 (F 1) (F 1) (Fin 0.5) = Ok res
    /\ dict_get "swing_high" res = Some e
    /\ feq (r_squared e) (Fin 1)
    /\ feq (projected_price e) (Fin (-5))
    /\ feq (deviation_pct e) (Fin (-120))
    /\ feq (alignment_score e) (Fin 241)
    /\ fleb (alignment_score e) (r_squared e) = false.
Proof.
  eexists. eexists. split; [vm_compute; reflexivity|].
  split; [reflexivity|].
  repeat split; vm_compute; reflexivity.
Qed.

(** C4 (amended): every trajectory entry has alignment_score = r_squared *
    max(0, 1 - deviation_pct / tolerance_pct); with a positive tolerance the
    score is zero once the deviation reaches the tolerance and lies in
    [0, r_squared] whenever the deviation is not negative; for a fixed
    r_squared >= 0 and a positive tolerance it is non-increasing in the
    deviation. *)
Theorem C4_alignment_score :
  (forall pivots bar h l tol res key e,
      trajectory_alignment_analysis pivots bar h l tol = Ok res ->
      dict_get key res = Some e ->
      alignment_score e = alignment_score_of (r_squared e) (deviation_pct e) tol
      /\ forall r2 d t,
           r_squared e = Fin r2 -> deviation_pct e = Fin d -> tol = Fin t ->
           (0 < t)%Q ->
           exists s,
             alignment_score e = Fin s
             /\ (s == r2 * Qmax 0 (1 - d / t))%Q
             /\ ((t <= d)%Q -> (s == 0)%Q)
             /\ ((0 <= d)%Q -> (0 <= s <= r2)%Q))
  /\ (forall r2 d1 d2 t,
      (0 <= r2)%Q -> (0 < t)%Q -> (d1 <= d2)%Q ->
      exists s1 s2,
        alignment_score_of (Fin r2) (Fin d1) (Fin t) = Fin s1
        /\ alignment_score_of (Fin r2) (Fin d2) (Fin t) = Fin s2
        /\ (s2 <= s1)%Q).
Proof.
  split.
  - intros pivots bar h l tol res key e Hres Hget.
    destruct (trajectory_entry _ _ _ _ _ _ _ _ Hres Hget)
      as [high [[[s i] r2f] [_ [Hfit ->]]]].
    split; [apply analyze_trend_score|].
    intros r2 d t Hr2 Hd -> Ht.
    rewrite analyze_trend_score, Hr2, Hd.
    destruct (alignment_score_finite r2 d t Ht) as [sc [Hsc Heq]].
    exists sc. split; [exact Hsc|]. split; [exact Heq|].
    cbn [r_squared analyze_trend] in Hr2.
    destruct (fit_r_squared _ _ _ _ _ _ Hfit) as [r Hr]. rewrite Hr in Hr2.
    pose proof (fmul_square_nonneg _ _ Hr2) as Hnn.
    split.
    + intro Hle. rewrite Heq.
      assert (Hdt : (1 <= d / t)%Q).
      { apply Qle_shift_div_l; [exact Ht|]. lra. }
      rewrite Q.max_l; [ring|]. lra.
    + intro Hd0.
      assert (Hdt : (0 <= d / t)%Q).
      { apply Qle_shift_div_l; [exact Ht|]. lra. }
      destruct (Qmax_zero_range (1 - d / t)) as [Hm0 Hm1].
      assert (Hm : (Qmax 0 (1 - d / t) <= 1)%Q) by (apply Hm1; lra).
      rewrite Heq. split; nra.
  - intros r2 d1 d2 t Hr2 Ht Hd.
    destruct (alignment_score_finite r2 d1 t Ht) as [s1 [Hs1 He1]].
    destruct (alignment_score_finite r2 d2 t Ht) as [s2 [Hs2 He2]].
    exists s1, s2. split; [exact Hs1|]. split; [exact Hs2|].
    rewrite He1, He2.
    pose proof (div_le_div d1 d2 t Ht Hd) as Hdiv.
    assert (Hmax : (Qmax 0 (1 - d2 / t) <= Qmax 0 (1 - d1 / t))%Q).
    { apply Q.max_le_compat_l. lra. }
    nra.
Qed.

Lemma C4_alignment_score_witness :
  (exists res e r2 d,
      trajectory_alignment_analysis descending_highs 11 (Fin 4.81) (F 1) (Fin 0.5)
        = Ok res
      /\ dict_get "swing_high" res = Some e
      /\ r_squared e = Fin r2 /\ deviation_pct e = Fin d
      /\ exists s,
           alignment_score e = Fin s
           /\ (s == r2 * Qmax 0 (1 - d / 0.5))%Q
           /\ ((0.5 <= d)%Q -> (s == 0)%Q)
           /\ ((0 <= d)%Q -> (0 <= s <= r2)%Q))
  /\ exists s1 s2,
       alignment_score_of (Fin 1) (Fin 0.1) (Fin 0.5) = Fin s1
       /\ alignment_score_of (Fin 1) (Fin 0.2) (Fin 0.5) = Fin s2
       /\ (s2 <= s1)%Q.
Proof.
  split.
  - do 4 eexists.
    split; [vm_compute; reflexivity|].
    split; [reflexivity|].
    split; [vm_compute; reflexivity|].
    split; [vm_compute; reflexivity|].
    refine (proj2 (proj1 C4_alignment_score descending_highs 11 (Fin 4.81) (F 1)
                     (Fin 0.5) _ "swing_high" _ _ _) _ _ 0.5%Q _ _ eq_refl _).
    + vm_compute; reflexivity.
    + reflexivity.
    + vm_compute; reflexivity.
    + vm_compute; reflexivity.
    + reflexivity.
  - apply (proj2 C4_alignment_score 1%Q 0.1%Q 0.2%Q 0.5%Q); [lra|lra|lra].
Defined.

(** C5, as stated, fails: on bar 35 the line through [descending_highs]
    projects exactly 0, and the swing-high entry is still in the returned
    dict, with an infinite deviation percentage. *)
Lemma C5_zero_projection_not_omitted :
  exists res e,
    trajectory_alignment_analysis descending_highs 35 (F 1) (F 1) (Fin 0.5) = Ok res
    /\ dict_get "swing_high" res = Some e
    /\ feq (projected_price e) (Fin 0)
    /\ deviation_pct e = PInf
    /\ dict_get "swing_high" res <> None.
Proof.
  eexists. eexists. split; [vm_compute; reflexivity|].
  split; [reflexivity|].
  repeat split; try (vm_compute; reflexivity). discriminate.
Qed.

Lemma deviation_at_zero (obs : float) (p : Q) :
  (p == 0)%Q ->
  let d := fmul (fdiv (fabs (fsub obs (Fin p))) (Fin p)) (Fin 100) in
  d = PInf \/ d = NaN.
Proof.
  intros Hp d. subst d.
  assert (E : Qeq_bool p 0 = true) by (apply Qeq_bool_iff; exact Hp).
  assert (L : Qlt_bool p 0 = false) by (apply Qlt_bool_false; lra).
  destruct obs as [o| | |]; cbn [fsub fneg fadd fabs fdiv]; rewrite ?E, ?L.
  - destruct (Qeq_bool (Qabs (o + - p)) 0) eqn:E0; [right; reflexivity|].
    replace (Qlt_bool 0 (Qabs (o + - p))) with true; [left; reflexivity|].
    symmetry. apply Qlt_bool_iff. qbool.
    pose proof (Qabs_nonneg (o + - p)) as Hn.
    apply Qle_lteq in Hn. destruct Hn as [Hn | Hn]; [exact Hn|].
    exfalso. apply E0. symmetry. exact Hn.
  - left. reflexivity.
  - left. reflexivity.
  - right. reflexivity.
Qed.

Lemma score_at_bad_deviation (r2 t : Q) (d : float) :
  (0 < t)%Q -> d = PInf \/ d = NaN ->
  fleb d (Fin t) = false
  /\ feq (alignment_score_of (Fin r2) d (Fin t)) (Fin 0).
Proof.
  intros Ht Hd.
  assert (L : Qlt_bool t 0 = false) by (apply Qlt_bool_false; lra).
  unfold alignment_score_of.
  destruct Hd as [-> | ->]; cbn [fleb fdiv]; rewrite ?L;
    cbn [fsub fneg fadd pymax fltb fmul feq]; (split; [reflexivity|ring]).
Qed.

(** C5 (amended): the entry of a polarity is in the returned dict whenever
    the fit of that polarity returned a tuple, also when the projected price
    is exactly 0.  There the deviation percentage is Inf or NaN, while, for
    a positive tolerance, [aligned] is false and, for a finite r squared,
    the alignment score is 0. *)
Theorem C5_zero_projection :
  forall pivots bar h l tol res high trend,
    trajectory_alignment_analysis pivots bar h l tol = Ok res ->
    fit_pivot_trendline pivots high 5 = Ok (Some trend) ->
    exists e,
      dict_get (polarity_key high) res = Some e
      /\ e = analyze_trend trend bar (observed_price high h l) tol
      /\ (feq (projected_price e) (Fin 0) ->
          (deviation_pct e = PInf \/ deviation_pct e = NaN)
          /\ forall t, tol = Fin t -> (0 < t)%Q ->
               aligned e = false
               /\ forall r2, r_squared e = Fin r2 ->
                    feq (alignment_score e) (Fin 0)).
Proof.
  intros pivots bar h l tol res high trend Hres Hfit.
  eexists. split; [eapply trajectory_present; eassumption|].
  split; [reflexivity|].
  destruct trend as [[s i] r2f]. cbn [analyze_trend projected_price deviation_pct
    aligned r_squared alignment_score].
  intro Hp.
  destruct (fadd (fmul s (of_int bar)) i) as [p| | |] eqn:Eproj;
    cbn [feq] in Hp; try contradiction.
  pose proof (deviation_at_zero (observed_price high h l) p Hp) as Hd.
  cbv zeta in Hd. split; [exact Hd|].
  intros t -> Ht. split.
  - apply (score_at_bad_deviation 0 t _ Ht Hd).
  - intros r2 ->. apply (score_at_bad_deviation r2 t _ Ht Hd).
Qed.

Lemma C5_zero_projection_witness :
  exists res trend e,
    trajectory_alignment_analysis descending_highs 35 (F 1) (F 1) (Fin 0.5) = Ok res
    /\ fit_pivot_trendline descending_highs true 5 = Ok (Some trend)
    /\ dict_get "swing_high" res = Some e
    /\ e = analyze_trend trend 35 (F 1) (Fin 0.5)
    /\ (deviation_pct e = PInf \/ deviation_pct e = NaN)
    /\ aligned e = false.
Proof.
  do 2 eexists.
  assert (Hres : trajectory_alignment_analysis descending_highs 35 (F 1) (F 1) (Fin 0.5)
                 = Ok ?[r]) by (vm_compute; reflexivity).
  assert (Hfit : fit_pivot_trendline descending_highs true 5 = Ok (Some ?[t]))
    by (vm_compute; reflexivity).
  destruct (C5_zero_projection _ _ _ _ _ _ true _ Hres Hfit) as [e [Hget [He Hzero]]].
  exists e. split; [exact Hres|]. split; [exact Hfit|]. split; [exact Hget|].
  split; [exact He|].
  assert (Hp : feq (projected_price e) (Fin 0)) by (rewrite He; vm_compute; reflexivity).
  destruct (Hzero Hp) as [Hd Ha]. split; [exact Hd|].
  apply (Ha 0.5%Q eq_refl). reflexivity.
Defined.

(* ================================================================= *)
(** ** The square root is exact on squares *)

Lemma square_divide (b m : Z) : 0 < b -> (b * b | m * m) -> (b | m).
Proof.
  intros Hb Hdiv.
  set (g := Z.gcd b m).
  assert (Hg : 0 < g).
  { pose proof (Z.gcd_nonneg b m) as H0.
    assert (g <> 0) by (unfold g; intro E; apply Z.gcd_eq_0_l in E; lia).
    unfold g in *. lia. }
  destruct (Z.gcd_divide_l b m) as [b' Hb'].
  destruct (Z.gcd_divide_r b m) as [m' Hm'].
  fold g in Hb', Hm'.
  assert (Hcop : Z.gcd b' m' = 1).
  { pose proof (Z.gcd_mul_mono_r_nonneg b' m' g ltac:(lia)) as H.
    rewrite <- Hb', <- Hm' in H. fold g in H. nia. }
  assert (Hb'pos : 0 < b') by nia.
  assert (Hdiv' : (b' * b' | m' * m')).
  { apply (Z.mul_divide_cancel_l _ _ (g * g)); [nia|].
    replace (g * g * (b' * b')) with (b * b) by (rewrite Hb'; ring).
    replace (g * g * (m' * m')) with (m * m) by (rewrite Hm'; ring).
    exact Hdiv. }
  assert (Hb'm' : (b' | m')).
  { apply (Z.gauss b' m' m'); [|exact Hcop].
    apply Z.divide_trans with (b' * b'); [|exact Hdiv'].
    exists b'. reflexivity. }
  apply Z.divide_gcd_iff in Hb'm'; [|lia].
  assert (b' = 1) by lia. subst b'.
  exists m'. rewrite Hm', Hb'. ring.
Qed.

Lemma sqrt_rational_square (N m b : Z) :
  0 < b -> N * (b * b) = m * m -> Z.sqrt N * b = Z.abs m.
Proof.
  intros Hb H.
  assert (Hdiv : (b | m)).
  { apply square_divide; [exact Hb|]. exists N. symmetry. exact H. }
  destruct Hdiv as [k ->].
  assert (HN : N = Z.abs k * Z.abs k).
  { rewrite Z.abs_square. nia. }
  rewrite HN, Z.sqrt_square by apply Z.abs_nonneg.
  rewrite Z.abs_mul, (Z.abs_eq b) by lia. reflexivity.
Qed.

Lemma Qsqrt_square (q c : Q) : (q == c * c)%Q -> (Qsqrt q == Qabs c)%Q.
Proof.
  intro H. rewrite <- (Qred_correct q) in H. unfold Qsqrt.
  destruct (Qred q) as [n d]. destruct c as [a b].
  unfold Qeq in *. cbn [Qnum Qden Qabs Qmult] in *.
  rewrite Pos2Z.inj_mul in *.
  set (S := Zpos sqrt_scale) in *.
  assert (HS : 0 < S) by (unfold S; lia).
  assert (Hs : Z.sqrt (n * Zpos d * (S * S)) * Zpos b = Z.abs (a * (Zpos d * S))).
  { apply sqrt_rational_square; [lia|].
    transitivity (n * (Zpos b * Zpos b) * (Zpos d * (S * S))); [ring|].
    rewrite H. ring. }
  rewrite Hs, Z.abs_mul. f_equal; apply Z.abs_eq; nia.
Qed.

Lemma Qsqrt_zero (q : Q) : (q == 0)%Q -> (Qsqrt q == 0)%Q.
Proof.
  intro H. rewrite (Qsqrt_square q 0); [reflexivity|]. rewrite H. ring.
Qed.

(* ================================================================= *)
(** ** The trend fit through two pivots *)

Lemma mean_pair (a b : Q) :
  Np.mean [Fin a; Fin b] = Fin ((0 + a + b) / inject_Z 2)%Q.
Proof. reflexivity. Qed.

Lemma cov1_pair (a b c d : Q) :
  Scipy.cov1 [Fin a; Fin b] [Fin c; Fin d]
  = Fin ((0 + (a + - ((0 + a + b) / inject_Z 2)) * (c + - ((0 + c + d) / inject_Z 2))
           + (b + - ((0 + a + b) / inject_Z 2)) * (d + - ((0 + c + d) / inject_Z 2)))
         / inject_Z 2)%Q.
Proof. reflexivity. Qed.

Lemma Qsquare_zero (a : Q) : (a * a == 0 -> a == 0)%Q.
Proof.
  intro H. destruct (Qmult_integral _ _ H); assumption.
Qed.

Lemma Qabs_square (c : Q) : (Qabs c * Qabs c == c * c)%Q.
Proof.
  rewrite <- Qabs_Qmult. apply Qabs_pos. nra.
Qed.

(** The regression through two points, in the exact arithmetic of the
    model: the slope is the slope of the line through them, and the
    correlation is 1 or -1 unless the two ordinates are equal, where it is
    NaN.  In binary64 the first two facts hold up to rounding only. *)
Lemma linregress_two_points (x0 x1 : Z) (y0 y1 : Q) :
  x0 <> x1 ->
  exists s i r,
    Scipy.linregress [x0; x1] [Fin y0; Fin y1] = Ok (Fin s, Fin i, r)
    /\ (s == (y1 - y0) / (inject_Z x1 - inject_Z x0))%Q
    /\ (~ (y0 == y1)%Q -> exists q, r = Fin q /\ (q * q == 1)%Q)
    /\ ((y0 == y1)%Q -> (i == y0)%Q /\ r = NaN).
Proof.
  intro Hx. unfold Scipy.linregress.
  assert (Hall : Scipy.all_equal [x0; x1] = false).
  { cbn. rewrite andb_true_r. apply Z.eqb_neq. exact Hx. }
  rewrite Hall. cbn [andb map]. unfold of_int.
  rewrite !cov1_pair, !mean_pair.
  set (a := inject_Z x0). set (b := inject_Z x1).
  assert (Hab : ~ (b - a == 0)%Q).
  { intro E. apply Hx. apply inject_Z_injective. fold a b. lra. }
  match goal with
  | |- context [feqb (Fin ?vx) (Fin 0) || feqb (Fin ?vy) (Fin 0)] =>
      set (X := vx); set (Y := vy)
  end.
  match goal with
  | |- context [fdiv (Fin ?vc) (Fin X)] => set (C := vc)
  end.
  assert (HX : (4 * X == (b - a) * (b - a))%Q)
    by (unfold X; change (inject_Z 2) with 2%Q; field).
  assert (HY : (4 * Y == (y1 - y0) * (y1 - y0))%Q)
    by (unfold Y; change (inject_Z 2) with 2%Q; field).
  assert (HC : (4 * C == (b - a) * (y1 - y0))%Q)
    by (unfold C; change (inject_Z 2) with 2%Q; field).
  assert (HX0 : ~ (X == 0)%Q).
  { intro E. apply Hab. apply Qsquare_zero. rewrite <- HX, E. ring. }
  assert (EX : Qeq_bool X 0 = false) by (apply Qeq_bool_false; exact HX0).
  assert (Hs : (C / X == (y1 - y0) / (b - a))%Q).
  { assert (E1 : (C == (b - a) * (y1 - y0) / 4)%Q) by (rewrite <- HC; field).
    assert (E2 : (X == (b - a) * (b - a) / 4)%Q) by (rewrite <- HX; field).
    rewrite E1, E2. field. exact Hab. }
  cbn [feqb fdiv fmul fsub fneg fadd]. rewrite EX. cbn [orb].
  destruct (Qeq_bool Y 0) eqn:EY; qbool.
  - (* equal prices: both the variance of y and the covariance vanish *)
    assert (Hy : (y1 - y0 == 0)%Q).
    { apply Qsquare_zero. rewrite <- HY, EY. ring. }
    assert (HC0 : (C == 0)%Q).
    { assert (E4 : (4 * C == 0)%Q) by (rewrite HC, Hy; ring). lra. }
    assert (EC : Qeq_bool C 0 = true) by (apply Qeq_bool_iff; exact HC0).
    rewrite EC.
    do 3 eexists. split; [reflexivity|]. split; [exact Hs|].
    split.
    + intro Hne. exfalso. apply Hne. lra.
    + intros _. split; [|reflexivity].
      assert (E0 : (C / X == 0)%Q) by (rewrite HC0; field; exact HX0).
      assert (Ey : (y1 == y0)%Q) by lra.
      rewrite E0, Ey. change (inject_Z 2) with 2%Q. field.
  - assert (Hy : ~ (y1 - y0 == 0)%Q).
    { intro E. apply EY.
      assert (E4 : (4 * Y == 0)%Q) by (rewrite HY, E; ring). lra. }
    assert (HC0 : ~ (C == 0)%Q).
    { intro E. destruct (Qmult_integral (b - a) (y1 - y0)) as [H | H];
        [rewrite <- HC, E; ring | exact (Hab H) | exact (Hy H)]. }
    assert (HXY : (X * Y == C * C)%Q).
    { assert (E16 : (16 * (X * Y) == 16 * (C * C))%Q).
      { transitivity ((4 * X) * (4 * Y))%Q; [ring|].
        transitivity ((4 * C) * (4 * C))%Q; [|ring].
        rewrite HX, HY, HC. ring. }
      lra. }
    pose proof (Qsqrt_square _ _ HXY) as Hsq.
    assert (Hneg : Qlt_bool (X * Y) 0 = false).
    { apply Qlt_bool_false. rewrite HXY. nra. }
    cbn [fsqrt]. rewrite Hneg.
    set (sq := Qsqrt (X * Y)) in *.
    assert (Hsq2 : (sq * sq == C * C)%Q) by (rewrite Hsq; apply Qabs_square).
    assert (Hsq0 : ~ (sq == 0)%Q).
    { intro E. apply HC0. apply Qsquare_zero. rewrite <- Hsq2, E. ring. }
    assert (Esq : Qeq_bool sq 0 = false) by (apply Qeq_bool_false; exact Hsq0).
    rewrite Esq.
    assert (Hr : (C / sq * (C / sq) == 1)%Q).
    { assert (E : (C / sq * (C / sq) == C * C / (sq * sq))%Q) by (field; exact Hsq0).
      rewrite E, Hsq2. field. exact HC0. }
    assert (Hy01 : ~ (y0 == y1)%Q) by (intro E; apply Hy; lra).
    destruct (fltb (Fin 1) (Fin (C / sq))); [|destruct (fltb (Fin (C / sq)) (Fin (-1)))];
      do 3 eexists; (split; [reflexivity|]); (split; [exact Hs|]);
      (split; [intros _; eexists; split; [reflexivity|]|intro E; contradiction]);
      first [exact Hr | reflexivity].
Qed.

Lemma slice_keeps_pair {A : Type} (lookback : Z) (a b : A) :
  2 <= lookback -> slice_from (- lookback) [a; b] = [a; b].
Proof.
  intro H. unfold slice_from. cbn [length].
  replace (- lookback <? 0) with true by (symmetry; apply Z.ltb_lt; lia).
  replace (Z.max 0 (Z.of_nat 2 + - lookback)) with 0 by lia. reflexivity.
Qed.

(** C9, as stated, fails: two pivots with the same price at distinct
    positions lie on a line, yet the r squared of the fit is NaN, not 1.0:
    the variance of the prices is zero and the correlation is undefined. *)
Lemma C9_level_pair_r_squared_nan :
  (exists s i,
      fit_pivot_trendline level_lows false 5 = Ok (Some (Fin s, Fin i, NaN))
      /\ (s == 0)%Q /\ (i == 100)%Q)
  /\ ~ (exists s i r2,
          fit_pivot_trendline level_lows false 5 = Ok (Some (s, i, Fin r2))
          /\ (r2 == 1)%Q).
Proof.
  assert (H : fit_pivot_trendline level_lows false 5 = Ok (Some (?[s], ?[i], NaN)))
    by (vm_compute; reflexivity).
  split.
  - do 2 eexists. split; [exact H|]. split; reflexivity.
  - intros [s [i [r2 [Hfit _]]]]. rewrite H in Hfit. discriminate Hfit.
Qed.

(** C9 (amended): for two pivots of one polarity at distinct positions the
    fit returns a triple, never None and never an error.  The slope has the
    sign of the price change per bar between the two pivots.  When the two
    prices differ, r squared is a number between 0 and 1; when they are
    equal, the slope is 0, the intercept is the common price and r squared
    is NaN.  The statement keeps to what does not depend on the rounding of
    the regression. *)
Theorem C9_two_point_fit :
  forall (pivots : list PivotPoint) (high : bool) (lookback : Z)
         (p0 p1 : PivotPoint) (y0 y1 : Q),
    filter (fun p => Bool.eqb (is_high p) high) pivots = [p0; p1] ->
    2 <= lookback ->
    index p0 <> index p1 ->
    price p0 = Fin y0 -> price p1 = Fin y1 ->
    exists s i r2,
      fit_pivot_trendline pivots high lookback = Ok (Some (Fin s, Fin i, r2))
      /\ (0 < (y1 - y0) * (inject_Z (index p1) - inject_Z (index p0)) -> 0 < s)%Q
      /\ ((y1 - y0) * (inject_Z (index p1) - inject_Z (index p0)) < 0 -> s < 0)%Q
      /\ (~ (y0 == y1)%Q -> exists q, r2 = Fin q /\ (0 <= q <= 1)%Q)
      /\ ((y0 == y1)%Q -> (s == 0)%Q /\ (i == y0)%Q /\ r2 = NaN).
Proof.
  intros pivots high lookback p0 p1 y0 y1 Hfilter Hlook Hidx Hy0 Hy1.
  unfold fit_pivot_trendline. rewrite Hfilter, (slice_keeps_pair _ _ _ Hlook).
  cbn [length Nat.ltb Nat.leb map]. rewrite Hy0, Hy1.
  destruct (linregress_two_points (index p0) (index p1) y0 y1 Hidx)
    as [s [i [r [Hlin [Hs [Hne Heq]]]]]].
  rewrite Hlin. cbn [bind].
  set (d := (inject_Z (index p1) - inject_Z (index p0))%Q) in *.
  assert (Hd : ~ (d == 0)%Q).
  { intro E. apply Hidx. apply inject_Z_injective. unfold d in E. lra. }
  assert (Hdd : (0 < d * d)%Q) by nra.
  assert (Hsd : (s == (y1 - y0) * d / (d * d))%Q) by (rewrite Hs; field; exact Hd).
  exists s, i, (fmul r r). split; [reflexivity|].
  split; [|split; [|split]].
  - intro Hpos. rewrite Hsd. apply Qlt_shift_div_l; [exact Hdd|]. lra.
  - intro Hneg. rewrite Hsd. apply Qlt_shift_div_r; [exact Hdd|]. lra.
  - intro Hdiff. destruct (Hne Hdiff) as [q [-> Hq]].
    exists (q * q)%Q. split; [reflexivity|]. lra.
  - intro E. destruct (Heq E) as [Hi ->]. split; [|split; [exact Hi|reflexivity]].
    rewrite Hs, E. field. exact Hd.
Qed.

Lemma C9_two_point_fit_witness :
  exists s i q,
    fit_pivot_trendline example_pivots false 5 = Ok (Some (Fin s, Fin i, Fin q))
    /\ (0 < s)%Q /\ (0 <= q <= 1)%Q.
Proof.
  destruct (C9_two_point_fit example_pivots false 5
              {| index := 20; price := F 100; is_high := false |}
              {| index := 40; price := F 102; is_high := false |}
              100%Q 102%Q eq_refl ltac:(lia) ltac:(discriminate) eq_refl eq_refl)
    as [s [i [r2 [Hfit [Hup [_ [Hne _]]]]]]].
  destruct Hne as [q [-> Hq]]; [intro E; discriminate E|].
  exists s, i, q. split; [exact Hfit|]. split; [|exact Hq].
  apply Hup. reflexivity.
Defined.

(* ================================================================= *)
(** ** The distance condition of find_peaks *)

Lemma list_set_length {A : Type} (k : nat) (v : A) (l : list A) :
  length (list_set k v l) = length l.
Proof.
  revert k. induction l as [|h t IH]; intros [|k]; simpl; auto.
Qed.

Lemma nth_list_set_same {A : Type} (k : nat) (v dflt : A) (l : list A) :
  (k < length l)%nat -> nth k (list_set k v l) dflt = v.
Proof.
  revert k. induction l as [|h t IH]; intros [|k] H; simpl in *; try lia; auto.
  apply IH. lia.
Qed.

Lemma nth_list_set_other {A : Type} (i k : nat) (v dflt : A) (l : list A) :
  i <> k -> nth i (list_set k v l) dflt = nth i l dflt.
Proof.
  revert i k. induction l as [|h t IH]; intros [|i] [|k] H; simpl; auto; try lia.
Qed.

Lemma cleared_only_refl keep : cleared_only keep keep.
Proof. intros k H. exact H. Qed.

Lemma cleared_only_trans k1 k2 k3 :
  cleared_only k1 k2 -> cleared_only k2 k3 -> cleared_only k1 k3.
Proof. intros H1 H2 k H. apply H2, H1, H. Qed.

Lemma cleared_only_set (k : nat) (keep : list bool) :
  cleared_only (list_set k false keep) keep.
Proof.
  intros i H. destruct (Nat.eq_dec i k) as [->|Hne].
  - destruct (Nat.lt_ge_cases k (length keep)) as [Hlt|Hge].
    + rewrite nth_list_set_same in H by exact Hlt. discriminate.
    + rewrite nth_overflow in H by (rewrite list_set_length; exact Hge).
      discriminate.
  - rewrite nth_list_set_other in H by exact Hne. exact H.
Qed.

Lemma settled_cleared peaks d keep keep' j :
  settled peaks d keep j -> cleared_only keep' keep -> settled peaks d keep' j.
Proof.
  intros Hs Hc Hj k Hk Hne Hclose.
  destruct (nth k keep' false) eqn:E; [|reflexivity].
  apply Hc in E. rewrite (Hs (Hc _ Hj) k Hk Hne Hclose) in E. discriminate.
Qed.

Section DistanceSelection.

Variable peaks : list Z.
Variable d : Z.

(** The peak positions ascend. *)
Hypothesis peaks_ascend :
  forall i j, (i <= j < length peaks)%nat -> nth i peaks 0 <= nth j peaks 0.

Lemma flag_earlier_length pj k1 keep :
  length (Scipy.flag_earlier peaks pj d k1 keep) = length keep.
Proof.
  revert keep. induction k1 as [|k IH]; intro keep; simpl; [reflexivity|].
  destruct (pj - nth k peaks 0 <? d); [|reflexivity].
  rewrite IH. apply list_set_length.
Qed.

Lemma flag_earlier_above pj k1 keep i :
  (k1 <= i)%nat ->
  nth i (Scipy.flag_earlier peaks pj d k1 keep) false = nth i keep false.
Proof.
  revert keep. induction k1 as [|k IH]; intros keep Hi; simpl; [reflexivity|].
  destruct (pj - nth k peaks 0 <? d); [|reflexivity].
  rewrite IH by lia. apply nth_list_set_other. lia.
Qed.

Lemma flag_earlier_cleared pj k1 keep :
  cleared_only (Scipy.flag_earlier peaks pj d k1 keep) keep.
Proof.
  revert keep. induction k1 as [|k IH]; intro keep; simpl.
  - apply cleared_only_refl.
  - destruct (pj - nth k peaks 0 <? d); [|apply cleared_only_refl].
    eapply cleared_only_trans; [apply IH|apply cleared_only_set].
Qed.

Lemma flag_earlier_flags pj k1 keep k :
  length keep = length peaks -> (k1 <= length peaks)%nat -> (k < k1)%nat ->
  pj - nth k peaks 0 < d ->
  nth k (Scipy.flag_earlier peaks pj d k1 keep) false = false.
Proof.
  revert keep. induction k1 as [|k0 IH]; intros keep Hlen Hk1 Hk Hclose; [lia|].
  simpl. destruct (pj - nth k0 peaks 0 <? d) eqn:E.
  - destruct (Nat.eq_dec k k0) as [->|Hne].
    + rewrite flag_earlier_above by lia. apply nth_list_set_same. lia.
    + apply IH; [rewrite list_set_length; exact Hlen|lia|lia|exact Hclose].
  - apply Z.ltb_ge in E.
    pose proof (peaks_ascend k k0 ltac:(lia)). lia.
Qed.

Lemma flag_later_length pj k fuel keep :
  length (Scipy.flag_later peaks pj d k fuel keep) = length keep.
Proof.
  revert k keep. induction fuel as [|f IH]; intros k keep; simpl; [reflexivity|].
  destruct ((k <? length peaks)%nat && (nth k peaks 0 - pj <? d)); [|reflexivity].
  rewrite IH. apply list_set_length.
Qed.

Lemma flag_later_below pj k fuel keep i :
  (i < k)%nat ->
  nth i (Scipy.flag_later peaks pj d k fuel keep) false = nth i keep false.
Proof.
  revert k keep. induction fuel as [|f IH]; intros k keep Hi; simpl; [reflexivity|].
  destruct ((k <? length peaks)%nat && (nth k peaks 0 - pj <? d)); [|reflexivity].
  rewrite IH by lia. apply nth_list_set_other. lia.
Qed.

Lemma flag_later_cleared pj k fuel keep :
  cleared_only (Scipy.flag_later peaks pj d k fuel keep) keep.
Proof.
  revert k keep. induction fuel as [|f IH]; intros k keep; simpl.
  - apply cleared_only_refl.
  - destruct ((k <? length peaks)%nat && (nth k peaks 0 - pj <? d));
      [|apply cleared_only_refl].
    eapply cleared_only_trans; [apply IH|apply cleared_only_set].
Qed.

Lemma flag_later_flags pj k fuel keep k' :
  length keep = length peaks -> (length peaks - k <= fuel)%nat ->
  (k <= k' < length peaks)%nat ->
  nth k' peaks 0 - pj < d ->
  nth k' (Scipy.flag_later peaks pj d k fuel keep) false = false.
Proof.
  revert k keep. induction fuel as [|f IH]; intros k keep Hlen Hfuel Hk Hclose; [lia|].
  simpl.
  assert (E1 : (k <? length peaks)%nat = true) by (apply Nat.ltb_lt; lia).
  assert (E2 : (nth k peaks 0 - pj <? d) = true).
  { apply Z.ltb_lt. pose proof (peaks_ascend k k' ltac:(lia)). lia. }
  rewrite E1, E2. cbn [andb].
  destruct (Nat.eq_dec k' k) as [->|Hne].
  - rewrite flag_later_below by lia. apply nth_list_set_same. lia.
  - apply IH; [rewrite list_set_length; exact Hlen|lia|lia|exact Hclose].
Qed.

(** More fuel than peaks left changes nothing. *)
Lemma flag_later_fuel pj k f1 f2 keep :
  (length peaks - k <= f1)%nat -> (length peaks - k <= f2)%nat ->
  Scipy.flag_later peaks pj d k f1 keep = Scipy.flag_later peaks pj d k f2 keep.
Proof.
  revert k f2 keep. induction f1 as [|f1 IH]; intros k f2 keep H1 H2.
  - destruct f2 as [|f2]; simpl; [reflexivity|].
    replace (k <? length peaks)%nat with false by (symmetry; apply Nat.ltb_ge; lia).
    reflexivity.
  - destruct f2 as [|f2]; simpl.
    + replace (k <? length peaks)%nat with false by (symmetry; apply Nat.ltb_ge; lia).
      reflexivity.
    + destruct (k <? length peaks)%nat eqn:E; cbn [andb]; [|reflexivity].
      apply Nat.ltb_lt in E.
      destruct (nth k peaks 0 - pj <? d); [|reflexivity].
      apply IH; lia.
Qed.

Lemma distance_step_length keep j :
  length (Scipy.distance_step peaks d keep j) = length keep.
Proof.
  unfold Scipy.distance_step. destruct (nth j keep false); [|reflexivity].
  rewrite flag_later_length. apply flag_earlier_length.
Qed.

Lemma distance_step_cleared keep j :
  cleared_only (Scipy.distance_step peaks d keep j) keep.
Proof.
  unfold Scipy.distance_step. destruct (nth j keep false); [|apply cleared_only_refl].
  eapply cleared_only_trans; [apply flag_later_cleared|apply flag_earlier_cleared].
Qed.

Lemma distance_step_settled keep j :
  length keep = length peaks -> (j < length peaks)%nat ->
  settled peaks d (Scipy.distance_step peaks d keep j) j.
Proof.
  intros Hlen Hj Hkept k Hk Hne Hclose.
  unfold Scipy.distance_step in *.
  destruct (nth j keep false) eqn:Ej; [|congruence].
  destruct (Nat.lt_ge_cases k j) as [Hlt|Hge].
  - apply not_true_is_false. intro Hk1.
    apply flag_later_cleared in Hk1.
    rewrite flag_earlier_flags in Hk1; [discriminate|exact Hlen|lia|exact Hlt|].
    pose proof (peaks_ascend k j ltac:(lia)). lia.
  - apply flag_later_flags.
    + rewrite flag_earlier_length. exact Hlen.
    + lia.
    + lia.
    + pose proof (peaks_ascend j k ltac:(lia)). lia.
Qed.

Lemma select_fold order keep :
  length keep = length peaks ->
  let r := fold_left (Scipy.distance_step peaks d) order keep in
  length r = length peaks
  /\ cleared_only r keep
  /\ forall j, In j order -> (j < length peaks)%nat -> settled peaks d r j.
Proof.
  revert keep. induction order as [|j0 rest IH]; intros keep Hlen; cbn [fold_left].
  - split; [exact Hlen|]. split; [apply cleared_only_refl|]. intros j [].
  - destruct (IH (Scipy.distance_step peaks d keep j0)) as [Hl [Hc Hs]].
    { rewrite distance_step_length. exact Hlen. }
    split; [exact Hl|]. split.
    + eapply cleared_only_trans; [exact Hc|apply distance_step_cleared].
    + intros j [<-|Hin] Hj.
      * apply (settled_cleared _ _ _ _ _
                 (distance_step_settled keep _ Hlen Hj) Hc).
      * apply Hs; assumption.
Qed.

(** Whatever the processing order, as long as it visits every peak: two
    kept peaks are at least [d] apart. *)
Lemma select_in_order_spaced order :
  (forall j, (j < length peaks)%nat -> In j order) ->
  let keep := Scipy.select_in_order peaks d order in
  length keep = length peaks
  /\ forall i j, (i < j < length peaks)%nat ->
       nth i keep false = true -> nth j keep false = true ->
       d <= nth j peaks 0 - nth i peaks 0.
Proof.
  intros Hall keep. subst keep. unfold Scipy.select_in_order.
  destruct (select_fold order (repeat true (length peaks))) as [Hl [_ Hs]].
  { apply repeat_length. }
  split; [exact Hl|].
  intros i j Hij Hi Hj.
  destruct (Z.lt_ge_cases (nth j peaks 0 - nth i peaks 0) d) as [Hlt|Hge]; [|exact Hge].
  exfalso.
  assert (Hset : settled peaks d
                   (fold_left (Scipy.distance_step peaks d) order
                      (repeat true (length peaks))) i).
  { apply Hs; [apply Hall|]; lia. }
  rewrite (Hset Hi j) in Hj; [discriminate|lia|lia|].
  pose proof (peaks_ascend i j ltac:(lia)). lia.
Qed.

End DistanceSelection.

(* ================================================================= *)
(** ** Local maxima, masks and orders *)

Lemma fltb_not_nan (a b : float) : fltb a b = true -> is_nan b = false.
Proof. destruct a, b; simpl; congruence. Qed.

Lemma feqb_not_nan (a b : float) : feqb a b = true -> is_nan a = false.
Proof. destruct a, b; simpl; congruence. Qed.

Lemma plateau_end_ge x xi k i_max fuel :
  (k <= Scipy.plateau_end x xi k i_max fuel)%nat.
Proof.
  revert k. induction fuel as [|f IH]; intro k; simpl; [lia|].
  destruct ((k <? i_max)%nat && feqb (nth k x NaN) xi); [|lia].
  specialize (IH (S k)). lia.
Qed.

Lemma plateau_end_le x xi k i_max fuel :
  (k <= i_max)%nat -> (Scipy.plateau_end x xi k i_max fuel <= i_max)%nat.
Proof.
  revert k. induction fuel as [|f IH]; intros k Hk; simpl; [lia|].
  destruct (k <? i_max)%nat eqn:E; cbn [andb]; [|lia].
  apply Nat.ltb_lt in E.
  destruct (feqb (nth k x NaN) xi); [|lia].
  apply IH. lia.
Qed.

Lemma plateau_end_equal x xi k i_max fuel j :
  (k <= j < Scipy.plateau_end x xi k i_max fuel)%nat ->
  feqb (nth j x NaN) xi = true.
Proof.
  revert k. induction fuel as [|f IH]; intros k Hj; simpl in Hj; [lia|].
  destruct (k <? i_max)%nat eqn:E; cbn [andb] in Hj; [|lia].
  destruct (feqb (nth k x NaN) xi) eqn:Eq; [|lia].
  destruct (Nat.eq_dec j k) as [->|Hne]; [exact Eq|].
  apply (IH (S k)). lia.
Qed.

(** More fuel than samples left changes nothing. *)
Lemma plateau_end_fuel x xi k i_max f1 f2 :
  (i_max - k <= f1)%nat -> (i_max - k <= f2)%nat ->
  Scipy.plateau_end x xi k i_max f1 = Scipy.plateau_end x xi k i_max f2.
Proof.
  revert k f2. induction f1 as [|f1 IH]; intros k f2 H1 H2.
  - destruct f2 as [|f2]; simpl; [reflexivity|].
    replace (k <? i_max)%nat with false by (symmetry; apply Nat.ltb_ge; lia).
    reflexivity.
  - destruct f2 as [|f2]; simpl.
    + replace (k <? i_max)%nat with false by (symmetry; apply Nat.ltb_ge; lia).
      reflexivity.
    + destruct (k <? i_max)%nat eqn:E; cbn [andb]; [|reflexivity].
      apply Nat.ltb_lt in E.
      destruct (feqb (nth k x NaN) xi); [|reflexivity].
      apply IH; lia.
Qed.

Lemma local_maxima_from_fuel x i_max f1 f2 i :
  (i_max - i <= f1)%nat -> (i_max - i <= f2)%nat ->
  Scipy.local_maxima_from x i i_max f1 = Scipy.local_maxima_from x i i_max f2.
Proof.
  revert i f2. induction f1 as [|f1 IH]; intros i f2 H1 H2.
  - destruct f2 as [|f2]; simpl; [reflexivity|].
    replace (i <? i_max)%nat with false by (symmetry; apply Nat.ltb_ge; lia).
    reflexivity.
  - destruct f2 as [|f2]; simpl.
    + replace (i <? i_max)%nat with false by (symmetry; apply Nat.ltb_ge; lia).
      reflexivity.
    + destruct (i <? i_max)%nat eqn:E; [|reflexivity].
      apply Nat.ltb_lt in E.
      pose proof (plateau_end_ge x (nth i x NaN) (i + 1) i_max i_max) as Hge.
      destruct (fltb (nth (i - 1) x NaN) (nth i x NaN)).
      * destruct (fltb _ (nth i x NaN)).
        -- f_equal. apply IH; lia.
        -- apply IH; lia.
      * apply IH; lia.
Qed.

Lemma right_min_fuel x xp i f1 f2 m :
  (length x - i <= f1)%nat -> (length x - i <= f2)%nat ->
  Scipy.right_min x xp i f1 m = Scipy.right_min x xp i f2 m.
Proof.
  revert i f2 m. induction f1 as [|f1 IH]; intros i f2 m H1 H2.
  - destruct f2 as [|f2]; simpl; [reflexivity|].
    replace (i <? length x)%nat with false by (symmetry; apply Nat.ltb_ge; lia).
    reflexivity.
  - destruct f2 as [|f2]; simpl.
    + replace (i <? length x)%nat with false by (symmetry; apply Nat.ltb_ge; lia).
      reflexivity.
    + destruct (i <? length x)%nat eqn:E; cbn [andb]; [|reflexivity].
      apply Nat.ltb_lt in E.
      destruct (fleb (nth i x NaN) xp); [|reflexivity].
      apply IH; lia.
Qed.

(** Every local maximum found from sample [i] on is an interior sample at
    or after [i] whose value is not NaN, and they are found in ascending
    order. *)
Lemma local_maxima_from_spec x i_max fuel i :
  (1 <= i)%nat ->
  Forall (fun m => (i <= m < i_max)%nat /\ is_nan (nth m x NaN) = false)
         (Scipy.local_maxima_from x i i_max fuel)
  /\ StronglySorted lt (Scipy.local_maxima_from x i i_max fuel).
Proof.
  revert i. induction fuel as [|f IH]; intros i Hi; cbn [Scipy.local_maxima_from].
  - split; constructor.
  - destruct (i <? i_max)%nat eqn:E; [|split; constructor].
    apply Nat.ltb_lt in E.
    assert (Hnext : Forall (fun m => (i <= m < i_max)%nat
                                     /\ is_nan (nth m x NaN) = false)
                      (Scipy.local_maxima_from x (i + 1) i_max f)
                    /\ StronglySorted lt (Scipy.local_maxima_from x (i + 1) i_max f)).
    { destruct (IH (i + 1)%nat ltac:(lia)) as [H1 H2]. split; [|exact H2].
      eapply Forall_impl; [|exact H1]. cbv beta. intros m [Hm Hn]. split; [lia|exact Hn]. }
    destruct (fltb (nth (i - 1) x NaN) (nth i x NaN)) eqn:Erise; [|exact Hnext].
    set (ia := Scipy.plateau_end x (nth i x NaN) (i + 1) i_max i_max) in *.
    destruct (fltb (nth ia x NaN) (nth i x NaN)) eqn:Efall; [|exact Hnext].
    pose proof (plateau_end_ge x (nth i x NaN) (i + 1) i_max i_max) as Hge.
    pose proof (plateau_end_le x (nth i x NaN) (i + 1) i_max i_max ltac:(lia)) as Hle.
    fold ia in Hge, Hle.
    destruct (IH (ia + 1)%nat ltac:(lia)) as [H1 H2].
    assert (Hmid : (i <= (i + (ia - 1)) / 2 <= ia - 1)%nat).
    { split.
      - apply Nat.div_le_lower_bound; lia.
      - apply Nat.Div0.div_le_upper_bound; lia. }
    split.
    + constructor.
      * split; [lia|].
        destruct (Nat.eq_dec ((i + (ia - 1)) / 2) i) as [->|Hne].
        -- apply (fltb_not_nan _ _ Erise).
        -- apply (feqb_not_nan _ (nth i x NaN)).
           apply (plateau_end_equal x _ (i + 1) i_max i_max). fold ia. lia.
      * eapply Forall_impl; [|exact H1]. cbv beta.
        intros m [Hm Hn]. split; [lia|exact Hn].
    + constructor; [exact H2|].
      eapply Forall_impl; [|exact H1]. cbv beta. intros m [Hm _]. lia.
Qed.

Lemma sorted_nth {A : Type} (R : A -> A -> Prop) (dflt : A) (l : list A) :
  StronglySorted R l ->
  forall i j, (i < j < length l)%nat -> R (nth i l dflt) (nth j l dflt).
Proof.
  induction 1 as [|a l Hs IH Hall]; intros i j Hij; simpl in *; [lia|].
  destruct j as [|j]; [lia|]. destruct i as [|i].
  - rewrite Forall_forall in Hall. apply Hall. apply nth_In. lia.
  - apply IH. lia.
Qed.

Lemma mask_select_In {A : Type} (dflt : A) (l : list A) (keep : list bool) (a : A) :
  In a (mask_select l keep) ->
  exists j, (j < length l)%nat /\ nth j keep false = true /\ nth j l dflt = a.
Proof.
  revert keep. induction l as [|h t IH]; intros [|b keep] Hin; simpl in *;
    try contradiction.
  destruct b.
  - destruct Hin as [<-|Hin].
    + exists 0%nat. repeat split. lia.
    + destruct (IH _ Hin) as [j [Hj [Hk Hv]]]. exists (S j). repeat split; auto. lia.
  - destruct (IH _ Hin) as [j [Hj [Hk Hv]]]. exists (S j). repeat split; auto. lia.
Qed.

Lemma mask_select_sorted {A : Type} (R : A -> A -> Prop) (dflt : A)
      (l : list A) (keep : list bool) :
  (forall i j, (i < j < length l)%nat ->
               nth i keep false = true -> nth j keep false = true ->
               R (nth i l dflt) (nth j l dflt)) ->
  StronglySorted R (mask_select l keep).
Proof.
  revert keep. induction l as [|h t IH]; intros [|b keep] H; simpl;
    try constructor.
  assert (Htail : StronglySorted R (mask_select t keep)).
  { apply IH. intros i j Hij Hi Hj. apply (H (S i) (S j)); simpl; auto. lia. }
  destruct b; [|exact Htail].
  constructor; [exact Htail|].
  apply Forall_forall. intros a Hin.
  destruct (mask_select_In dflt _ _ _ Hin) as [j [Hj [Hk <-]]].
  apply (H 0%nat (S j)); simpl; auto. lia.
Qed.

Lemma sorted_filter {A : Type} (R : A -> A -> Prop) (f : A -> bool) (l : list A) :
  StronglySorted R l -> StronglySorted R (filter f l).
Proof.
  induction 1 as [|a l Hs IH Hall]; simpl; [constructor|].
  destruct (f a); [|exact IH].
  constructor; [exact IH|].
  rewrite Forall_forall in *. intros b Hb. apply Hall.
  apply filter_In in Hb. tauto.
Qed.

Lemma sorted_map {A B : Type} (R : B -> B -> Prop) (f : A -> B) (l : list A) :
  StronglySorted (fun a b => R (f a) (f b)) l -> StronglySorted R (map f l).
Proof.
  induction 1 as [|a l Hs IH Hall]; simpl; constructor; [exact IH|].
  rewrite Forall_forall in *. intros b Hb.
  apply in_map_iff in Hb. destruct Hb as [c [<- Hc]]. apply Hall, Hc.
Qed.

Lemma insert_index_In key i l j :
  In j (Np.insert_index key i l) <-> j = i \/ In j l.
Proof.
  induction l as [|h t IH]; simpl.
  - intuition.
  - destruct (Np.key_le (key i) (key h)); simpl; [intuition|].
    rewrite IH. intuition.
Qed.

(** [argsort] returns every index of the array. *)
Lemma argsort_In (a : list float) (j : nat) :
  (j < length a)%nat -> In j (Np.argsort a).
Proof.
  intro Hj. unfold Np.argsort.
  assert (Hseq : In j (seq 0 (length a))) by (apply in_seq; lia).
  revert Hseq. generalize (seq 0 (length a)) as l.
  induction l as [|h t IH]; simpl; [tauto|].
  intros [<-|Hin]; apply insert_index_In; auto.
Qed.

(* ================================================================= *)
(** ** The pivot detector *)

(** What [find_peaks] returns for a distance of at least 1: interior,
    non-NaN samples, in ascending order and at least [distance] apart. *)
Lemma find_peaks_spec (x : list float) (prominence : option float) (d : Z) :
  1 <= d ->
  exists peaks : list nat,
    Scipy.find_peaks x prominence d = Ok (map Z.of_nat peaks)
    /\ StronglySorted lt peaks
    /\ StronglySorted (fun a b => d <= Z.of_nat b - Z.of_nat a) peaks
    /\ Forall (fun m => (1 <= m < length x - 1)%nat
                        /\ is_nan (nth m x NaN) = false) peaks.
Proof.
  intro Hd. unfold Scipy.find_peaks.
  replace (d <? 1) with false by (symmetry; apply Z.ltb_ge; lia).
  destruct (local_maxima_from_spec x (length x - 1) (length x) 1 (le_n 1))
    as [Hrange Hsorted].
  fold (Scipy.local_maxima_1d x) in Hrange, Hsorted.
  set (lm := Scipy.local_maxima_1d x) in *.
  set (keep := Scipy.select_by_peak_distance (map Z.of_nat lm)
                 (map (fun p => nth p x NaN) lm) d).
  assert (Hnth : forall i, nth i (map Z.of_nat lm) 0 = Z.of_nat (nth i lm 0%nat)).
  { intro i. apply (map_nth Z.of_nat lm 0%nat i). }
  assert (Hasc : forall i j, (i <= j < length (map Z.of_nat lm))%nat ->
                             nth i (map Z.of_nat lm) 0 <= nth j (map Z.of_nat lm) 0).
  { intros i j Hij. rewrite length_map in Hij. rewrite !Hnth.
    destruct (Nat.eq_dec i j) as [->|Hne]; [lia|].
    pose proof (sorted_nth lt 0%nat lm Hsorted i j ltac:(lia)). lia. }
  assert (Hall : forall j, (j < length (map Z.of_nat lm))%nat ->
                           In j (rev (Np.argsort (map (fun p => nth p x NaN) lm)))).
  { intros j Hj. apply -> in_rev. apply argsort_In.
    rewrite length_map in *. exact Hj. }
  destruct (select_in_order_spaced (map Z.of_nat lm) d Hasc _ Hall) as [_ Hspaced].
  fold (Scipy.select_by_peak_distance (map Z.of_nat lm)
          (map (fun p => nth p x NaN) lm) d) in Hspaced.
  fold keep in Hspaced.
  assert (S1 : StronglySorted lt (mask_select lm keep)).
  { apply (mask_select_sorted lt 0%nat). intros i j Hij _ _.
    apply sorted_nth; assumption. }
  assert (S2 : StronglySorted (fun a b => d <= Z.of_nat b - Z.of_nat a)
                 (mask_select lm keep)).
  { apply (mask_select_sorted _ 0%nat). intros i j Hij Hi Hj.
    rewrite <- !Hnth. apply Hspaced; [rewrite length_map; exact Hij|exact Hi|exact Hj]. }
  assert (S3 : Forall (fun m => (1 <= m < length x - 1)%nat
                                /\ is_nan (nth m x NaN) = false)
                 (mask_select lm keep)).
  { rewrite Forall_forall in *. intros m Hm.
    destruct (mask_select_In 0%nat _ _ _ Hm) as [j [Hj [_ <-]]].
    apply Hrange. apply nth_In. exact Hj. }
  destruct prominence as [pmin|].
  - eexists. split; [reflexivity|]. split; [|split].
    + apply sorted_filter. exact S1.
    + apply sorted_filter. exact S2.
    + rewrite Forall_forall in *. intros m Hm. apply S3.
      apply filter_In in Hm. tauto.
  - eexists. split; [reflexivity|]. auto.
Qed.

Lemma find_peaks_sorted (x : list float) (prominence : option float) (d : Z) :
  1 <= d ->
  exists peaks : list Z,
    Scipy.find_peaks x prominence d = Ok peaks
    /\ strictly_increasing peaks /\ min_spaced d peaks
    /\ ((length x < 3)%nat -> peaks = [])
    /\ forall i, In i peaks -> is_nan (nth (Z.to_nat i) x NaN) = false.
Proof.
  intro Hd.
  destruct (find_peaks_spec x prominence d Hd) as [peaks [Hfp [H1 [H2 H3]]]].
  exists (map Z.of_nat peaks). split; [exact Hfp|].
  split; [|split; [|split]].
  - apply sorted_map. eapply StronglySorted_ind with (l := peaks) (R := lt);
      [constructor| |exact H1].
    intros a l _ IH Hall. constructor; [exact IH|].
    eapply Forall_impl; [|exact Hall]. cbv beta. intros; lia.
  - apply sorted_map. exact H2.
  - intro Hlen. destruct peaks as [|m rest]; [reflexivity|].
    apply Forall_inv in H3. lia.
  - intros i Hi. apply in_map_iff in Hi. destruct Hi as [m [<- Hm]].
    rewrite Nat2Z.id. rewrite Forall_forall in H3. apply (H3 m Hm).
Qed.

Lemma nth_neg_nan (l : list float) (k : nat) :
  is_nan (nth k (map fneg l) NaN) = is_nan (nth k l NaN).
Proof.
  change (nth k (map fneg l) NaN) with (nth k (map fneg l) (fneg NaN)).
  rewrite map_nth. destruct (nth k l NaN); reflexivity.
Qed.

(** C8: for a positive minimum distance the pivot detector returns two
    index sequences, each strictly increasing and with any two of its
    positions at least [distance] bars apart. *)
Theorem C8_pivots_ascending_and_spaced :
  forall (highs lows : list float) (prominence : option float) (distance : Z),
    0 < distance ->
    exists peak_indices valley_indices,
      detect_pivots highs lows prominence distance
        = Ok (peak_indices, valley_indices)
      /\ strictly_increasing peak_indices
      /\ strictly_increasing valley_indices
      /\ min_spaced distance peak_indices
      /\ min_spaced distance valley_indices.
Proof.
  intros highs lows prominence d Hd. unfold detect_pivots.
  destruct (find_peaks_sorted highs prominence d ltac:(lia)) as [p [Hp [Hp1 [Hp2 _]]]].
  destruct (find_peaks_sorted (map fneg lows) prominence d ltac:(lia))
    as [v [Hv [Hv1 [Hv2 _]]]].
  exists p, v. rewrite Hp, Hv. cbn [bind]. auto.
Qed.

Lemma C8_pivots_ascending_and_spaced_witness :
  detect_pivots zigzag zigzag None 3 = Ok ([1; 5; 10], [4; 9])
  /\ strictly_increasing [1; 5; 10] /\ min_spaced 3 [1; 5; 10]
  /\ strictly_increasing [4; 9] /\ min_spaced 3 [4; 9].
Proof.
  destruct (C8_pivots_ascending_and_spaced zigzag zigzag None 3 ltac:(lia))
    as [p [v [Hdet [Hp1 [Hv1 [Hp2 Hv2]]]]]].
  assert (E : detect_pivots zigzag zigzag None 3 = Ok ([1; 5; 10], [4; 9]))
    by (vm_compute; reflexivity).
  rewrite E in Hdet. injection Hdet as <- <-.
  split; [reflexivity|]. auto.
Defined.

(** C7, as stated, fails: three bars are fewer than 2 * 5 + 1, and their
    middle bar is reported both as a swing high and as a swing low. *)
Lemma C7_short_input_has_pivots :
  (Z.of_nat (length [F 1; F 3; F 1]) < 2 * 5 + 1)
  /\ detect_pivots [F 1; F 3; F 1] [F 3; F 1; F 3] None 5 = Ok ([1], [1])
  /\ detect_pivots [F 1; F 3; F 1] [F 3; F 1; F 3] None 5 <> Ok ([], []).
Proof.
  split; [simpl; lia|]. split; [vm_compute; reflexivity|].
  vm_compute. discriminate.
Qed.

(** C7 (amended): for a minimum distance of at least 1 the pivot detector
    raises nothing, and a series of fewer than 3 bars yields an empty pivot
    sequence. *)
Theorem C7_short_input :
  forall (highs lows : list float) (prominence : option float) (distance : Z),
    1 <= distance ->
    exists peak_indices valley_indices,
      detect_pivots highs lows prominence distance
        = Ok (peak_indices, valley_indices)
      /\ ((length highs < 3)%nat -> peak_indices = [])
      /\ ((length lows < 3)%nat -> valley_indices = []).
Proof.
  intros highs lows prominence d Hd. unfold detect_pivots.
  destruct (find_peaks_sorted highs prominence d Hd) as [p [Hp [_ [_ [Hp3 _]]]]].
  destruct (find_peaks_sorted (map fneg lows) prominence d Hd)
    as [v [Hv [_ [_ [Hv3 _]]]]].
  exists p, v. rewrite Hp, Hv. cbn [bind]. split; [reflexivity|].
  split; [exact Hp3|]. rewrite length_map in Hv3. exact Hv3.
Qed.

Lemma C7_short_input_witness :
  detect_pivots [F 1; F 3] [F 3; F 1] None 5 = Ok ([], []).
Proof.
  destruct (C7_short_input [F 1; F 3] [F 3; F 1] None 5 ltac:(lia))
    as [p [v [Hdet [Hp Hv]]]].
  rewrite Hdet, Hp, Hv; [reflexivity|simpl; lia|simpl; lia].
Defined.

(** C6, as stated, fails: a series with a NaN is not rejected; detection
    runs over it and returns pivots. *)
Lemma C6_nan_input_not_rejected :
  contains_nan [NaN; F 1; F 3; F 1] = true
  /\ detect_pivots [NaN; F 1; F 3; F 1] [F 3; F 3; F 1; F 3] None 5 = Ok ([2], [2])
  /\ (forall e, detect_pivots [NaN; F 1; F 3; F 1] [F 3; F 3; F 1; F 3] None 5
                <> Raise e)
  /\ (forall e, detect_pivots_with_prices [NaN; F 1; F 3; F 1] [F 3; F 3; F 1; F 3] 5
                <> Raise e).
Proof.
  split; [reflexivity|]. split; [vm_compute; reflexivity|].
  split; intro e; vm_compute; discriminate.
Qed.

(** C6 (amended): the pivot detector validates nothing but the distance.
    For every series, with or without NaN values, and every minimum
    distance of at least 1, detection runs and returns index sequences
    without raising; a NaN sample is never itself reported as a pivot. *)
Theorem C6_no_input_validation :
  forall (highs lows : list float) (prominence : option float) (distance : Z),
    1 <= distance ->
    (exists peak_indices valley_indices,
        detect_pivots highs lows prominence distance
          = Ok (peak_indices, valley_indices)
        /\ (forall i, In i peak_indices ->
                      is_nan (nth (Z.to_nat i) highs NaN) = false)
        /\ (forall i, In i valley_indices ->
                      is_nan (nth (Z.to_nat i) lows NaN) = false))
    /\ exists pivots, detect_pivots_with_prices highs lows distance = Ok pivots.
Proof.
  intros highs lows prominence d Hd. split.
  - unfold detect_pivots.
    destruct (find_peaks_sorted highs prominence d Hd) as [p [Hp [_ [_ [_ Hp4]]]]].
    destruct (find_peaks_sorted (map fneg lows) prominence d Hd)
      as [v [Hv [_ [_ [_ Hv4]]]]].
    exists p, v. rewrite Hp, Hv. cbn [bind]. split; [reflexivity|].
    split; [exact Hp4|]. intros i Hi. rewrite <- nth_neg_nan. apply Hv4, Hi.
  - unfold detect_pivots_with_prices.
    destruct (find_peaks_sorted highs None d Hd) as [p [Hp _]].
    destruct (find_peaks_sorted (map fneg lows) None d Hd) as [v [Hv _]].
    rewrite Hp, Hv. cbn [bind]. eexists. reflexivity.
Qed.

Lemma C6_no_input_validation_witness :
  exists peak_indices valley_indices,
    detect_pivots [NaN; F 1; F 3; F 1] [F 3; F 3; F 1; F 3] None 5
      = Ok (peak_indices, valley_indices)
    /\ (forall i, In i peak_indices ->
                  is_nan (nth (Z.to_nat i) [NaN; F 1; F 3; F 1] NaN) = false).
Proof.
  destruct (proj1 (C6_no_input_validation [NaN; F 1; F 3; F 1] [F 3; F 3; F 1; F 3]
                     None 5 ltac:(lia)))
    as [p [v [Hdet [Hp _]]]].
  exists p, v. split; [exact Hdet|exact Hp].
Defined.

(* ================================================================= *)
(** ** More on the timing analyzer *)

Lemma fold_Qplus_acc (l : list Q) (a : Q) :
  (fold_left Qplus l a == a + fold_left Qplus l 0)%Q.
Proof.
  revert a. induction l as [|q l IH]; intro a; cbn [fold_left]; [ring|].
  rewrite (IH (a + q)%Q), (IH (0 + q)%Q). ring.
Qed.

Lemma fold_Qplus_cons (q : Q) (l : list Q) :
  (fold_left Qplus (q :: l) 0 == q + fold_left Qplus l 0)%Q.
Proof.
  cbn [fold_left]. rewrite fold_Qplus_acc. ring.
Qed.

Lemma fold_Qplus_le {A : Type} (f g : A -> Q) (l : list A) :
  (forall w, In w l -> (f w <= g w)%Q) ->
  (fold_left Qplus (map f l) 0 <= fold_left Qplus (map g l) 0)%Q.
Proof.
  induction l as [|w l IH]; intro H; cbn [map].
  - cbn. lra.
  - rewrite !fold_Qplus_cons.
    pose proof (H w (or_introl eq_refl)).
    pose proof (IH (fun v Hv => H v (or_intror Hv))). lra.
Qed.

Lemma fold_Qplus_const {A : Type} (f : A -> Q) (c : Q) (l : list A) :
  (forall w, In w l -> (f w == c)%Q) ->
  (fold_left Qplus (map f l) 0 == inject_Z (Z.of_nat (length l)) * c)%Q.
Proof.
  induction l as [|w l IH]; intro H; cbn [map length].
  - cbn. ring.
  - rewrite fold_Qplus_cons, (H w (or_introl eq_refl)),
      (IH (fun v Hv => H v (or_intror Hv))).
    rewrite Nat2Z.inj_succ, <- Z.add_1_r, inject_Z_plus.
    change (inject_Z 1) with 1%Q. ring.
Qed.

Lemma fold_Qplus_nonneg {A : Type} (f : A -> Q) (l : list A) :
  (forall w, (0 <= f w)%Q) -> (0 <= fold_left Qplus (map f l) 0)%Q.
Proof.
  intro H. induction l as [|w l IH]; cbn [map].
  - cbn. lra.
  - rewrite fold_Qplus_cons. pose proof (H w). lra.
Qed.

Lemma map_of_int (l : list Z) : map of_int l = map Fin (map inject_Z l).
Proof. rewrite map_map. reflexivity. Qed.

Lemma map_indicator (bound : Z) (l : list Z) :
  map (fun w => if w <=? bound then Fin 1 else Fin 0) l
  = map Fin (map (indicator bound) l).
Proof.
  rewrite map_map. apply map_ext. intro w. unfold indicator.
  destruct (w <=? bound); reflexivity.
Qed.

Lemma inject_nat_pos (n : nat) : (0 < n)%nat -> (0 < inject_Z (Z.of_nat n))%Q.
Proof. intro H. unfold Qlt. simpl. lia. Qed.

(** The result on at least 3 pivots, with the averages written as
    rational sums over the gaps. *)
Lemma timing_forms (pivots : list Z) (bar : Z) :
  (3 <= length pivots)%nat ->
  let gaps := Np.diff pivots in
  let n := inject_Z (Z.of_nat (length gaps)) in
  let d := bar - last pivots 0 in
  exists s,
    wavelength_timing_analysis pivots bar = Some s
    /\ current_distance s = d
    /\ recent_wavelengths s = slice_from (-5) gaps
    /\ historical_avg_wavelength s
       = Fin (fold_left Qplus (map inject_Z gaps) 0 / n)%Q
    /\ percentile s
       = Fin (fold_left Qplus (map (indicator d) gaps) 0 / n * 100)%Q
    /\ timing_probability s
       = Fin (fold_left Qplus (map (indicator d) gaps) 0 / n * 100 / 100)%Q.
Proof.
  intros Hlen gaps n d. unfold wavelength_timing_analysis.
  replace (length pivots <? 3)%nat with false by (symmetry; apply Nat.ltb_ge; lia).
  assert (Hg : (0 < length gaps)%nat) by (unfold gaps; rewrite diff_length; lia).
  eexists. split; [reflexivity|].
  cbn [current_distance recent_wavelengths historical_avg_wavelength percentile
       timing_probability].
  fold gaps. fold d.
  split; [reflexivity|]. split; [reflexivity|].
  assert (Havg : Np.mean (map of_int gaps)
                 = Fin (fold_left Qplus (map inject_Z gaps) 0 / n)%Q).
  { rewrite map_of_int, mean_Fin by (rewrite length_map; exact Hg).
    rewrite length_map. reflexivity. }
  assert (Hle : Np.mean_le gaps d
                = Fin (fold_left Qplus (map (indicator d) gaps) 0 / n)%Q).
  { unfold Np.mean_le. rewrite map_indicator, mean_Fin by (rewrite length_map; exact Hg).
    rewrite length_map. reflexivity. }
  split; [exact Havg|]. rewrite Hle. cbn [fmul fdiv].
  change (Qeq_bool 100 0) with false. cbv iota.
  split; [reflexivity|].
  unfold pymin, fltb.
  replace (Qlt_bool 1 (fold_left Qplus (map (indicator d) gaps) 0 / n * 100 / 100)%Q)
    with false; [reflexivity|].
  symmetry. apply Qlt_bool_false.
  destruct (indicator_sum_bounds d gaps 0) as [_ H2].
  pose proof (inject_nat_pos _ Hg) as Hn. fold n in Hn, H2.
  assert (E : (fold_left Qplus (map (indicator d) gaps) 0 / n * 100 / 100
               == fold_left Qplus (map (indicator d) gaps) 0 / n)%Q) by (field; lra).
  rewrite E. apply Qle_shift_div_r; [exact Hn|]. lra.
Qed.

Lemma timing_some_length (pivots : list Z) (bar : Z) s :
  wavelength_timing_analysis pivots bar = Some s -> (3 <= length pivots)%nat.
Proof.
  unfold wavelength_timing_analysis.
  destruct (length pivots <? 3)%nat eqn:E; [discriminate|].
  intros _. apply Nat.ltb_ge in E. exact E.
Qed.

(** The gaps telescope: their sum is the last position minus the first. *)
Lemma diff_sum (a : Z) (t : list Z) :
  (fold_left Qplus (map inject_Z (Np.diff (a :: t))) 0
   == inject_Z (last (a :: t) 0%Z - a)%Z)%Q.
Proof.
  revert a. induction t as [|b t IH]; intro a.
  - cbn. rewrite Z.sub_diag. reflexivity.
  - change (Np.diff (a :: b :: t)) with ((b - a) :: Np.diff (b :: t)).
    cbn [map]. rewrite fold_Qplus_cons, IH.
    change (last (a :: b :: t) 0) with (last (b :: t) 0).
    rewrite <- inject_Z_plus. f_equiv. lia.
Qed.

(** X1: on at least 3 pivots the average wavelength is the span from the
    first to the last pivot divided by the number of gaps; the pivots in
    between do not matter. *)
Theorem timing_average_is_span :
  forall (pivot_indices : list Z) (current_bar : Z),
    (3 <= length pivot_indices)%nat ->
    exists s,
      wavelength_timing_analysis pivot_indices current_bar = Some s
      /\ feq (historical_avg_wavelength s)
             (Fin (inject_Z (last pivot_indices 0%Z - hd 0%Z pivot_indices)%Z
                   / inject_Z (Z.of_nat (length pivot_indices - 1)))%Q).
Proof.
  intros pivots bar Hlen.
  destruct (timing_forms pivots bar Hlen) as [s [Hs [_ [_ [Havg _]]]]].
  exists s. split; [exact Hs|]. rewrite Havg. cbn [feq].
  rewrite diff_length. destruct pivots as [|a t]; [simpl in Hlen; lia|].
  rewrite diff_sum. reflexivity.
Qed.

Lemma timing_average_is_span_witness :
  exists s,
    wavelength_timing_analysis [3; 10; 25; 33] 40 = Some s
    /\ feq (historical_avg_wavelength s) (Fin 10).
Proof.
  destruct (timing_average_is_span [3; 10; 25; 33] 40 ltac:(simpl; lia)) as [s [Hs Ha]].
  exists s. split; [exact Hs|].
  eapply feq_trans; [exact Ha|]. vm_compute. reflexivity.
Defined.

Lemma indicator_mono (d1 d2 w : Z) : d1 <= d2 -> (indicator d1 w <= indicator d2 w)%Q.
Proof.
  intro H. unfold indicator.
  destruct (w <=? d1) eqn:E1, (w <=? d2) eqn:E2; try lra.
  apply Z.leb_le in E1. apply Z.leb_gt in E2. lia.
Qed.

(** X2: for a fixed pivot sequence the timing probability never decreases
    when the evaluated bar moves later. *)
Theorem timing_probability_monotone :
  forall (pivot_indices : list Z) (bar1 bar2 : Z) s1 s2,
    wavelength_timing_analysis pivot_indices bar1 = Some s1 ->
    wavelength_timing_analysis pivot_indices bar2 = Some s2 ->
    bar1 <= bar2 ->
    exists p1 p2,
      timing_probability s1 = Fin p1 /\ timing_probability s2 = Fin p2
      /\ (p1 <= p2)%Q.
Proof.
  intros pivots bar1 bar2 s1 s2 H1 H2 Hle.
  pose proof (timing_some_length _ _ _ H1) as Hlen.
  destruct (timing_forms pivots bar1 Hlen) as [s1' [E1 [_ [_ [_ [_ P1]]]]]].
  destruct (timing_forms pivots bar2 Hlen) as [s2' [E2 [_ [_ [_ [_ P2]]]]]].
  rewrite H1 in E1. injection E1 as <-. rewrite H2 in E2. injection E2 as <-.
  do 2 eexists. split; [exact P1|]. split; [exact P2|].
  assert (Hn : (0 < inject_Z (Z.of_nat (length (Np.diff pivots))))%Q).
  { apply inject_nat_pos. rewrite diff_length. lia. }
  set (n := inject_Z (Z.of_nat (length (Np.diff pivots)))) in *.
  assert (Hd : bar1 - last pivots 0 <= bar2 - last pivots 0) by lia.
  pose proof (fold_Qplus_le (indicator (bar1 - last pivots 0))
                (indicator (bar2 - last pivots 0)) (Np.diff pivots)
                (fun w _ => indicator_mono _ _ w Hd)) as Hsum.
  pose proof (div_le_div _ _ n Hn Hsum) as Hdiv.
  apply div_le_div; lra.
Qed.

Lemma timing_probability_monotone_witness :
  exists s1 s2 p1 p2,
    wavelength_timing_analysis [0; 10; 25; 30] 36 = Some s1
    /\ wavelength_timing_analysis [0; 10; 25; 30] 41 = Some s2
    /\ timing_probability s1 = Fin p1 /\ timing_probability s2 = Fin p2
    /\ (p1 <= p2)%Q.
Proof.
  do 2 eexists.
  assert (H1 : wavelength_timing_analysis [0; 10; 25; 30] 36 = Some ?[a])
    by (vm_compute; reflexivity).
  assert (H2 : wavelength_timing_analysis [0; 10; 25; 30] 41 = Some ?[b])
    by (vm_compute; reflexivity).
  destruct (timing_probability_monotone _ _ _ _ _ H1 H2 ltac:(lia))
    as [p1 [p2 [P1 [P2 Hle]]]].
  exists p1, p2. split; [exact H1|]. split; [exact H2|]. auto.
Defined.

(** X3: the clamp [min(percentile / 100, 1.0)] never changes the value,
    the timing probability is the percentile divided by 100.  It is 1
    (percentile 100) when no gap is longer than the current distance and 0
    (percentile 0) when every gap is longer. *)
Theorem timing_probability_saturates :
  forall (pivot_indices : list Z) (current_bar : Z) s,
    wavelength_timing_analysis pivot_indices current_bar = Some s ->
    (exists p, percentile s = Fin p /\ timing_probability s = Fin (p / 100)%Q)
    /\ ((forall w, In w (Np.diff pivot_indices) -> w <= current_distance s) ->
        feq (percentile s) (Fin 100) /\ feq (timing_probability s) (Fin 1))
    /\ ((forall w, In w (Np.diff pivot_indices) -> current_distance s < w) ->
        feq (percentile s) (Fin 0) /\ feq (timing_probability s) (Fin 0)).
Proof.
  intros pivots bar s Hs.
  pose proof (timing_some_length _ _ _ Hs) as Hlen.
  destruct (timing_forms pivots bar Hlen) as [s' [E [Hd [_ [_ [Hp Ht]]]]]].
  rewrite Hs in E. injection E as <-.
  assert (Hn : (0 < inject_Z (Z.of_nat (length (Np.diff pivots))))%Q).
  { apply inject_nat_pos. rewrite diff_length. lia. }
  rewrite Hp, Ht, Hd. cbn [feq].
  set (n := inject_Z (Z.of_nat (length (Np.diff pivots)))) in *.
  split; [eexists; split; reflexivity|]. split; intro Hall.
  - rewrite (fold_Qplus_const _ 1%Q).
    + fold n. split; field; lra.
    + intros w Hw. unfold indicator.
      replace (w <=? bar - last pivots 0) with true; [reflexivity|].
      symmetry. apply Z.leb_le. apply Hall, Hw.
  - rewrite (fold_Qplus_const _ 0%Q).
    + fold n. split; field; lra.
    + intros w Hw. unfold indicator.
      replace (w <=? bar - last pivots 0) with false; [reflexivity|].
      symmetry. apply Z.leb_gt. apply Hall, Hw.
Qed.

Lemma timing_probability_saturates_witness :
  exists s,
    wavelength_timing_analysis [0; 10; 25; 30] 45 = Some s
    /\ feq (percentile s) (Fin 100) /\ feq (timing_probability s) (Fin 1).
Proof.
  eexists.
  assert (H : wavelength_timing_analysis [0; 10; 25; 30] 45 = Some ?[a])
    by (vm_compute; reflexivity).
  split; [exact H|].
  apply (proj1 (proj2 (timing_probability_saturates _ _ _ H))).
  intros w Hw. cbn in Hw. cbn. lia.
Defined.

Lemma diff_shift (c : Z) (l : list Z) : Np.diff (map (Z.add c) l) = Np.diff l.
Proof.
  induction l as [|a l IH]; [reflexivity|].
  destruct l as [|b t]; [reflexivity|].
  change (Np.diff (map (Z.add c) (a :: b :: t)))
    with ((c + b - (c + a)) :: Np.diff (map (Z.add c) (b :: t))).
  change (Np.diff (a :: b :: t)) with ((b - a) :: Np.diff (b :: t)).
  rewrite IH. f_equal. lia.
Qed.

Lemma last_shift (c : Z) (l : list Z) :
  l <> [] -> last (map (Z.add c) l) 0 = c + last l 0.
Proof.
  induction l as [|a l IH]; intro H; [congruence|].
  destruct l as [|b t]; [reflexivity|].
  change (last (map (Z.add c) (a :: b :: t)) 0)
    with (last (map (Z.add c) (b :: t)) 0).
  change (last (a :: b :: t) 0) with (last (b :: t) 0).
  apply IH. discriminate.
Qed.

(** X4: the analysis depends on the positions only through the gaps and
    the distance to the last pivot: shifting every pivot and the evaluated
    bar by the same offset gives the same result, field by field. *)
Theorem timing_translation_invariant :
  forall (pivot_indices : list Z) (current_bar offset : Z),
    wavelength_timing_analysis (map (Z.add offset) pivot_indices)
      (offset + current_bar)
    = wavelength_timing_analysis pivot_indices current_bar.
Proof.
  intros pivots bar c. unfold wavelength_timing_analysis.
  rewrite length_map. destruct (length pivots <? 3)%nat eqn:E; [reflexivity|].
  apply Nat.ltb_ge in E.
  rewrite diff_shift, last_shift by (destruct pivots; [simpl in E; lia|discriminate]).
  replace (c + bar - (c + last pivots 0)) with (bar - last pivots 0) by lia.
  reflexivity.
Qed.

Lemma slice_from_last {A : Type} (k : Z) (l : list A) :
  0 < k ->
  slice_from (- k) l = skipn (length l - Z.to_nat k) l.
Proof.
  intro Hk. unfold slice_from.
  replace (- k <? 0) with true by (symmetry; apply Z.ltb_lt; lia).
  f_equal. lia.
Qed.

(** X5: [recent_wavelengths] holds the last min(5, number of gaps) gaps, in
    their order. *)
Theorem timing_recent_wavelengths :
  forall (pivot_indices : list Z) (current_bar : Z) s,
    wavelength_timing_analysis pivot_indices current_bar = Some s ->
    length (recent_wavelengths s) = Nat.min 5 (length pivot_indices - 1)
    /\ exists older, Np.diff pivot_indices = older ++ recent_wavelengths s.
Proof.
  intros pivots bar s Hs.
  pose proof (timing_some_length _ _ _ Hs) as Hlen.
  destruct (timing_forms pivots bar Hlen) as [s' [E [_ [Hr _]]]].
  rewrite Hs in E. injection E as <-.
  pose proof (slice_from_last 5 (Np.diff pivots) ltac:(lia)) as Hsl.
  change (Z.opp 5) with (Zneg 5) in Hsl.
  rewrite Hr, Hsl. split.
  - rewrite length_skipn, diff_length. lia.
  - eexists. symmetry. apply firstn_skipn.
Qed.

Lemma timing_recent_wavelengths_witness :
  exists s,
    wavelength_timing_analysis [0; 4; 9; 15; 22; 30; 39; 49] 50 = Some s
    /\ length (recent_wavelengths s) = 5%nat
    /\ exists older,
         Np.diff [0; 4; 9; 15; 22; 30; 39; 49] = older ++ recent_wavelengths s.
Proof.
  eexists.
  assert (H : wavelength_timing_analysis [0; 4; 9; 15; 22; 30; 39; 49] 50 = Some ?[a])
    by (vm_compute; reflexivity).
  split; [exact H|]. apply (timing_recent_wavelengths _ _ _ H).
Defined.

Lemma Qsqrt_nonneg (q : Q) : (0 <= Qsqrt q)%Q.
Proof.
  unfold Qsqrt, Qle. cbn [Qnum Qden]. rewrite Z.mul_1_r. cbn [Z.mul].
  apply Z.sqrt_nonneg.
Qed.

(** [np.std] of a non-empty array of finite values: the root of the mean
    squared deviation, a finite number. *)
Lemma std_Fin (ql : list Q) :
  (0 < length ql)%nat ->
  let n := inject_Z (Z.of_nat (length ql)) in
  let m := (fold_left Qplus ql 0 / n)%Q in
  let v := (fold_left Qplus (map (fun q => (q + - m) * (q + - m)) ql) 0 / n)%Q in
  Np.std (map Fin ql) = Fin (Qsqrt v) /\ (0 <= v)%Q.
Proof.
  intros Hlen n m v. unfold Np.std.
  rewrite mean_Fin by exact Hlen. fold n. fold m.
  replace (map (fun x => fmul (fsub x (Fin m)) (fsub x (Fin m))) (map Fin ql))
    with (map Fin (map (fun q => (q + - m) * (q + - m))%Q ql))
    by (rewrite !map_map; reflexivity).
  rewrite mean_Fin by (rewrite length_map; exact Hlen).
  rewrite length_map. fold n. fold v.
  assert (Hv : (0 <= v)%Q).
  { unfold v. apply Qle_shift_div_l; [apply inject_nat_pos; exact Hlen|].
    pose proof (fold_Qplus_nonneg (fun q => (q + - m) * (q + - m))%Q ql) as H.
    rewrite Qmult_0_l. apply H. intro q. cbv beta.
    generalize (q + - m)%Q. intro u. nra. }
  split; [|exact Hv].
  cbn [fsqrt]. replace (Qlt_bool v 0) with false; [reflexivity|].
  symmetry. apply Qlt_bool_false. exact Hv.
Qed.

Lemma insert_sorted_length (a : Z) (l : list Z) :
  length (Np.insert_sorted a l) = S (length l).
Proof.
  induction l as [|h t IH]; simpl; [reflexivity|].
  destruct (a <=? h); simpl; [reflexivity|]. rewrite IH. reflexivity.
Qed.

Lemma sort_length (l : list Z) : length (Np.sort l) = length l.
Proof.
  induction l as [|a l IH]; simpl; [reflexivity|].
  rewrite insert_sorted_length, IH. reflexivity.
Qed.

Lemma median_finite (l : list Z) : l <> [] -> is_finite (Np.median l) = true.
Proof.
  intro H. unfold Np.median.
  destruct (length (Np.sort l)) as [|k] eqn:E.
  - rewrite sort_length in E. destruct l; [congruence|discriminate].
  - destruct (Nat.even (S k)); [|reflexivity].
    unfold of_int. rewrite mean_pair. reflexivity.
Qed.

(** X6: on at least 3 pivots every number of the result is finite: no
    field is NaN or infinite, the standard deviation and [bars_until_avg]
    are not negative. *)
Theorem timing_outputs_finite :
  forall (pivot_indices : list Z) (current_bar : Z) s,
    wavelength_timing_analysis pivot_indices current_bar = Some s ->
    is_finite (historical_avg_wavelength s) = true
    /\ is_finite (historical_median s) = true
    /\ is_finite (z_score s) = true
    /\ is_finite (percentile s) = true
    /\ is_finite (timing_probability s) = true
    /\ (exists sd, historical_std s = Fin sd /\ (0 <= sd)%Q)
    /\ (exists b, bars_until_avg s = Fin b /\ (0 <= b)%Q).
Proof.
  intros pivots bar s Hs.
  pose proof (timing_some_length _ _ _ Hs) as Hlen.
  unfold wavelength_timing_analysis in Hs.
  replace (length pivots <? 3)%nat with false in Hs
    by (symmetry; apply Nat.ltb_ge; lia).
  injection Hs as <-.
  cbn [historical_avg_wavelength historical_median z_score percentile
       timing_probability historical_std bars_until_avg].
  set (gaps := Np.diff pivots).
  assert (Hg : (0 < length gaps)%nat) by (unfold gaps; rewrite diff_length; lia).
  assert (Hq : (0 < length (map inject_Z gaps))%nat) by (rewrite length_map; exact Hg).
  destruct (std_Fin _ Hq) as [Hstd _]. rewrite <- map_of_int in Hstd.
  destruct (mean_le_range gaps (bar - last pivots 0) Hg) as [q [Hle _]].
  rewrite Hstd, Hle, map_of_int, mean_Fin by exact Hq.
  match goal with |- context [Fin (Qsqrt ?w)] => set (v := w) end.
  match goal with |- is_finite (Fin ?w) = true /\ _ => set (a := w) end.
  split; [reflexivity|]. split.
  { apply median_finite. intro E0.
    apply (f_equal (@length Z)) in E0. simpl in E0. lia. }
  split.
  { cbn [fltb fsub fneg fadd]. unfold of_int.
    destruct (Qlt_bool 0 (Qsqrt v)) eqn:Epos; [|reflexivity].
    qbool. cbn [fsub fneg fadd fdiv].
    replace (Qeq_bool (Qsqrt v) 0) with false; [reflexivity|].
    symmetry. apply Qeq_bool_false. lra. }
  split; [reflexivity|]. split.
  { cbn [fmul fdiv]. change (Qeq_bool 100 0) with false. cbv iota.
    unfold pymin, fltb. destruct (Qlt_bool 1 _); reflexivity. }
  split.
  { eexists. split; [reflexivity|]. apply Qsqrt_nonneg. }
  unfold of_int. cbn [fsub fneg fadd]. unfold pymax, fltb.
  destruct (Qlt_bool 0 (a + - inject_Z (bar - last pivots 0))) eqn:Epos; qbool;
    eexists; (split; [reflexivity|]); lra.
Qed.

Lemma timing_outputs_finite_witness :
  exists s,
    wavelength_timing_analysis [0; 10; 25; 30] 36 = Some s
    /\ is_finite (z_score s) = true
    /\ exists sd, historical_std s = Fin sd /\ (0 <= sd)%Q.
Proof.
  eexists.
  assert (H : wavelength_timing_analysis [0; 10; 25; 30] 36 = Some ?[a])
    by (vm_compute; reflexivity).
  split; [exact H|].
  destruct (timing_outputs_finite _ _ _ H) as [_ [_ [Hz [_ [_ [Hsd _]]]]]].
  split; [exact Hz|exact Hsd].
Defined.

(** X7: when all gaps are the same number of bars, the average wavelength
    is that number, the standard deviation is 0 and the z-score is 0. *)
Theorem timing_evenly_spaced :
  forall (pivot_indices : list Z) (current_bar gap : Z),
    (3 <= length pivot_indices)%nat ->
    (forall w, In w (Np.diff pivot_indices) -> w = gap) ->
    exists s,
      wavelength_timing_analysis pivot_indices current_bar = Some s
      /\ feq (historical_avg_wavelength s) (of_int gap)
      /\ feq (historical_std s) (Fin 0)
      /\ z_score s = Fin 0.
Proof.
  intros pivots bar g Hlen Hall.
  unfold wavelength_timing_analysis.
  replace (length pivots <? 3)%nat with false by (symmetry; apply Nat.ltb_ge; lia).
  eexists. split; [reflexivity|].
  cbn [historical_avg_wavelength historical_std z_score].
  set (gaps := Np.diff pivots) in *.
  assert (Hg : (0 < length gaps)%nat) by (unfold gaps; rewrite diff_length; lia).
  assert (Hq : (0 < length (map inject_Z gaps))%nat) by (rewrite length_map; exact Hg).
  destruct (std_Fin _ Hq) as [Hstd _]. rewrite <- map_of_int in Hstd.
  rewrite Hstd, map_of_int, mean_Fin by exact Hq.
  rewrite length_map in *.
  pose proof (inject_nat_pos _ Hg) as Hn.
  set (n := inject_Z (Z.of_nat (length gaps))) in *.
  assert (Hsum : (fold_left Qplus (map inject_Z gaps) 0 == n * inject_Z g)%Q).
  { apply fold_Qplus_const. intros w Hw. rewrite (Hall w Hw). reflexivity. }
  assert (Havg : (fold_left Qplus (map inject_Z gaps) 0 / n == inject_Z g)%Q).
  { rewrite Hsum. field. lra. }
  set (m := (fold_left Qplus (map inject_Z gaps) 0 / n)%Q) in *.
  match type of Hstd with _ = Fin (Qsqrt ?w) => set (v := w) in * end.
  assert (Hv : (v == 0)%Q).
  { unfold v. rewrite (fold_Qplus_const _ 0%Q).
    - field. lra.
    - intros q Hq'. apply in_map_iff in Hq'. destruct Hq' as [w [<- Hw]].
      rewrite (Hall w Hw), Havg. ring. }
  pose proof (Qsqrt_zero v Hv) as Hsq.
  split; [exact Havg|]. split; [exact Hsq|].
  unfold fltb. replace (Qlt_bool 0 (Qsqrt v)) with false; [reflexivity|].
  symmetry. apply Qlt_bool_false. lra.
Qed.

Lemma timing_evenly_spaced_witness :
  exists s,
    wavelength_timing_analysis [4; 11; 18; 25; 32] 40 = Some s
    /\ feq (historical_avg_wavelength s) (of_int 7)
    /\ feq (historical_std s) (Fin 0)
    /\ z_score s = Fin 0.
Proof.
  apply (timing_evenly_spaced [4; 11; 18; 25; 32] 40 7).
  - simpl. lia.
  - intros w Hw. cbn in Hw. lia.
Defined.

(* ================================================================= *)
(** ** More on the pivot detector *)

Lemma fltb_fleb (a b : float) : fltb a b = true -> fleb a b = true.
Proof.
  destruct a, b; simpl; try congruence.
  intro H. qbool. apply Qle_bool_iff. lra.
Qed.

Lemma feqb_fleb (a b c : float) :
  feqb a c = true -> feqb b c = true -> fleb a b = true.
Proof.
  destruct a, b, c; simpl; try congruence.
  intros H1 H2. qbool. apply Qle_bool_iff. lra.
Qed.

Lemma fltb_feqb_fleb (a b c : float) :
  fltb a c = true -> feqb b c = true -> fleb a b = true.
Proof.
  destruct a, b, c; simpl; try congruence.
  intros H1 H2. qbool. apply Qle_bool_iff. lra.
Qed.

Lemma feqb_refl (a : float) : is_nan a = false -> feqb a a = true.
Proof.
  destruct a; simpl; try congruence. intros _. apply Qeq_bool_iff. reflexivity.
Qed.

Lemma fneg_involutive (a : float) : fneg (fneg a) = a.
Proof.
  destruct a as [[n d]| | |]; try reflexivity.
  cbn. unfold Qopp. cbn. rewrite Z.opp_involutive. reflexivity.
Qed.

Lemma fltb_fneg (a b : float) : fltb (fneg a) (fneg b) = fltb b a.
Proof.
  destruct a, b; simpl; try reflexivity.
  destruct (Qlt_bool (- q) (- q0)) eqn:E1, (Qlt_bool q0 q) eqn:E2; qbool;
    try reflexivity; exfalso; lra.
Qed.

Lemma fleb_fneg (a b : float) : fleb (fneg a) (fneg b) = fleb b a.
Proof.
  destruct a, b; simpl; try reflexivity.
  destruct (Qle_bool (- q) (- q0)) eqn:E1, (Qle_bool q0 q) eqn:E2;
    try reflexivity; exfalso.
  - apply Qle_bool_iff in E1.
    assert (H : ~ (q0 <= q)%Q) by (intro H; apply Qle_bool_iff in H; congruence).
    lra.
  - apply Qle_bool_iff in E2.
    assert (H : ~ (- q <= - q0)%Q) by (intro H; apply Qle_bool_iff in H; congruence).
    lra.
Qed.

Lemma nth_map_fneg (l : list float) (k : nat) :
  nth k (map fneg l) NaN = fneg (nth k l NaN).
Proof.
  change (nth k (map fneg l) NaN) with (nth k (map fneg l) (fneg NaN)).
  apply map_nth.
Qed.

(** Every local maximum is at least as high as the sample before it and
    the sample after it. *)
Lemma local_maxima_from_neighbours x i_max fuel i :
  (1 <= i)%nat ->
  Forall (fun m => fleb (nth (m - 1) x NaN) (nth m x NaN) = true
                   /\ fleb (nth (m + 1) x NaN) (nth m x NaN) = true)
         (Scipy.local_maxima_from x i i_max fuel).
Proof.
  revert i. induction fuel as [|f IH]; intros i Hi; cbn [Scipy.local_maxima_from].
  - constructor.
  - destruct (i <? i_max)%nat eqn:E; [|constructor].
    apply Nat.ltb_lt in E.
    destruct (fltb (nth (i - 1) x NaN) (nth i x NaN)) eqn:Erise;
      [|apply IH; lia].
    set (ia := Scipy.plateau_end x (nth i x NaN) (i + 1) i_max i_max) in *.
    destruct (fltb (nth ia x NaN) (nth i x NaN)) eqn:Efall; [|apply IH; lia].
    pose proof (plateau_end_ge x (nth i x NaN) (i + 1) i_max i_max) as Hge.
    fold ia in Hge.
    constructor; [|apply IH; lia].
    assert (Hmid : (i <= (i + (ia - 1)) / 2 <= ia - 1)%nat).
    { split.
      - apply Nat.div_le_lower_bound; lia.
      - apply Nat.Div0.div_le_upper_bound; lia. }
    set (m := ((i + (ia - 1)) / 2)%nat) in *.
    assert (Hplat : forall k, (i <= k < ia)%nat ->
                              feqb (nth k x NaN) (nth i x NaN) = true).
    { intros k Hk. destruct (Nat.eq_dec k i) as [->|Hne].
      - apply feqb_refl. apply (fltb_not_nan _ _ Erise).
      - apply (plateau_end_equal x _ (i + 1) i_max i_max). fold ia. lia. }
    split.
    + destruct (Nat.eq_dec m i) as [Em|Hne].
      * rewrite Em. apply fltb_fleb. exact Erise.
      * apply (feqb_fleb _ _ (nth i x NaN)); apply Hplat; lia.
    + destruct (Nat.eq_dec (m + 1) ia) as [Em|Hne].
      * rewrite Em. apply (fltb_feqb_fleb _ _ (nth i x NaN)); [exact Efall|].
        apply Hplat. lia.
      * apply (feqb_fleb _ _ (nth i x NaN)); apply Hplat; lia.
Qed.

Lemma mask_select_incl {A : Type} (l : list A) (keep : list bool) (a : A) :
  In a (mask_select l keep) -> In a l.
Proof.
  revert keep. induction l as [|h t IH]; intros [|b keep] Hin; simpl in *;
    try contradiction.
  destruct b; [destruct Hin as [->|Hin]|]; eauto.
Qed.

(** What [find_peaks] returns is a selection of the local maxima. *)
Lemma find_peaks_subset (x : list float) (prominence : option float) (d : Z) peaks :
  Scipy.find_peaks x prominence d = Ok peaks ->
  forall i, In i peaks ->
            exists m, i = Z.of_nat m /\ In m (Scipy.local_maxima_1d x).
Proof.
  unfold Scipy.find_peaks. destruct (d <? 1); [discriminate|].
  intros H i Hi. injection H as <-.
  apply in_map_iff in Hi. destruct Hi as [m [<- Hm]]. exists m. split; [reflexivity|].
  destruct prominence as [pmin|].
  - apply filter_In in Hm. destruct Hm as [Hm _]. eapply mask_select_incl, Hm.
  - eapply mask_select_incl, Hm.
Qed.

(** X8: a reported swing high is never the first or the last bar and is at
    least as high as the bar before and the bar after it; a reported swing
    low is at most as low as both neighbours. *)
Theorem pivots_are_local_extrema :
  forall (highs lows : list float) (prominence : option float) (distance : Z)
         (peak_indices valley_indices : list Z),
    detect_pivots highs lows prominence distance
      = Ok (peak_indices, valley_indices) ->
    (forall p, In p peak_indices ->
       0 < p < Z.of_nat (length highs) - 1
       /\ fleb (nth (Z.to_nat (p - 1)) highs NaN) (nth (Z.to_nat p) highs NaN) = true
       /\ fleb (nth (Z.to_nat (p + 1)) highs NaN) (nth (Z.to_nat p) highs NaN) = true)
    /\ (forall v, In v valley_indices ->
       0 < v < Z.of_nat (length lows) - 1
       /\ fleb (nth (Z.to_nat v) lows NaN) (nth (Z.to_nat (v - 1)) lows NaN) = true
       /\ fleb (nth (Z.to_nat v) lows NaN) (nth (Z.to_nat (v + 1)) lows NaN) = true).
Proof.
  intros highs lows prominence d p v Hdet. unfold detect_pivots in Hdet.
  destruct (Scipy.find_peaks highs prominence d) as [p'|] eqn:Hp; [|discriminate].
  destruct (Scipy.find_peaks (map fneg lows) prominence d) as [v'|] eqn:Hv;
    [|discriminate].
  cbn [bind] in Hdet. injection Hdet as <- <-.
  assert (Hloc : forall x m, In m (Scipy.local_maxima_1d x) ->
            (1 <= m < length x - 1)%nat
            /\ fleb (nth (m - 1) x NaN) (nth m x NaN) = true
            /\ fleb (nth (m + 1) x NaN) (nth m x NaN) = true).
  { intros x m Hm. unfold Scipy.local_maxima_1d in Hm.
    destruct (local_maxima_from_spec x (length x - 1) (length x) 1 (le_n 1)) as [H1 _].
    pose proof (local_maxima_from_neighbours x (length x - 1) (length x) 1 (le_n 1)) as H2.
    rewrite Forall_forall in H1, H2.
    destruct (H1 m Hm) as [Hr _]. destruct (H2 m Hm) as [Hl Hr2]. auto. }
  split.
  - intros i Hi. destruct (find_peaks_subset _ _ _ _ Hp i Hi) as [m [-> Hm]].
    destruct (Hloc _ _ Hm) as [Hr [Hl Hr2]].
    replace (Z.to_nat (Z.of_nat m - 1)) with (m - 1)%nat by lia.
    replace (Z.to_nat (Z.of_nat m + 1)) with (m + 1)%nat by lia.
    rewrite Nat2Z.id. split; [lia|]. auto.
  - intros i Hi. destruct (find_peaks_subset _ _ _ _ Hv i Hi) as [m [-> Hm]].
    destruct (Hloc _ _ Hm) as [Hr [Hl Hr2]].
    rewrite length_map in Hr. rewrite !nth_map_fneg, fleb_fneg in Hl, Hr2.
    replace (Z.to_nat (Z.of_nat m - 1)) with (m - 1)%nat by lia.
    replace (Z.to_nat (Z.of_nat m + 1)) with (m + 1)%nat by lia.
    rewrite Nat2Z.id. split; [lia|]. auto.
Qed.

Lemma pivots_are_local_extrema_witness :
  0 < 5 < Z.of_nat (length zigzag) - 1
  /\ fleb (nth (Z.to_nat (5 - 1)) zigzag NaN) (nth (Z.to_nat 5) zigzag NaN) = true
  /\ fleb (nth (Z.to_nat (5 + 1)) zigzag NaN) (nth (Z.to_nat 5) zigzag NaN) = true.
Proof.
  apply (proj1 (pivots_are_local_extrema zigzag zigzag None 3 [1; 5; 10] [4; 9]
                  ltac:(vm_compute; reflexivity)) 5).
  cbn. tauto.
Defined.

Lemma local_maxima_never_falls x i_max fuel i :
  (forall a b, (a <= b <= i_max)%nat -> fltb (nth b x NaN) (nth a x NaN) = false) ->
  Scipy.local_maxima_from x i i_max fuel = [].
Proof.
  intro H. revert i. induction fuel as [|f IH]; intro i;
    cbn [Scipy.local_maxima_from]; [reflexivity|].
  destruct (i <? i_max)%nat eqn:E; [|reflexivity].
  apply Nat.ltb_lt in E.
  destruct (fltb (nth (i - 1) x NaN) (nth i x NaN)); [|apply IH].
  pose proof (plateau_end_ge x (nth i x NaN) (i + 1) i_max i_max) as Hge.
  pose proof (plateau_end_le x (nth i x NaN) (i + 1) i_max i_max ltac:(lia)) as Hle.
  rewrite H by lia. apply IH.
Qed.

Lemma local_maxima_never_rises x i_max fuel i :
  (1 <= i)%nat ->
  (forall a b, (a <= b <= i_max)%nat -> fltb (nth a x NaN) (nth b x NaN) = false) ->
  Scipy.local_maxima_from x i i_max fuel = [].
Proof.
  intros Hi H. revert i Hi. induction fuel as [|f IH]; intros i Hi;
    cbn [Scipy.local_maxima_from]; [reflexivity|].
  destruct (i <? i_max)%nat eqn:E; [|reflexivity].
  apply Nat.ltb_lt in E.
  rewrite H by lia. apply IH. lia.
Qed.

Lemma local_maxima_monotone (x : list float) :
  never_falls x \/ never_rises x -> Scipy.local_maxima_1d x = [].
Proof.
  unfold Scipy.local_maxima_1d.
  destruct x as [|x0 t]; [reflexivity|].
  intros [H | H].
  - apply local_maxima_never_falls. intros a b Hab. apply H. simpl in *. lia.
  - apply local_maxima_never_rises; [lia|]. intros a b Hab. apply H. simpl in *. lia.
Qed.

Lemma find_peaks_no_maxima (x : list float) (prominence : option float) (d : Z) :
  1 <= d -> Scipy.local_maxima_1d x = [] -> Scipy.find_peaks x prominence d = Ok [].
Proof.
  intros Hd Hlm. unfold Scipy.find_peaks.
  replace (d <? 1) with false by (symmetry; apply Z.ltb_ge; lia).
  rewrite Hlm. destruct prominence; reflexivity.
Qed.

Lemma never_falls_fneg (x : list float) : never_rises x -> never_falls (map fneg x).
Proof.
  intros H i j Hij. rewrite length_map in Hij.
  rewrite !nth_map_fneg, fltb_fneg. apply H, Hij.
Qed.

Lemma never_rises_fneg (x : list float) : never_falls x -> never_rises (map fneg x).
Proof.
  intros H i j Hij. rewrite length_map in Hij.
  rewrite !nth_map_fneg, fltb_fneg. apply H, Hij.
Qed.

(** X9: a series that never falls, or never rises, has no pivot: a single
    ascending or descending run of highs gives no swing high, and likewise
    for the lows. *)
Theorem monotone_series_has_no_pivots :
  forall (highs lows : list float) (prominence : option float) (distance : Z),
    1 <= distance ->
    exists peak_indices valley_indices,
      detect_pivots highs lows prominence distance
        = Ok (peak_indices, valley_indices)
      /\ (never_falls highs \/ never_rises highs -> peak_indices = [])
      /\ (never_falls lows \/ never_rises lows -> valley_indices = []).
Proof.
  intros highs lows prominence d Hd. unfold detect_pivots.
  destruct (find_peaks_sorted highs prominence d Hd) as [p [Hp _]].
  destruct (find_peaks_sorted (map fneg lows) prominence d Hd) as [v [Hv _]].
  exists p, v. rewrite Hp, Hv. cbn [bind]. split; [reflexivity|]. split.
  - intro H. rewrite (find_peaks_no_maxima _ _ _ Hd (local_maxima_monotone _ H)) in Hp.
    congruence.
  - intro H.
    assert (H' : never_falls (map fneg lows) \/ never_rises (map fneg lows)).
    { destruct H as [H | H]; [right; apply never_rises_fneg|left; apply never_falls_fneg];
        exact H. }
    rewrite (find_peaks_no_maxima _ _ _ Hd (local_maxima_monotone _ H')) in Hv.
    congruence.
Qed.

Lemma monotone_series_has_no_pivots_witness :
  exists peak_indices valley_indices,
    detect_pivots (map F [1; 2; 2; 5]) (map F [4; 3; 1; 1]) None 1
      = Ok (peak_indices, valley_indices)
    /\ peak_indices = [] /\ valley_indices = [].
Proof.
  destruct (monotone_series_has_no_pivots (map F [1; 2; 2; 5]) (map F [4; 3; 1; 1])
              None 1 ltac:(lia)) as [p [v [Hdet [Hp Hv]]]].
  exists p, v. split; [exact Hdet|]. split.
  - apply Hp. left. intros i j Hij. cbn in Hij.
    do 4 (destruct i as [|i]; [do 4 (destruct j as [|j]; [reflexivity || lia|]); lia|]).
    lia.
  - apply Hv. right. intros i j Hij. cbn in Hij.
    do 4 (destruct i as [|i]; [do 4 (destruct j as [|j]; [reflexivity || lia|]); lia|]).
    lia.
Defined.

(** X10: a distance below 1 is the only thing the detectors reject: both
    raise a ValueError before looking at the series, and raise nothing for
    a distance of at least 1. *)
Theorem detector_rejects_only_small_distance :
  forall (highs lows : list float) (prominence : option float) (distance : Z),
    (distance < 1 ->
       (exists msg, detect_pivots highs lows prominence distance
                    = Raise (ValueError msg))
       /\ exists msg, detect_pivots_with_prices highs lows distance
                      = Raise (ValueError msg))
    /\ (1 <= distance ->
       (exists r, detect_pivots highs lows prominence distance = Ok r)
       /\ exists r, detect_pivots_with_prices highs lows distance = Ok r).
Proof.
  intros highs lows prominence d. split; intro Hd.
  - unfold detect_pivots, detect_pivots_with_prices, Scipy.find_peaks.
    replace (d <? 1) with true by (symmetry; apply Z.ltb_lt; lia).
    split; eexists; reflexivity.
  - unfold detect_pivots, detect_pivots_with_prices.
    destruct (find_peaks_sorted highs prominence d Hd) as [p [Hp _]].
    destruct (find_peaks_sorted highs None d Hd) as [p0 [Hp0 _]].
    destruct (find_peaks_sorted (map fneg lows) prominence d Hd) as [v [Hv _]].
    destruct (find_peaks_sorted (map fneg lows) None d Hd) as [v0 [Hv0 _]].
    rewrite Hp, Hv, Hp0, Hv0. split; eexists; reflexivity.
Qed.

Lemma detector_rejects_only_small_distance_witness :
  (exists msg, detect_pivots zigzag zigzag None 0 = Raise (ValueError msg))
  /\ exists r, detect_pivots zigzag zigzag None 1 = Ok r.
Proof.
  split.
  - apply (proj1 (detector_rejects_only_small_distance zigzag zigzag None 0)). lia.
  - apply (proj2 (detector_rejects_only_small_distance zigzag zigzag None 1)). lia.
Defined.

Lemma map_fneg_involutive (l : list float) : map fneg (map fneg l) = l.
Proof.
  rewrite map_map. rewrite <- (map_id l) at 2. apply map_ext. apply fneg_involutive.
Qed.

(** X11: swing highs and swing lows are mirror images: negating both
    series and swapping them swaps the two index sequences (and raises
    alike). *)
Theorem detect_pivots_mirror :
  forall (highs lows : list float) (prominence : option float) (distance : Z),
    detect_pivots (map fneg lows) (map fneg highs) prominence distance
    = match detect_pivots highs lows prominence distance with
      | Ok (peak_indices, valley_indices) => Ok (valley_indices, peak_indices)
      | Raise e => Raise e
      end.
Proof.
  intros highs lows prominence d. unfold detect_pivots.
  rewrite map_fneg_involutive.
  destruct (Z.lt_ge_cases d 1) as [Hd|Hd].
  - unfold Scipy.find_peaks.
    replace (d <? 1) with true by (symmetry; apply Z.ltb_lt; lia). reflexivity.
  - destruct (find_peaks_sorted highs prominence d Hd) as [p [Hp _]].
    destruct (find_peaks_sorted (map fneg lows) prominence d Hd) as [v [Hv _]].
    rewrite Hp, Hv. reflexivity.
Qed.

(* ================================================================= *)
(** ** Pivots with prices *)

Lemma insert_pivot_In (p q : PivotPoint) (l : list PivotPoint) :
  In q (insert_pivot p l) <-> q = p \/ In q l.
Proof.
  induction l as [|h t IH]; simpl.
  - intuition.
  - destruct (index p <=? index h); simpl; [intuition|].
    rewrite IH. intuition.
Qed.

Lemma sorted_by_index_In (q : PivotPoint) (l : list PivotPoint) :
  In q (sorted_by_index l) <-> In q l.
Proof.
  induction l as [|a l IH]; simpl; [tauto|].
  rewrite insert_pivot_In, IH. intuition.
Qed.

Lemma insert_pivot_sorted (p : PivotPoint) (l : list PivotPoint) :
  sorted_by_bar l -> sorted_by_bar (insert_pivot p l).
Proof.
  unfold sorted_by_bar. induction 1 as [|h t Hs IH Hall]; simpl.
  - constructor; constructor.
  - destruct (index p <=? index h) eqn:E.
    + apply Z.leb_le in E. constructor; [constructor; assumption|].
      constructor; [exact E|].
      eapply Forall_impl; [|exact Hall]. cbv beta. intros; lia.
    + apply Z.leb_gt in E. constructor; [exact IH|].
      apply Forall_forall. intros q Hq. apply insert_pivot_In in Hq.
      destruct Hq as [->|Hq]; [lia|].
      rewrite Forall_forall in Hall. apply Hall, Hq.
Qed.

Lemma sorted_by_index_sorted (l : list PivotPoint) : sorted_by_bar (sorted_by_index l).
Proof.
  induction l as [|a l IH]; simpl; [constructor|].
  apply insert_pivot_sorted, IH.
Qed.

Lemma insert_pivot_head (p : PivotPoint) (l : list PivotPoint) :
  Forall (fun h => index p <= index h) l -> insert_pivot p l = p :: l.
Proof.
  destruct l as [|h t]; [reflexivity|]. intro H. apply Forall_inv in H.
  simpl. replace (index p <=? index h) with true; [reflexivity|].
  symmetry. apply Z.leb_le. exact H.
Qed.

(** Sorting is stable: it leaves a sorted list as it is. *)
Lemma sorted_by_index_id (l : list PivotPoint) :
  sorted_by_bar l -> sorted_by_index l = l.
Proof.
  unfold sorted_by_bar. induction 1 as [|a l Hs IH Hall]; simpl; [reflexivity|].
  rewrite IH. apply insert_pivot_head, Hall.
Qed.

Lemma filter_insert_pivot (f : PivotPoint -> bool) (p : PivotPoint)
      (l : list PivotPoint) :
  sorted_by_bar l ->
  filter f (insert_pivot p l)
  = if f p then insert_pivot p (filter f l) else filter f l.
Proof.
  unfold sorted_by_bar. induction 1 as [|h t Hs IH Hall].
  - simpl. destruct (f p); reflexivity.
  - cbn [insert_pivot]. destruct (index p <=? index h) eqn:E.
    + apply Z.leb_le in E. cbn [filter]. destruct (f p) eqn:Ep; [|reflexivity].
      symmetry. apply insert_pivot_head.
      apply Forall_forall. intros q Hq.
      assert (Hin : In q (h :: t)).
      { change (In q (filter f (h :: t))) in Hq. apply filter_In in Hq. tauto. }
      destruct Hin as [<-|Hin]; [exact E|].
      rewrite Forall_forall in Hall. specialize (Hall q Hin). lia.
    + cbn [filter]. rewrite IH. destruct (f h) eqn:Eh, (f p) eqn:Ep; try reflexivity.
      cbn [insert_pivot]. rewrite E. reflexivity.
Qed.

(** Filtering commutes with the stable sort. *)
Lemma filter_sorted_by_index (f : PivotPoint -> bool) (l : list PivotPoint) :
  filter f (sorted_by_index l) = sorted_by_index (filter f l).
Proof.
  induction l as [|a l IH]; [reflexivity|].
  cbn [sorted_by_index fold_right]. fold (sorted_by_index l).
  rewrite filter_insert_pivot by apply sorted_by_index_sorted.
  cbn [filter]. destruct (f a); rewrite IH; reflexivity.
Qed.

Lemma priced_sorted (mk : Z -> PivotPoint) (l : list Z) :
  (forall i, index (mk i) = i) ->
  strictly_increasing l -> sorted_by_bar (map mk l).
Proof.
  intros Hmk. unfold strictly_increasing, sorted_by_bar.
  induction 1 as [|a l Hs IH Hall]; simpl; constructor; [exact IH|].
  apply Forall_forall. intros q Hq. apply in_map_iff in Hq.
  destruct Hq as [i [<- Hi]]. rewrite !Hmk.
  rewrite Forall_forall in Hall. specialize (Hall i Hi). lia.
Qed.

Lemma filter_all {A : Type} (f : A -> bool) (l : list A) :
  (forall a, In a l -> f a = true) -> filter f l = l.
Proof.
  induction l as [|a l IH]; intro H; simpl; [reflexivity|].
  rewrite (H a (or_introl eq_refl)), IH; [reflexivity|].
  intros b Hb. apply H. right. exact Hb.
Qed.

Lemma filter_none {A : Type} (f : A -> bool) (l : list A) :
  (forall a, In a l -> f a = false) -> filter f l = [].
Proof.
  induction l as [|a l IH]; intro H; simpl; [reflexivity|].
  rewrite (H a (or_introl eq_refl)). apply IH.
  intros b Hb. apply H. right. exact Hb.
Qed.

(** The pivots of one polarity inside the output of
    [detect_pivots_with_prices], for the index sequences [find_peaks]
    returned. *)
Lemma priced_polarity (highs lows : list float) (p v : list Z) (high : bool) :
  strictly_increasing p -> strictly_increasing v ->
  let mkh := fun idx => {| index := idx; price := nth (Z.to_nat idx) highs NaN;
                           is_high := true |} in
  let mkl := fun idx => {| index := idx; price := nth (Z.to_nat idx) lows NaN;
                           is_high := false |} in
  filter (fun q => Bool.eqb (is_high q) high) (sorted_by_index (map mkh p ++ map mkl v))
  = if high then map mkh p else map mkl v.
Proof.
  intros Hp Hv mkh mkl. rewrite filter_sorted_by_index, filter_app.
  assert (Hh : forall q, In q (map mkh p) -> is_high q = true).
  { intros q Hq. apply in_map_iff in Hq. destruct Hq as [i [<- _]]. reflexivity. }
  assert (Hl : forall q, In q (map mkl v) -> is_high q = false).
  { intros q Hq. apply in_map_iff in Hq. destruct Hq as [i [<- _]]. reflexivity. }
  destruct high.
  - rewrite filter_all by (intros q Hq; rewrite (Hh q Hq); reflexivity).
    rewrite filter_none by (intros q Hq; rewrite (Hl q Hq); reflexivity).
    rewrite app_nil_r. apply sorted_by_index_id.
    apply priced_sorted; [reflexivity|exact Hp].
  - rewrite filter_none by (intros q Hq; rewrite (Hh q Hq); reflexivity).
    rewrite filter_all by (intros q Hq; rewrite (Hl q Hq); reflexivity).
    cbn [app]. apply sorted_by_index_id.
    apply priced_sorted; [reflexivity|exact Hv].
Qed.

Lemma find_peaks_ok_distance (x : list float) (prominence : option float) (d : Z) r :
  Scipy.find_peaks x prominence d = Ok r -> 1 <= d.
Proof.
  unfold Scipy.find_peaks. destruct (d <? 1) eqn:E; [discriminate|].
  intros _. apply Z.ltb_ge in E. exact E.
Qed.

(** X12: [detect_pivots_with_prices] reports exactly the pivots of
    [detect_pivots] (without prominence): its swing highs, in order, are
    the peak indices and its swing lows the valley indices; every pivot
    carries the high, respectively the low, of its own bar; and the list is
    in ascending order of bar index. *)
Theorem priced_pivots_match_detector :
  forall (highs lows : list float) (distance : Z) (peak_indices valley_indices : list Z),
    detect_pivots highs lows None distance = Ok (peak_indices, valley_indices) ->
    exists pivots,
      detect_pivots_with_prices highs lows distance = Ok pivots
      /\ sorted_by_bar pivots
      /\ map index (filter (fun q => Bool.eqb (is_high q) true) pivots) = peak_indices
      /\ map index (filter (fun q => Bool.eqb (is_high q) false) pivots) = valley_indices
      /\ forall q, In q pivots ->
           price q = nth (Z.to_nat (index q)) (if is_high q then highs else lows) NaN.
Proof.
  intros highs lows d p v Hdet. unfold detect_pivots in Hdet.
  destruct (Scipy.find_peaks highs None d) as [p'|] eqn:Hp; [|discriminate].
  destruct (Scipy.find_peaks (map fneg lows) None d) as [v'|] eqn:Hv; [|discriminate].
  cbn [bind] in Hdet. injection Hdet as -> ->.
  pose proof (find_peaks_ok_distance _ _ _ _ Hp) as Hd.
  destruct (find_peaks_sorted highs None d Hd) as [p0 [Hp0 [Sp _]]].
  destruct (find_peaks_sorted (map fneg lows) None d Hd) as [v0 [Hv0 [Sv _]]].
  rewrite Hp in Hp0. injection Hp0 as <-. rewrite Hv in Hv0. injection Hv0 as <-.
  unfold detect_pivots_with_prices. rewrite Hp, Hv. cbn [bind].
  eexists. split; [reflexivity|].
  split; [apply sorted_by_index_sorted|].
  rewrite !(priced_polarity highs lows p v) by assumption.
  rewrite !map_map. cbn [index]. rewrite !map_id.
  split; [reflexivity|]. split; [reflexivity|].
  intros q Hq. apply (proj1 (sorted_by_index_In _ _)) in Hq.
  apply (proj1 (in_app_iff _ _ _)) in Hq.
  destruct Hq as [Hq|Hq]; apply in_map_iff in Hq; destruct Hq as [i [<- _]];
    reflexivity.
Qed.

Lemma priced_pivots_match_detector_witness :
  exists pivots,
    detect_pivots_with_prices zigzag zigzag 3 = Ok pivots
    /\ sorted_by_bar pivots
    /\ map index (filter (fun q => Bool.eqb (is_high q) true) pivots) = [1; 5; 10]
    /\ map index (filter (fun q => Bool.eqb (is_high q) false) pivots) = [4; 9].
Proof.
  destruct (priced_pivots_match_detector zigzag zigzag 3 [1; 5; 10] [4; 9])
    as [pivots [H1 [H2 [H3 [H4 _]]]]].
  - vm_compute. reflexivity.
  - exists pivots. auto.
Defined.

(* ================================================================= *)
(** ** More on the trend fit and the trajectory analyzer *)

Lemma fit_none_length pivots high lookback :
  (length (slice_from (- lookback)
             (filter (fun p => Bool.eqb (is_high p) high) pivots)) < 2)%nat ->
  fit_pivot_trendline pivots high lookback = Ok None.
Proof.
  intro H. unfold fit_pivot_trendline.
  apply Nat.ltb_lt in H. rewrite H. reflexivity.
Qed.

Lemma fit_some_length pivots high lookback trend :
  fit_pivot_trendline pivots high lookback = Ok (Some trend) ->
  (2 <= length (slice_from (- lookback)
                  (filter (fun p => Bool.eqb (is_high p) high) pivots)))%nat.
Proof.
  unfold fit_pivot_trendline.
  destruct (length _ <? 2)%nat eqn:E; [discriminate|].
  intros _. apply Nat.ltb_ge in E. exact E.
Qed.

Lemma fit_ok_none_length pivots high lookback :
  fit_pivot_trendline pivots high lookback = Ok None ->
  (length (slice_from (- lookback)
             (filter (fun p => Bool.eqb (is_high p) high) pivots)) < 2)%nat.
Proof.
  unfold fit_pivot_trendline.
  destruct (length _ <? 2)%nat eqn:E; [intros _; apply Nat.ltb_lt; exact E|].
  destruct (Scipy.linregress _ _) as [[[s i] r]|]; cbn [bind]; discriminate.
Qed.

Lemma polarity_key_inj (a b : bool) : polarity_key a = polarity_key b -> a = b.
Proof. destruct a, b; simpl; intro H; try reflexivity; discriminate. Qed.

(** X13: the returned dict never has any key but "swing_high" and
    "swing_low", and the entry of a polarity is missing exactly when fewer
    than 2 pivots of that polarity are among the last 5 of them; the
    combiner then answers "insufficient data" whatever the timing result. *)
Theorem trajectory_entry_needs_two_pivots :
  forall pivots bar h l tol res (high : bool),
    trajectory_alignment_analysis pivots bar h l tol = Ok res ->
    let window :=
      slice_from (-5) (filter (fun p => Bool.eqb (is_high p) high) pivots) in
    (dict_get (polarity_key high) res = None <-> (length window < 2)%nat)
    /\ ((length window < 2)%nat ->
        forall timing, combined_pivot_probability timing res high = insufficient_data)
    /\ (forall key, key <> "swing_high" -> key <> "swing_low" ->
                    dict_get key res = None).
Proof.
  intros pivots bar h l tol res high Hres window.
  assert (Hiff : dict_get (polarity_key high) res = None <-> (length window < 2)%nat).
  { split.
    - intro Hnone.
      destruct (trajectory_results _ _ _ _ _ _ Hres) as [ht [lt [Hh [Hl _]]]].
      assert (Hfit : exists o, fit_pivot_trendline pivots high 5 = Ok o)
        by (destruct high; eauto).
      destruct Hfit as [[trend|] Hfit].
      + rewrite (trajectory_present _ _ _ _ _ _ _ _ Hres Hfit) in Hnone. discriminate.
      + apply (fit_ok_none_length _ _ 5 Hfit).
    - intro Hlen.
      destruct (dict_get (polarity_key high) res) as [e|] eqn:Hget; [|reflexivity].
      destruct (trajectory_entry _ _ _ _ _ _ _ _ Hres Hget)
        as [high' [trend [Hkey [Hfit _]]]].
      apply polarity_key_inj in Hkey. subst high'.
      pose proof (fit_some_length _ _ 5 _ Hfit). unfold window in Hlen.
      change (- (5)) with (-5) in H. lia. }
  split; [exact Hiff|]. split.
  - intros Hlen timing. apply Hiff in Hlen.
    unfold combined_pivot_probability. fold (polarity_key high). rewrite Hlen.
    reflexivity.
  - intros key H1 H2.
    destruct (dict_get key res) as [e|] eqn:Hget; [|reflexivity].
    destruct (trajectory_entry _ _ _ _ _ _ _ _ Hres Hget) as [[|] [_ [Hkey _]]];
      simpl in Hkey; congruence.
Qed.

Lemma trajectory_entry_needs_two_pivots_witness :
  exists res,
    trajectory_alignment_analysis level_lows 60 (F 109) (F 104) (Fin 1) = Ok res
    /\ dict_get "swing_high" res = None
    /\ combined_pivot_probability (Some mock_timing) res true = insufficient_data.
Proof.
  eexists.
  assert (H : trajectory_alignment_analysis level_lows 60 (F 109) (F 104) (Fin 1)
              = Ok ?[r]) by (vm_compute; reflexivity).
  split; [exact H|].
  destruct (trajectory_entry_needs_two_pivots _ _ _ _ _ _ true H) as [H1 [H2 _]].
  split.
  - apply H1. simpl. lia.
  - apply H2. simpl. lia.
Defined.

Lemma slice_from_app_last {A : Type} (k : Z) (older recent : list A) :
  0 < k -> Z.of_nat (length recent) = k ->
  slice_from (- k) (older ++ recent) = recent.
Proof.
  intros Hk Hlen. rewrite slice_from_last by exact Hk.
  rewrite length_app.
  replace (length older + length recent - Z.to_nat k)%nat with (length older) by lia.
  rewrite skipn_app, skipn_all, Nat.sub_diag. reflexivity.
Qed.

(** X14: the fit looks at the last [lookback] pivots of the requested
    polarity only: whatever pivots come before them, of either polarity,
    the result is the same. *)
Theorem fit_uses_the_last_lookback_pivots :
  forall (older recent : list PivotPoint) (high : bool) (lookback : Z),
    0 < lookback ->
    Z.of_nat (length recent) = lookback ->
    (forall p, In p recent -> is_high p = high) ->
    fit_pivot_trendline (older ++ recent) high lookback
    = fit_pivot_trendline recent high lookback.
Proof.
  intros older recent high lookback Hk Hlen Hall.
  unfold fit_pivot_trendline. rewrite filter_app.
  assert (Hf : filter (fun p => Bool.eqb (is_high p) high) recent = recent).
  { apply filter_all. intros p Hp. rewrite (Hall p Hp). apply eqb_reflx. }
  rewrite Hf, slice_from_app_last by assumption.
  pose proof (slice_from_app_last lookback [] recent Hk Hlen) as Hs.
  cbn [app] in Hs. rewrite Hs. reflexivity.
Qed.

Lemma fit_uses_the_last_lookback_pivots_witness :
  fit_pivot_trendline (example_pivots ++ descending_highs) true 2
  = fit_pivot_trendline descending_highs true 2.
Proof.
  apply fit_uses_the_last_lookback_pivots.
  - lia.
  - reflexivity.
  - intros p Hp. cbn in Hp. destruct Hp as [<-|[<-|[]]]; reflexivity.
Defined.

Lemma linregress_r_range x y s i r q :
  Scipy.linregress x y = Ok (s, i, r) -> r = Fin q -> (-1 <= q <= 1)%Q.
Proof.
  intros H Hq. subst r. unfold Scipy.linregress in H.
  destruct x as [|x0 xs]; [discriminate|]. destruct y as [|y0 ys]; [discriminate|].
  destruct (Scipy.all_equal (x0 :: xs) && (1 <? length (x0 :: xs))%nat);
    [discriminate|].
  cbv zeta in H. injection H as _ _ Hr. revert Hr.
  destruct (feqb _ (Fin 0) || feqb _ (Fin 0)).
  { destruct (feqb _ (Fin 0)); [discriminate|].
    intro Hr. injection Hr as <-. lra. }
  match goal with |- context [fltb ?t (Fin (-1))] => generalize t end.
  intro r0. change (match r0 with
                    | Fin b => Qlt_bool 1 b
                    | PInf => true
                    | _ => false
                    end) with (fltb (Fin 1) r0).
  destruct (fltb (Fin 1) r0) eqn:E1.
  { intro Hr. injection Hr as <-. lra. }
  destruct (fltb r0 (Fin (-1))) eqn:E2.
  { intro Hr. injection Hr as <-. lra. }
  intro Hr. subst r0. simpl in E1, E2. qbool. lra.
Qed.

(** X15: the r squared of a fit, when it is a number, lies in [0, 1]:
    [linregress] clips the correlation to [-1, 1] before it is squared. *)
Theorem fit_r_squared_range :
  forall pivots high lookback s i r2 q,
    fit_pivot_trendline pivots high lookback = Ok (Some (s, i, r2)) ->
    r2 = Fin q ->
    (0 <= q <= 1)%Q.
Proof.
  intros pivots high lookback s i r2 q Hfit Hq. subst r2.
  unfold fit_pivot_trendline in Hfit.
  destruct (length _ <? 2)%nat; [discriminate|].
  destruct (Scipy.linregress _ _) as [[[s' i'] r]|] eqn:Hlin; [|discriminate].
  cbn [bind] in Hfit. injection Hfit as _ _ Hr.
  destruct r as [a| | |]; simpl in Hr; try discriminate.
  injection Hr as <-.
  pose proof (linregress_r_range _ _ _ _ _ a Hlin eq_refl). nra.
Qed.

Lemma fit_r_squared_range_witness :
  exists s i q,
    fit_pivot_trendline example_pivots true 5 = Ok (Some (s, i, Fin q))
    /\ (0 <= q <= 1)%Q.
Proof.
  do 3 eexists.
  assert (H : fit_pivot_trendline example_pivots true 5 = Ok (Some (?[s], ?[i], Fin ?[q])))
    by (vm_compute; reflexivity).
  split; [exact H|]. apply (fit_r_squared_range _ _ _ _ _ _ _ H eq_refl).
Defined.

Lemma all_equal_same (c : Z) (l : list Z) :
  (forall a, In a l -> a = c) -> Scipy.all_equal l = true.
Proof.
  destruct l as [|a t]; [reflexivity|]. intro H. simpl.
  apply forallb_forall. intros b Hb.
  rewrite (H a (or_introl eq_refl)), (H b (or_intror Hb)). apply Z.eqb_refl.
Qed.

Lemma fit_raises_same_bar pivots high lookback c :
  let window :=
    slice_from (- lookback) (filter (fun p => Bool.eqb (is_high p) high) pivots) in
  (2 <= length window)%nat ->
  (forall p, In p window -> index p = c) ->
  exists msg, fit_pivot_trendline pivots high lookback = Raise (ValueError msg).
Proof.
  intros window Hlen Hall. unfold fit_pivot_trendline. fold window.
  replace (length window <? 2)%nat with false by (symmetry; apply Nat.ltb_ge; lia).
  assert (Hx : Scipy.all_equal (map index window) = true).
  { apply (all_equal_same c). intros a Ha. apply in_map_iff in Ha.
    destruct Ha as [p [<- Hp]]. apply Hall, Hp. }
  unfold Scipy.linregress.
  destruct window as [|a [|b t]]; simpl in Hlen; try lia.
  cbn [map] in *. rewrite Hx. cbn [length Nat.ltb Nat.leb andb bind].
  eexists. reflexivity.
Qed.

(** X16: when the fitted pivots of a polarity (at least 2) all sit on the
    same bar, [linregress] raises and the whole analysis raises a
    ValueError instead of returning a dict. *)
Theorem trajectory_raises_on_same_bar_pivots :
  forall pivots bar h l tol (high : bool) (c : Z),
    let window :=
      slice_from (-5) (filter (fun p => Bool.eqb (is_high p) high) pivots) in
    (2 <= length window)%nat ->
    (forall p, In p window -> index p = c) ->
    exists msg,
      trajectory_alignment_analysis pivots bar h l tol = Raise (ValueError msg).
Proof.
  intros pivots bar h l tol high c window Hlen Hall.
  destruct (fit_raises_same_bar pivots high 5 c Hlen Hall) as [msg Hfit].
  unfold trajectory_alignment_analysis. destruct high.
  - rewrite Hfit. cbn [bind]. eexists. reflexivity.
  - rewrite Hfit.
    destruct (fit_pivot_trendline pivots true 5) as [ht|[msg']]; cbn [bind];
      eexists; reflexivity.
Qed.

Lemma trajectory_raises_on_same_bar_pivots_witness :
  exists msg,
    trajectory_alignment_analysis
      [ {| index := 20; price := F 100; is_high := false |};
        {| index := 20; price := F 102; is_high := false |} ]
      60 (F 109) (F 104) (Fin 1)
    = Raise (ValueError msg).
Proof.
  apply (trajectory_raises_on_same_bar_pivots _ 60 (F 109) (F 104) (Fin 1) false 20).
  - simpl. lia.
  - intros p Hp. cbn in Hp. destruct Hp as [<-|[<-|[]]]; reflexivity.
Defined.

Lemma sorted_skipn {A : Type} (R : A -> A -> Prop) (k : nat) (l : list A) :
  StronglySorted R l -> StronglySorted R (skipn k l).
Proof.
  revert l. induction k as [|k IH]; intros l H; [exact H|].
  destruct l as [|a t]; [constructor|].
  apply StronglySorted_inv in H. apply IH, H.
Qed.

Lemma fit_ok_distinct_bars pivots high lookback :
  strictly_increasing
    (map index (filter (fun p => Bool.eqb (is_high p) high) pivots)) ->
  exists o, fit_pivot_trendline pivots high lookback = Ok o.
Proof.
  intro Hs. unfold fit_pivot_trendline, slice_from.
  match goal with |- context [skipn ?k ?l] => set (w := skipn k l) end.
  assert (Hw : strictly_increasing (map index w)).
  { unfold w. rewrite <- skipn_map. apply sorted_skipn. exact Hs. }
  destruct (length w <? 2)%nat eqn:E; [eexists; reflexivity|].
  apply Nat.ltb_ge in E.
  destruct w as [|a [|b t]]; simpl in E; try lia.
  unfold Scipy.linregress. cbn [map] in *.
  assert (Hab : index a < index b).
  { apply StronglySorted_inv in Hw. destruct Hw as [_ Hw].
    apply Forall_inv in Hw. exact Hw. }
  replace (Scipy.all_equal (index a :: index b :: map index t)) with false.
  2:{ symmetry. cbn. replace (index a =? index b) with false; [reflexivity|].
      symmetry. apply Z.eqb_neq. lia. }
  cbn [andb bind]. cbv zeta. eexists. reflexivity.
Qed.

(** X17: the analysis raises nothing when no two pivots of one polarity
    share a bar (their indices ascend strictly), and so never raises on
    the output of [detect_pivots_with_prices]. *)
Theorem trajectory_never_raises_on_detected_pivots :
  (forall pivots bar h l tol,
      (forall high,
          strictly_increasing
            (map index (filter (fun p => Bool.eqb (is_high p) high) pivots))) ->
      exists res, trajectory_alignment_analysis pivots bar h l tol = Ok res)
  /\ (forall highs lows distance pivots bar h l tol,
      detect_pivots_with_prices highs lows distance = Ok pivots ->
      exists res, trajectory_alignment_analysis pivots bar h l tol = Ok res).
Proof.
  assert (Hgen : forall pivots bar h l tol,
      (forall high,
          strictly_increasing
            (map index (filter (fun p => Bool.eqb (is_high p) high) pivots))) ->
      exists res, trajectory_alignment_analysis pivots bar h l tol = Ok res).
  { intros pivots bar h l tol Hs. unfold trajectory_alignment_analysis.
    destruct (fit_ok_distinct_bars pivots true 5 (Hs true)) as [ht Hh].
    destruct (fit_ok_distinct_bars pivots false 5 (Hs false)) as [lt Hl].
    rewrite Hh, Hl. cbn [bind]. eexists. reflexivity. }
  split; [exact Hgen|].
  intros highs lows d pivots bar h l tol Hdet. apply Hgen. intro high.
  unfold detect_pivots_with_prices in Hdet.
  destruct (Scipy.find_peaks highs None d) as [p|] eqn:Hp; [|discriminate].
  destruct (Scipy.find_peaks (map fneg lows) None d) as [v|] eqn:Hv; [|discriminate].
  cbn [bind] in Hdet. injection Hdet as <-.
  pose proof (find_peaks_ok_distance _ _ _ _ Hp) as Hd.
  destruct (find_peaks_sorted highs None d Hd) as [p0 [Hp0 [Sp _]]].
  destruct (find_peaks_sorted (map fneg lows) None d Hd) as [v0 [Hv0 [Sv _]]].
  rewrite Hp in Hp0. injection Hp0 as <-. rewrite Hv in Hv0. injection Hv0 as <-.
  rewrite (priced_polarity highs lows p v high Sp Sv).
  destruct high; rewrite map_map; cbn [index]; rewrite map_id; assumption.
Qed.

Lemma trajectory_never_raises_on_detected_pivots_witness :
  exists pivots res,
    detect_pivots_with_prices zigzag zigzag 3 = Ok pivots
    /\ trajectory_alignment_analysis pivots 12 (F 2) (F 1) (Fin 0.5) = Ok res.
Proof.
  eexists.
  assert (H : detect_pivots_with_prices zigzag zigzag 3 = Ok ?[p])
    by (vm_compute; reflexivity).
  destruct (proj2 trajectory_never_raises_on_detected_pivots _ _ _ _
              12 (F 2) (F 1) (Fin 0.5) H) as [res Hres].
  exists res. split; [exact H|exact Hres].
Defined.

Lemma Qle_bool_false (a b : Q) : Qle_bool a b = false -> (b < a)%Q.
Proof.
  intro H. apply Qnot_le_lt. intro Hle. apply Qle_bool_iff in Hle. congruence.
Qed.

Lemma score_when_unaligned (r2 t : Q) (d : float) :
  (0 < t)%Q -> fleb d (Fin t) = false ->
  feq (alignment_score_of (Fin r2) d (Fin t)) (Fin 0).
Proof.
  intros Ht Hd. destruct d as [q| | |].
  - cbn [fleb] in Hd. apply Qle_bool_false in Hd.
    unfold alignment_score_of, fsub, fdiv, fneg.
    replace (Qeq_bool t 0) with false by (symmetry; apply Qeq_bool_false; lra).
    cbn [fadd]. unfold pymax, fltb.
    replace (Qlt_bool 0 (1 + - (q / t))) with false.
    + cbn [fmul feq]. ring.
    + symmetry. apply Qlt_bool_false.
      assert (H1 : (1 <= q / t)%Q) by (apply Qle_shift_div_l; lra). lra.
  - apply (score_at_bad_deviation r2 t PInf Ht). left. reflexivity.
  - discriminate Hd.
  - apply (score_at_bad_deviation r2 t NaN Ht). right. reflexivity.
Qed.

(** X18: with a positive tolerance and a finite r squared, an entry that
    is not aligned has alignment score 0, whether its deviation is a number
    above the tolerance, infinite or NaN. *)
Theorem unaligned_entry_scores_zero :
  forall pivots bar h l (t : Q) res key e r2,
    trajectory_alignment_analysis pivots bar h l (Fin t) = Ok res ->
    dict_get key res = Some e ->
    (0 < t)%Q ->
    r_squared e = Fin r2 ->
    aligned e = false ->
    feq (alignment_score e) (Fin 0).
Proof.
  intros pivots bar h l t res key e r2 Hres Hget Ht Hr2 Hal.
  destruct (trajectory_entry _ _ _ _ _ _ _ _ Hres Hget)
    as [high [[[s i] r2f] [_ [_ ->]]]].
  cbn [analyze_trend r_squared aligned alignment_score] in *. subst r2f.
  apply score_when_unaligned; assumption.
Qed.

Lemma unaligned_entry_scores_zero_witness :
  exists res e,
    trajectory_alignment_analysis example_pivots 60 (F 109) (F 104) (Fin 1) = Ok res
    /\ dict_get "swing_high" res = Some e
    /\ aligned e = false
    /\ feq (alignment_score e) (Fin 0).
Proof.
  do 2 eexists.
  assert (H : trajectory_alignment_analysis example_pivots 60 (F 109) (F 104) (Fin 1)
              = Ok ?[r]) by (vm_compute; reflexivity).
  match type of H with
  | _ = Ok ?r0 => assert (G : dict_get "swing_high" r0 = Some ?[e]) by reflexivity
  end.
  split; [exact H|]. split; [exact G|]. split; [vm_compute; reflexivity|].
  refine (unaligned_entry_scores_zero _ _ _ _ _ _ _ _ _ H G _ _ _).
  - reflexivity.
  - vm_compute. reflexivity.
  - vm_compute. reflexivity.
Defined.

Lemma fmul_one (r : float) (v : Q) : (v == 1)%Q -> feq (fmul r (Fin v)) r.
Proof.
  intro Hv. destruct r as [q| | |]; cbn [fmul feq]; auto.
  - rewrite Hv. ring.
  - unfold inf_times.
    replace (Qeq_bool v 0) with false by (symmetry; apply Qeq_bool_false; lra).
    replace (Qlt_bool 0 v) with true by (symmetry; apply Qlt_bool_iff; lra).
    exact I.
  - unfold inf_times.
    replace (Qeq_bool v 0) with false by (symmetry; apply Qeq_bool_false; lra).
    replace (Qlt_bool 0 v) with true by (symmetry; apply Qlt_bool_iff; lra).
    exact I.
Qed.

(** X19: when the observed price equals a non-zero projected price, the
    deviation is 0, the entry is aligned and, for a positive tolerance, its
    alignment score is its r squared. *)
Theorem exact_hit_scores_r_squared :
  forall pivots bar h l (t : Q) res key e (p o : Q),
    trajectory_alignment_analysis pivots bar h l (Fin t) = Ok res ->
    dict_get key res = Some e ->
    (0 < t)%Q ->
    projected_price e = Fin p -> current_price e = Fin o ->
    (o == p)%Q -> ~ (p == 0)%Q ->
    feq (deviation_pct e) (Fin 0)
    /\ aligned e = true
    /\ feq (alignment_score e) (r_squared e).
Proof.
  intros pivots bar h l t res key e p o Hres Hget Ht Hp Ho Hop Hp0.
  destruct (trajectory_entry _ _ _ _ _ _ _ _ Hres Hget)
    as [high [[[s i] r2f] [_ [_ ->]]]].
  cbn [analyze_trend projected_price current_price deviation_pct aligned
       alignment_score r_squared] in *.
  rewrite Hp, Ho. cbn [fsub fneg fadd fabs fdiv].
  replace (Qeq_bool p 0) with false by (symmetry; apply Qeq_bool_false; exact Hp0).
  cbn [fmul].
  assert (Hd : (Qabs (o + - p) / p * 100 == 0)%Q).
  { assert (E : (o + - p == 0)%Q) by lra. rewrite E. cbn [Qabs Z.abs]. field. exact Hp0. }
  split; [exact Hd|]. split.
  - cbn [fleb]. apply Qle_bool_iff. rewrite Hd. lra.
  - unfold alignment_score_of. cbn [fdiv].
    replace (Qeq_bool t 0) with false by (symmetry; apply Qeq_bool_false; lra).
    cbn [fsub fneg fadd]. unfold pymax, fltb.
    assert (Hv : (1 + - (Qabs (o + - p) / p * 100 / t) == 1)%Q).
    { rewrite Hd. field. lra. }
    replace (Qlt_bool 0 (1 + - (Qabs (o + - p) / p * 100 / t))) with true
      by (symmetry; apply Qlt_bool_iff; lra).
    apply fmul_one. exact Hv.
Qed.

Lemma exact_hit_scores_r_squared_witness :
  exists res e,
    trajectory_alignment_analysis example_pivots 60 (F 109) (F 104) (Fin 1) = Ok res
    /\ dict_get "swing_low" res = Some e
    /\ feq (deviation_pct e) (Fin 0)
    /\ aligned e = true
    /\ feq (alignment_score e) (r_squared e).
Proof.
  do 2 eexists.
  assert (H : trajectory_alignment_analysis example_pivots 60 (F 109) (F 104) (Fin 1)
              = Ok ?[r]) by (vm_compute; reflexivity).
  match type of H with
  | _ = Ok ?r0 => assert (G : dict_get "swing_low" r0 = Some ?[e]) by reflexivity
  end.
  split; [exact H|]. split; [exact G|].
  refine (exact_hit_scores_r_squared _ _ _ _ _ _ _ _ _ _ H G _ _ _ _ _).
  - reflexivity.
  - vm_compute. reflexivity.
  - reflexivity.
  - vm_compute. reflexivity.
  - vm_compute. discriminate.
Defined.

(* ================================================================= *)
(** ** The whole pipeline *)

Lemma timing_probability_unit (pivots : list Z) (bar : Z) s :
  wavelength_timing_analysis pivots bar = Some s ->
  exists q, timing_probability s = Fin q /\ (0 <= q <= 1)%Q.
Proof.
  intro Hs. pose proof (timing_some_length _ _ _ Hs) as Hlen.
  destruct (timing_forms pivots bar Hlen) as [s' [E [_ [_ [_ [_ Ht]]]]]].
  rewrite Hs in E. injection E as <-.
  eexists. split; [exact Ht|].
  assert (Hg : (0 < length (Np.diff pivots))%nat) by (rewrite diff_length; lia).
  pose proof (inject_nat_pos _ Hg) as Hn.
  destruct (indicator_sum_bounds (bar - last pivots 0) (Np.diff pivots) 0) as [H1 H2].
  set (n := inject_Z (Z.of_nat (length (Np.diff pivots)))) in *.
  set (S := fold_left Qplus (map (indicator (bar - last pivots 0)) (Np.diff pivots)) 0%Q)
    in *.
  assert (E : (S / n * 100 / 100 == S / n)%Q) by (field; lra).
  rewrite E. split.
  - apply Qle_shift_div_l; [exact Hn|]. lra.
  - apply Qle_shift_div_r; [exact Hn|]. lra.
Qed.

Lemma fit_r2_unit pivots high lookback s i (q : Q) :
  fit_pivot_trendline pivots high lookback = Ok (Some (s, i, Fin q)) ->
  (0 <= q <= 1)%Q.
Proof.
  unfold fit_pivot_trendline.
  destruct (length _ <? 2)%nat; [discriminate|].
  destruct (Scipy.linregress _ _) as [[[s' i'] r]|] eqn:Hlin; [|discriminate].
  cbn [bind]. intro Hfit. injection Hfit as _ _ Hr.
  destruct r as [a| | |]; simpl in Hr; try discriminate.
  injection Hr as <-.
  pose proof (linregress_r_range _ _ _ _ _ a Hlin eq_refl). nra.
Qed.

Lemma deviation_nonneg (o p : Q) :
  (0 < p)%Q ->
  exists d,
    fmul (fdiv (fabs (fsub (Fin o) (Fin p))) (Fin p)) (Fin 100) = Fin d
    /\ (0 <= d)%Q.
Proof.
  intro Hp. cbn [fsub fneg fadd fabs fdiv].
  replace (Qeq_bool p 0) with false by (symmetry; apply Qeq_bool_false; lra).
  cbn [fmul]. eexists. split; [reflexivity|].
  pose proof (Qabs_nonneg (o + - p)) as Ha.
  assert (Hq : (0 <= Qabs (o + - p) / p)%Q).
  { apply Qle_shift_div_l; [exact Hp|]. lra. }
  lra.
Qed.

(** X20: end to end, the probability of the verdict is a number in
    [0, 1] whenever the timing result exists, the tolerance is positive,
    the requested entry has a positive projected price, a finite observed
    price and a finite r squared. *)
Theorem pipeline_probability_in_unit_interval :
  forall pivot_indices bar timing pivots h l (t : Q) res check_high e (p o : Q),
    wavelength_timing_analysis pivot_indices bar = Some timing ->
    trajectory_alignment_analysis pivots bar h l (Fin t) = Ok res ->
    dict_get (polarity_key check_high) res = Some e ->
    (0 < t)%Q ->
    projected_price e = Fin p -> (0 < p)%Q ->
    current_price e = Fin o ->
    is_finite (r_squared e) = true ->
    exists prob,
      dict_get "probability" (combined_pivot_probability (Some timing) res check_high)
        = Some (VNum (Fin prob))
      /\ (0 <= prob <= 1)%Q.
Proof.
  intros pivots_idx bar timing pivots h l t res check_high e p o
         Htim Hres Hget Ht Hp Hp0 Ho Hfin.
  destruct (timing_probability_unit _ _ _ Htim) as [tp [Htp Htpr]].
  destruct (trajectory_entry _ _ _ _ _ _ _ _ Hres Hget)
    as [high [[[s i] r2f] [_ [Hfit He]]]].
  assert (Hsc : exists sc, alignment_score e = Fin sc /\ (0 <= sc <= 1)%Q).
  { subst e.
    cbn [analyze_trend projected_price current_price r_squared alignment_score] in *.
    destruct r2f as [r2| | |]; try discriminate.
    pose proof (fit_r2_unit _ _ _ _ _ _ Hfit) as Hr2.
    rewrite Hp, Ho.
    destruct (deviation_nonneg o p Hp0) as [d [Hd Hd0]]. rewrite Hd.
    destruct (alignment_score_finite r2 d t Ht) as [sc [Hsc Heq]].
    exists sc. split; [exact Hsc|].
    assert (Hdt : (0 <= d / t)%Q) by (apply Qle_shift_div_l; lra).
    destruct (Qmax_zero_range (1 - d / t)) as [Hm0 Hm1].
    assert (Hm : (Qmax 0 (1 - d / t) <= 1)%Q) by (apply Hm1; lra).
    rewrite Heq. split; nra. }
  destruct Hsc as [sc [Hsc Hscr]].
  unfold combined_pivot_probability. fold (polarity_key check_high).
  rewrite Hget, Htp, Hsc. cbn [dict_get String.eqb Ascii.eqb Bool.eqb fmul fadd].
  eexists. split; [reflexivity|]. lra.
Qed.

Lemma pipeline_probability_in_unit_interval_witness :
  exists timing res prob,
    wavelength_timing_analysis [0; 10; 25; 30] 60 = Some timing
    /\ trajectory_alignment_analysis example_pivots 60 (F 109) (F 104) (Fin 1) = Ok res
    /\ dict_get "probability" (combined_pivot_probability (Some timing) res false)
       = Some (VNum (Fin prob))
    /\ (0 <= prob <= 1)%Q.
Proof.
  do 2 eexists.
  assert (T : wavelength_timing_analysis [0; 10; 25; 30] 60 = Some ?[t])
    by (vm_compute; reflexivity).
  assert (H : trajectory_alignment_analysis example_pivots 60 (F 109) (F 104) (Fin 1)
              = Ok ?[r]) by (vm_compute; reflexivity).
  match type of H with
  | _ = Ok ?r0 => assert (G : dict_get (polarity_key false) r0 = Some ?[e])
      by reflexivity
  end.
  destruct (pipeline_probability_in_unit_interval _ _ _ _ _ _ _ _ false _ _ _
              T H G eq_refl eq_refl eq_refl eq_refl eq_refl)
    as [prob [Hprob Hrange]].
  exists prob. split; [exact T|]. split; [exact H|]. split; [exact Hprob|exact Hrange].
Defined.

(* ================================================================= *)
(** ** Prominence, and the centre of the gaps *)

(** X21: a prominence threshold only removes pivots: every swing high or
    low reported with a threshold is also reported without one. *)
Theorem prominence_only_removes_pivots :
  forall (highs lows : list float) (pmin : float) (distance : Z)
         (peaks valleys peaks0 valleys0 : list Z),
    detect_pivots highs lows (Some pmin) distance = Ok (peaks, valleys) ->
    detect_pivots highs lows None distance = Ok (peaks0, valleys0) ->
    (forall i, In i peaks -> In i peaks0)
    /\ (forall i, In i valleys -> In i valleys0).
Proof.
  intros highs lows pmin d p v p0 v0 H1 H0.
  unfold detect_pivots, Scipy.find_peaks in *.
  destruct (d <? 1); [discriminate|]. cbn [bind] in *.
  injection H1 as <- <-. injection H0 as <- <-.
  split; intros i Hi; apply in_map_iff in Hi; destruct Hi as [m [<- Hm]];
    apply in_map; apply filter_In in Hm; tauto.
Qed.

Lemma prominence_only_removes_pivots_witness :
  In 5 [1; 3; 5; 8; 10] /\ In 7 [2; 4; 7; 9].
Proof.
  destruct (prominence_only_removes_pivots zigzag zigzag (F 4) 1
              [5; 10] [7; 9] [1; 3; 5; 8; 10] [2; 4; 7; 9]
              ltac:(vm_compute; reflexivity) ltac:(vm_compute; reflexivity))
    as [Hp Hv].
  split; [apply Hp|apply Hv]; cbn; tauto.
Defined.

Lemma insert_sorted_In (a b : Z) (l : list Z) :
  In b (Np.insert_sorted a l) <-> b = a \/ In b l.
Proof.
  induction l as [|h t IH]; simpl.
  - intuition.
  - destruct (a <=? h); simpl; [intuition|]. rewrite IH. intuition.
Qed.

Lemma sort_In (b : Z) (l : list Z) : In b (Np.sort l) <-> In b l.
Proof.
  induction l as [|a l IH]; simpl; [tauto|].
  rewrite insert_sorted_In, IH. intuition.
Qed.

Lemma median_within (l : list Z) (lo hi : Z) :
  l <> [] ->
  (forall w, In w l -> lo <= w <= hi) ->
  exists m, Np.median l = Fin m /\ (inject_Z lo <= m <= inject_Z hi)%Q.
Proof.
  intros Hne Hall. unfold Np.median.
  assert (Hnth : forall k, (k < length (Np.sort l))%nat ->
                           lo <= nth k (Np.sort l) 0 <= hi).
  { intros k Hk. apply Hall. apply sort_In. apply nth_In. exact Hk. }
  assert (Hq : forall k, (k < length (Np.sort l))%nat ->
                 (inject_Z lo <= inject_Z (nth k (Np.sort l) 0%Z) <= inject_Z hi)%Q).
  { intros k Hk. destruct (Hnth k Hk). split; rewrite <- Zle_Qle; assumption. }
  destruct (length (Np.sort l)) as [|n] eqn:E.
  - rewrite sort_length in E. destruct l; [congruence|discriminate].
  - assert (Hhalf : (S n / 2 < S n)%nat) by (apply Nat.div_lt; lia).
    destruct (Nat.even (S n)).
    + unfold of_int. rewrite mean_pair. eexists. split; [reflexivity|].
      pose proof (Hq (S n / 2 - 1)%nat ltac:(lia)) as H1.
      pose proof (Hq (S n / 2)%nat Hhalf) as H2.
      change (inject_Z 2) with 2%Q.
      set (a := inject_Z (nth (S n / 2 - 1) (Np.sort l) 0)) in *.
      set (b := inject_Z (nth (S n / 2) (Np.sort l) 0)) in *.
      assert (E2 : ((0 + a + b) / 2 == (a + b) * (1 # 2))%Q) by field.
      rewrite E2. lra.
    + eexists. split; [reflexivity|]. apply Hq. exact Hhalf.
Qed.

(** X22: the average and the median wavelength both lie between the
    shortest and the longest gap. *)
Theorem timing_centres_within_gaps :
  forall (pivot_indices : list Z) (current_bar lo hi : Z) s,
    wavelength_timing_analysis pivot_indices current_bar = Some s ->
    (forall w, In w (Np.diff pivot_indices) -> lo <= w <= hi) ->
    (exists a, historical_avg_wavelength s = Fin a
               /\ (inject_Z lo <= a <= inject_Z hi)%Q)
    /\ (exists m, historical_median s = Fin m
                  /\ (inject_Z lo <= m <= inject_Z hi)%Q).
Proof.
  intros pivots bar lo hi s Hs Hall.
  pose proof (timing_some_length _ _ _ Hs) as Hlen.
  destruct (timing_forms pivots bar Hlen) as [s' [E [_ [_ [Ha _]]]]].
  rewrite Hs in E. injection E as <-.
  assert (Hg : (0 < length (Np.diff pivots))%nat) by (rewrite diff_length; lia).
  pose proof (inject_nat_pos _ Hg) as Hn.
  split.
  - eexists. split; [exact Ha|].
    set (n := inject_Z (Z.of_nat (length (Np.diff pivots)))) in *.
    pose proof (fold_Qplus_le (fun _ => inject_Z lo) inject_Z (Np.diff pivots)) as L.
    pose proof (fold_Qplus_le inject_Z (fun _ => inject_Z hi) (Np.diff pivots)) as U.
    rewrite (fold_Qplus_const (fun _ : Z => inject_Z lo) (inject_Z lo)) in L
      by (intros; reflexivity).
    rewrite (fold_Qplus_const (fun _ : Z => inject_Z hi) (inject_Z hi)) in U
      by (intros; reflexivity).
    fold n in L, U. split.
    + apply Qle_shift_div_l; [exact Hn|]. rewrite Qmult_comm. apply L.
      intros w Hw. rewrite <- Zle_Qle. apply Hall, Hw.
    + apply Qle_shift_div_r; [exact Hn|]. rewrite Qmult_comm. apply U.
      intros w Hw. rewrite <- Zle_Qle. apply Hall, Hw.
  - unfold wavelength_timing_analysis in Hs.
    replace (length pivots <? 3)%nat with false in Hs
      by (symmetry; apply Nat.ltb_ge; lia).
    injection Hs as <-. cbn [historical_median].
    apply median_within; [|exact Hall].
    intro E0. rewrite E0 in Hg. simpl in Hg. lia.
Qed.

Lemma timing_centres_within_gaps_witness :
  exists s a m,
    wavelength_timing_analysis [0; 10; 25; 30] 36 = Some s
    /\ historical_avg_wavelength s = Fin a /\ (5 <= a <= 15)%Q
    /\ historical_median s = Fin m /\ (5 <= m <= 15)%Q.
Proof.
  eexists.
  assert (H : wavelength_timing_analysis [0; 10; 25; 30] 36 = Some ?[s])
    by (vm_compute; reflexivity).
  destruct (timing_centres_within_gaps _ _ 5 15 _ H) as [[a [Ha Har]] [m [Hm Hmr]]].
  - intros w Hw. cbn in Hw. lia.
  - exists a, m. split; [exact H|]. auto.
Defined.

(* ================================================================= *)
(** ** Completeness of the detector at distance 1 *)

Lemma fltb_feqb_false (a b : float) : fltb a b = true -> feqb a b = false.
Proof.
  destruct a, b; simpl; try congruence.
  intro H. qbool. apply Qeq_bool_false. lra.
Qed.

Lemma feqb_feqb_not_lt (a b c : float) :
  feqb a c = true -> feqb b c = true -> fltb a b = false.
Proof.
  destruct a, b, c; simpl; try congruence.
  intros H1 H2. qbool. apply Qlt_bool_false. lra.
Qed.

Lemma feqb_lt_not_lt (a b c : float) :
  feqb a c = true -> fltb b c = true -> fltb a b = false.
Proof.
  destruct a, b, c; simpl; try congruence.
  intros H1 H2. qbool. apply Qlt_bool_false. lra.
Qed.

Lemma plateau_end_drop x i i_max fuel :
  fltb (nth (i + 1) x NaN) (nth i x NaN) = true ->
  Scipy.plateau_end x (nth i x NaN) (i + 1) i_max fuel = (i + 1)%nat.
Proof.
  intro H. destruct fuel as [|f]; [reflexivity|]. simpl.
  rewrite (fltb_feqb_false _ _ H), andb_false_r. reflexivity.
Qed.

(** The scan reports every sample that is strictly higher than both of
    its neighbours. *)
Lemma local_maxima_from_complete x i_max i fuel start :
  (1 <= start <= i)%nat -> (i < i_max)%nat -> (i_max - start <= fuel)%nat ->
  fltb (nth (i - 1) x NaN) (nth i x NaN) = true ->
  fltb (nth (i + 1) x NaN) (nth i x NaN) = true ->
  In i (Scipy.local_maxima_from x start i_max fuel).
Proof.
  intros Hs Hi Hfuel Hrise Hfall. revert start Hs Hfuel.
  induction fuel as [|f IH]; intros start Hs Hfuel; [lia|].
  cbn [Scipy.local_maxima_from].
  replace (start <? i_max)%nat with true by (symmetry; apply Nat.ltb_lt; lia).
  destruct (Nat.eq_dec start i) as [->|Hne].
  - rewrite Hrise, (plateau_end_drop x i i_max i_max Hfall), Hfall.
    left. replace (i + (i + 1 - 1))%nat with (i * 2)%nat by lia.
    apply Nat.div_mul. lia.
  - destruct (fltb (nth (start - 1) x NaN) (nth start x NaN)) eqn:Erise;
      [|apply IH; lia].
    set (ia := Scipy.plateau_end x (nth start x NaN) (start + 1) i_max i_max) in *.
    destruct (fltb (nth ia x NaN) (nth start x NaN)) eqn:Efall; [|apply IH; lia].
    pose proof (plateau_end_ge x (nth start x NaN) (start + 1) i_max i_max) as Hge.
    fold ia in Hge.
    assert (Hplat : forall k, (start <= k < ia)%nat ->
                              feqb (nth k x NaN) (nth start x NaN) = true).
    { intros k Hk. destruct (Nat.eq_dec k start) as [->|Hk'].
      - apply feqb_refl. apply (fltb_not_nan _ _ Erise).
      - apply (plateau_end_equal x _ (start + 1) i_max i_max). fold ia. lia. }
    assert (Hpast : (ia < i)%nat).
    { destruct (Nat.lt_ge_cases ia i) as [H|H]; [exact H|]. exfalso.
      destruct (Nat.eq_dec i ia) as [E|E].
      - rewrite (feqb_lt_not_lt _ _ (nth start x NaN)) in Hrise; [discriminate| |].
        + apply Hplat. lia.
        + rewrite E. exact Efall.
      - rewrite (feqb_feqb_not_lt _ _ (nth start x NaN)) in Hrise; [discriminate| |];
          apply Hplat; lia. }
    right. apply IH; lia.
Qed.

Lemma distance_step_one (peaks : list Z) (j : nat) :
  StronglySorted Z.lt peaks ->
  Scipy.distance_step peaks 1 (repeat true (length peaks)) j
  = repeat true (length peaks).
Proof.
  intro Hs. unfold Scipy.distance_step.
  destruct (nth j (repeat true (length peaks)) false) eqn:Ej; [|reflexivity].
  assert (Hj : (j < length peaks)%nat).
  { destruct (Nat.lt_ge_cases j (length peaks)) as [H|H]; [exact H|].
    rewrite nth_overflow in Ej by (rewrite repeat_length; exact H). discriminate. }
  assert (He : Scipy.flag_earlier peaks (nth j peaks 0) 1 j (repeat true (length peaks))
               = repeat true (length peaks)).
  { destruct j as [|k]; [reflexivity|]. simpl.
    pose proof (sorted_nth Z.lt 0 peaks Hs k (S k) ltac:(lia)) as Hlt.
    replace (nth (S k) peaks 0 - nth k peaks 0 <? 1) with false; [reflexivity|].
    symmetry. apply Z.ltb_ge. lia. }
  rewrite He.
  destruct (length peaks) as [|n] eqn:En; [lia|]. cbn [Scipy.flag_later].
  rewrite En.
  destruct (S j <? S n)%nat eqn:E; cbn [andb]; [|reflexivity].
  apply Nat.ltb_lt in E.
  pose proof (sorted_nth Z.lt 0 peaks Hs j (S j) ltac:(lia)) as Hlt.
  replace (nth (S j) peaks 0 - nth j peaks 0 <? 1) with false; [reflexivity|].
  symmetry. apply Z.ltb_ge. lia.
Qed.

Lemma select_in_order_one (peaks : list Z) (order : list nat) :
  StronglySorted Z.lt peaks ->
  Scipy.select_in_order peaks 1 order = repeat true (length peaks).
Proof.
  intro Hs. unfold Scipy.select_in_order.
  induction order as [|j rest IH]; cbn [fold_left]; [reflexivity|].
  rewrite distance_step_one by exact Hs. exact IH.
Qed.

Lemma mask_select_all {A : Type} (l : list A) :
  mask_select l (repeat true (length l)) = l.
Proof.
  induction l as [|a l IH]; simpl; [reflexivity|]. rewrite IH. reflexivity.
Qed.

Lemma find_peaks_distance_one (x : list float) :
  Scipy.find_peaks x None 1 = Ok (map Z.of_nat (Scipy.local_maxima_1d x)).
Proof.
  unfold Scipy.find_peaks. cbn [Z.ltb Z.compare].
  unfold Scipy.select_by_peak_distance.
  destruct (local_maxima_from_spec x (length x - 1) (length x) 1 (le_n 1)) as [_ Hs].
  fold (Scipy.local_maxima_1d x) in Hs.
  rewrite select_in_order_one.
  - rewrite length_map, mask_select_all. reflexivity.
  - apply sorted_map. eapply StronglySorted_ind with (R := lt) (l := Scipy.local_maxima_1d x);
      [constructor| |exact Hs].
    intros a l _ IH Hall. constructor; [exact IH|].
    eapply Forall_impl; [|exact Hall]. cbv beta. intros; lia.
Qed.

(** X23: with distance 1 and no prominence threshold nothing is
    filtered: every bar that is strictly higher than both neighbours is
    reported as a swing high, every bar strictly lower than both as a swing
    low. *)
Theorem strict_extrema_reported_at_distance_one :
  forall (highs lows : list float) (i : nat),
    (1 <= i)%nat ->
    exists peak_indices valley_indices,
      detect_pivots highs lows None 1 = Ok (peak_indices, valley_indices)
      /\ ((i + 1 < length highs)%nat ->
          fltb (nth (i - 1) highs NaN) (nth i highs NaN) = true ->
          fltb (nth (i + 1) highs NaN) (nth i highs NaN) = true ->
          In (Z.of_nat i) peak_indices)
      /\ ((i + 1 < length lows)%nat ->
          fltb (nth i lows NaN) (nth (i - 1) lows NaN) = true ->
          fltb (nth i lows NaN) (nth (i + 1) lows NaN) = true ->
          In (Z.of_nat i) valley_indices).
Proof.
  intros highs lows i Hi. unfold detect_pivots.
  rewrite !find_peaks_distance_one. cbn [bind].
  do 2 eexists. split; [reflexivity|]. split.
  - intros Hlen Hrise Hfall. apply in_map.
    apply local_maxima_from_complete; try assumption; lia.
  - intros Hlen Hrise Hfall. apply in_map.
    apply local_maxima_from_complete; rewrite ?length_map; try lia.
    + rewrite !nth_map_fneg, fltb_fneg. exact Hrise.
    + rewrite !nth_map_fneg, fltb_fneg. exact Hfall.
Qed.

Lemma strict_extrema_reported_at_distance_one_witness :
  exists peak_indices valley_indices,
    detect_pivots zigzag zigzag None 1 = Ok (peak_indices, valley_indices)
    /\ In 3 peak_indices /\ In 4 valley_indices.
Proof.
  destruct (strict_extrema_reported_at_distance_one zigzag zigzag 3 ltac:(lia))
    as [p [v [Hdet [Hp _]]]].
  destruct (strict_extrema_reported_at_distance_one zigzag zigzag 4 ltac:(lia))
    as [p' [v' [Hdet' [_ Hv]]]].
  rewrite Hdet in Hdet'. injection Hdet' as <- <-.
  exists p, v. split; [exact Hdet|]. split.
  - apply Hp; [simpl; lia|reflexivity|reflexivity].
  - apply Hv; [simpl; lia|reflexivity|reflexivity].
Defined.

(* ================================================================= *)
(** ** The highest peak survives the distance condition *)

Lemma sorted_indices_In key (L : list nat) (j : nat) :
  In j (fold_right (Np.insert_index key) [] L) <-> In j L.
Proof.
  induction L as [|a L IH]; simpl; [tauto|].
  rewrite insert_index_In, IH. intuition.
Qed.

Lemma insert_before_max key (a m : nat) (l : list nat) :
  Np.key_le (key a) (key m) = true ->
  exists l', Np.insert_index key a (l ++ [m]) = l' ++ [m].
Proof.
  intro H. induction l as [|h t IH]; simpl.
  - rewrite H. exists [a]. reflexivity.
  - destruct (Np.key_le (key a) (key h)).
    + exists (a :: h :: t). reflexivity.
    + destruct IH as [l' Hl']. rewrite Hl'. exists (h :: l'). reflexivity.
Qed.

Lemma insert_max_last key (m : nat) (l : list nat) :
  (forall h, In h l -> Np.key_le (key m) (key h) = false) ->
  Np.insert_index key m l = l ++ [m].
Proof.
  induction l as [|h t IH]; intro H; simpl; [reflexivity|].
  rewrite (H h (or_introl eq_refl)). rewrite IH; [reflexivity|].
  intros k Hk. apply H. right. exact Hk.
Qed.

(** The index of a strictly largest value comes last in the sorted order. *)
Lemma sorted_indices_end_with_max key (m : nat) (L : list nat) :
  In m L ->
  Np.key_le (key m) (key m) = true ->
  (forall a, In a L -> a <> m ->
             Np.key_le (key a) (key m) = true /\ Np.key_le (key m) (key a) = false) ->
  exists l', fold_right (Np.insert_index key) [] L = l' ++ [m].
Proof.
  intros Hin Hrefl Hmax. induction L as [|a L IH]; [contradiction|].
  cbn [fold_right].
  destruct (in_dec Nat.eq_dec m L) as [HmL|HmL].
  - destruct IH as [l' Hl']; [exact HmL| |].
    { intros b Hb Hne. apply Hmax; [right; exact Hb|exact Hne]. }
    rewrite Hl'. apply insert_before_max.
    destruct (Nat.eq_dec a m) as [->|Hne]; [exact Hrefl|].
    apply Hmax; [left; reflexivity|exact Hne].
  - destruct Hin as [->|Hin]; [|contradiction].
    exists (fold_right (Np.insert_index key) [] L).
    apply insert_max_last. intros h Hh. apply sorted_indices_In in Hh.
    apply Hmax; [right; exact Hh|]. intro E. subst h. contradiction.
Qed.

Lemma flag_earlier_spares peaks pj d k1 keep k :
  nth k keep false = true -> (pj - nth k peaks 0 <? d) = false ->
  nth k (Scipy.flag_earlier peaks pj d k1 keep) false = true.
Proof.
  revert keep. induction k1 as [|k0 IH]; intros keep Hk Hc; simpl; [exact Hk|].
  destruct (pj - nth k0 peaks 0 <? d) eqn:E; [|exact Hk].
  apply IH; [|exact Hc].
  rewrite nth_list_set_other; [exact Hk|]. intro E0. subst k0. congruence.
Qed.

Lemma flag_later_spares peaks pj d k0 fuel keep k :
  nth k keep false = true -> (nth k peaks 0 - pj <? d) = false ->
  nth k (Scipy.flag_later peaks pj d k0 fuel keep) false = true.
Proof.
  revert k0 keep. induction fuel as [|f IH]; intros k0 keep Hk Hc; simpl; [exact Hk|].
  destruct ((k0 <? length peaks)%nat && (nth k0 peaks 0 - pj <? d)) eqn:E; [|exact Hk].
  apply andb_prop in E. destruct E as [_ E].
  apply IH; [|exact Hc].
  rewrite nth_list_set_other; [exact Hk|]. intro E0. subst k0. congruence.
Qed.

Lemma distance_step_keeps_self peaks d keep j :
  nth j keep false = true ->
  nth j (Scipy.distance_step peaks d keep j) false = true.
Proof.
  intro Hj. unfold Scipy.distance_step. rewrite Hj.
  rewrite flag_later_below by lia. rewrite flag_earlier_above by lia. exact Hj.
Qed.

Section HighestPeak.

Variable peaks : list Z.
Variable d : Z.
Variable m : nat.

Hypothesis peaks_ascend :
  forall i j, (i <= j < length peaks)%nat -> nth i peaks 0 <= nth j peaks 0.

(** A kept peak at [m] that has silenced its neighbourhood stays kept
    when any other peak is processed. *)
Lemma distance_step_spares_settled keep j :
  length keep = length peaks ->
  nth m keep false = true -> settled peaks d keep m ->
  nth m (Scipy.distance_step peaks d keep j) false = true.
Proof.
  intros Hlen Hm Hset.
  destruct (Nat.eq_dec j m) as [->|Hne]; [apply distance_step_keeps_self, Hm|].
  unfold Scipy.distance_step. destruct (nth j keep false) eqn:Ej; [|exact Hm].
  assert (Hj : (j < length peaks)%nat).
  { destruct (Nat.lt_ge_cases j (length peaks)) as [H|H]; [exact H|].
    rewrite nth_overflow in Ej by (rewrite Hlen; exact H). discriminate. }
  assert (Hmn : (m < length peaks)%nat).
  { destruct (Nat.lt_ge_cases m (length peaks)) as [H|H]; [exact H|].
    rewrite nth_overflow in Hm by (rewrite Hlen; exact H). discriminate. }
  assert (Hfar : d <= Z.abs (nth j peaks 0 - nth m peaks 0)).
  { destruct (Z.lt_ge_cases (Z.abs (nth j peaks 0 - nth m peaks 0)) d) as [H|H];
      [|exact H].
    rewrite (Hset Hm j Hj Hne H) in Ej. discriminate. }
  destruct (Nat.lt_ge_cases m j) as [Hlt|Hge].
  - rewrite flag_later_below by lia.
    apply flag_earlier_spares; [exact Hm|].
    apply Z.ltb_ge. pose proof (peaks_ascend m j ltac:(lia)). lia.
  - apply flag_later_spares.
    + rewrite flag_earlier_above by lia. exact Hm.
    + apply Z.ltb_ge. pose proof (peaks_ascend j m ltac:(lia)). lia.
Qed.

Lemma select_fold_spares order keep :
  length keep = length peaks ->
  nth m keep false = true -> settled peaks d keep m ->
  nth m (fold_left (Scipy.distance_step peaks d) order keep) false = true.
Proof.
  revert keep. induction order as [|j rest IH]; intros keep Hlen Hm Hset;
    cbn [fold_left]; [exact Hm|].
  apply IH.
  - rewrite distance_step_length. exact Hlen.
  - apply distance_step_spares_settled; assumption.
  - eapply settled_cleared; [exact Hset|apply distance_step_cleared].
Qed.

(** The peak processed first is kept. *)
Lemma select_first_kept rest :
  (m < length peaks)%nat ->
  nth m (Scipy.select_in_order peaks d (m :: rest)) false = true.
Proof.
  intro Hm. unfold Scipy.select_in_order. cbn [fold_left].
  assert (Hinit : nth m (repeat true (length peaks)) false = true).
  { apply nth_repeat_lt. exact Hm. }
  apply select_fold_spares.
  - rewrite distance_step_length. apply repeat_length.
  - apply distance_step_keeps_self. exact Hinit.
  - apply distance_step_settled; [exact peaks_ascend|apply repeat_length|exact Hm].
Qed.

End HighestPeak.

Lemma mask_select_nth {A : Type} (dflt : A) (l : list A) (keep : list bool) (k : nat) :
  (k < length l)%nat -> nth k keep false = true ->
  In (nth k l dflt) (mask_select l keep).
Proof.
  revert keep k. induction l as [|a l IH]; intros keep k Hk Hkeep; [simpl in Hk; lia|].
  destruct keep as [|b keep]; [destruct k; discriminate|].
  destruct k as [|k]; simpl in *.
  - subst b. left. reflexivity.
  - destruct b; [right|]; apply IH; auto; lia.
Qed.

Lemma fltb_key_le (a b : float) :
  fltb a b = true -> Np.key_le a b = true /\ Np.key_le b a = false.
Proof.
  destruct a, b; simpl; try congruence; auto.
  intro H. qbool. split.
  - apply Qle_bool_iff. lra.
  - destruct (Qle_bool q0 q) eqn:E; [|reflexivity].
    apply Qle_bool_iff in E. lra.
Qed.

Lemma key_le_refl (a : float) : Np.key_le a a = true.
Proof.
  destruct a; simpl; try reflexivity. apply Qle_bool_iff. lra.
Qed.

Lemma maxima_positions_ascend (lm : list nat) :
  StronglySorted lt lm ->
  forall i j, (i <= j < length (map Z.of_nat lm))%nat ->
              nth i (map Z.of_nat lm) 0 <= nth j (map Z.of_nat lm) 0.
Proof.
  intros Hs i j Hij. rewrite length_map in Hij.
  change 0 with (Z.of_nat 0). rewrite !map_nth.
  destruct (Nat.eq_dec i j) as [->|Hne]; [lia|].
  pose proof (sorted_nth lt 0%nat lm Hs i j ltac:(lia)). lia.
Qed.

(** A sample strictly higher than every other sample, not at an end of
    the array, is returned by [find_peaks] for every distance. *)
Lemma find_peaks_keeps_highest (x : list float) (d : Z) (i : nat) :
  1 <= d -> (1 <= i)%nat -> (i + 1 < length x)%nat ->
  (forall k, (k < length x)%nat -> k <> i ->
             fltb (nth k x NaN) (nth i x NaN) = true) ->
  exists peaks, Scipy.find_peaks x None d = Ok peaks /\ In (Z.of_nat i) peaks.
Proof.
  intros Hd Hi Hlen Hmax. unfold Scipy.find_peaks.
  replace (d <? 1) with false by (symmetry; apply Z.ltb_ge; lia).
  eexists. split; [reflexivity|]. apply in_map.
  destruct (local_maxima_from_spec x (length x - 1) (length x) 1 (le_n 1))
    as [Hrange Hsorted].
  fold (Scipy.local_maxima_1d x) in Hrange, Hsorted.
  assert (Hin : In i (Scipy.local_maxima_1d x)).
  { apply local_maxima_from_complete; try lia; apply Hmax; lia. }
  set (lm := Scipy.local_maxima_1d x) in *.
  destruct (In_nth lm i 0%nat Hin) as [m [Hm Hnth]].
  set (prio := map (fun p => nth p x NaN) lm).
  assert (Hkey : forall k, (k < length lm)%nat ->
                           nth k prio NaN = nth (nth k lm 0%nat) x NaN).
  { intros k Hk. unfold prio.
    rewrite (nth_indep _ NaN (nth 0%nat x NaN)) by (rewrite length_map; exact Hk).
    apply (map_nth (fun p => nth p x NaN)). }
  destruct (sorted_indices_end_with_max (fun k => nth k prio NaN) m
              (seq 0 (length prio))) as [l' Hl'].
  { apply in_seq. unfold prio. rewrite length_map. lia. }
  { apply key_le_refl. }
  { intros a Ha Hne. apply in_seq in Ha. unfold prio in Ha. rewrite length_map in Ha.
    cbv beta. rewrite !Hkey by lia. rewrite Hnth.
    apply fltb_key_le. apply Hmax.
    - rewrite Forall_forall in Hrange.
      assert (Hain : In (nth a lm 0%nat) lm) by (apply nth_In; lia).
      destruct (Hrange _ Hain) as [Hr _]. lia.
    - rewrite <- Hnth.
      destruct (Nat.lt_ge_cases a m) as [Hlt|Hge].
      + pose proof (sorted_nth lt 0%nat lm Hsorted a m ltac:(lia)). lia.
      + pose proof (sorted_nth lt 0%nat lm Hsorted m a ltac:(lia)). lia. }
  unfold Scipy.select_by_peak_distance, Np.argsort. fold prio.
  rewrite Hl', rev_app_distr. cbn [rev app].
  rewrite <- Hnth. apply mask_select_nth; [exact Hm|].
  apply select_first_kept.
  - apply maxima_positions_ascend. exact Hsorted.
  - rewrite length_map. exact Hm.
Qed.

(** X24: whatever the minimum distance, the bar whose high is strictly
    above every other high is reported as a swing high, and the bar whose
    low is strictly below every other low as a swing low (no prominence
    threshold; the bar is not the first or the last one). *)
Theorem extreme_bar_is_always_a_pivot :
  forall (highs lows : list float) (distance : Z) (i : nat),
    1 <= distance -> (1 <= i)%nat ->
    exists peak_indices valley_indices,
      detect_pivots highs lows None distance = Ok (peak_indices, valley_indices)
      /\ ((i + 1 < length highs)%nat ->
          (forall k, (k < length highs)%nat -> k <> i ->
                     fltb (nth k highs NaN) (nth i highs NaN) = true) ->
          In (Z.of_nat i) peak_indices)
      /\ ((i + 1 < length lows)%nat ->
          (forall k, (k < length lows)%nat -> k <> i ->
                     fltb (nth i lows NaN) (nth k lows NaN) = true) ->
          In (Z.of_nat i) valley_indices).
Proof.
  intros highs lows d i Hd Hi. unfold detect_pivots.
  destruct (find_peaks_sorted highs None d Hd) as [p [Hp _]].
  destruct (find_peaks_sorted (map fneg lows) None d Hd) as [v [Hv _]].
  rewrite Hp, Hv. cbn [bind]. exists p, v. split; [reflexivity|]. split.
  - intros Hlen Hmax.
    destruct (find_peaks_keeps_highest highs d i Hd Hi Hlen Hmax) as [p' [Hp' Hin]].
    rewrite Hp in Hp'. injection Hp' as <-. exact Hin.
  - intros Hlen Hmin.
    destruct (find_peaks_keeps_highest (map fneg lows) d i Hd Hi) as [v' [Hv' Hin]].
    + rewrite length_map. exact Hlen.
    + intros k Hk Hne. rewrite length_map in Hk.
      rewrite !nth_map_fneg, fltb_fneg. apply Hmin; assumption.
    + rewrite Hv in Hv'. injection Hv' as <-. exact Hin.
Qed.

Lemma extreme_bar_is_always_a_pivot_witness :
  exists peak_indices valley_indices,
    detect_pivots zigzag (map F [5; 4; 6; 1; 7; 3; 8]) None 50
      = Ok (peak_indices, valley_indices)
    /\ In 10 peak_indices /\ In 3 valley_indices.
Proof.
  destruct (extreme_bar_is_always_a_pivot zigzag (map F [5; 4; 6; 1; 7; 3; 8]) 50 10
              ltac:(lia) ltac:(lia)) as [p [v [Hdet [Hp _]]]].
  destruct (extreme_bar_is_always_a_pivot zigzag (map F [5; 4; 6; 1; 7; 3; 8]) 50 3
              ltac:(lia) ltac:(lia)) as [p' [v' [Hdet' [_ Hv]]]].
  rewrite Hdet in Hdet'. injection Hdet' as <- <-.
  exists p, v. split; [exact Hdet|]. split.
  - apply Hp; [simpl; lia|]. intros k Hk Hne. cbn in Hk.
    do 12 (destruct k as [|k]; [reflexivity || congruence|]). lia.
  - apply Hv; [simpl; lia|]. intros k Hk Hne. cbn in Hk.
    do 7 (destruct k as [|k]; [reflexivity || congruence|]). lia.
Defined.
